(** * stimer-backend: the room state machine and its station-slot bookkeeping

    A shallow embedding of [src/roomStore.ts] (room aggregate, tick engine,
    compaction engine) and of the room-mutating part of the command handlers
    of [src/socket.ts], followed by theorems about them.

    Modelling conventions.
    - JavaScript numbers that the code uses as counters, slot ids, seconds and
      millisecond timestamps are integers ([Z]); [Math.floor (x / 1000)] on
      them is [x `div` 1000].
    - A [Map] is a [gmap]; the slot objects stored in [room.stations] are
      never shared between two keys (every slot is created fresh by
      [makeStations], [updateConfig] or [renumberCompactIfWaiting]), so a
      mutation of a slot object is an [alter] of the map at its key.
    - An optional field is an [option]; [warned30], [warned60] and
      [pendingCompaction] are only ever tested for truthiness, so [undefined]
      and [false] are the same [false].
    - [Date.now ()] is an explicit argument [now] (milliseconds).
    - A function that may [throw] runs in the monad [M]: it returns the room
      as the call left it together with either the error or the result.
    - The callbacks handed to [tick] only emit messages (the time-up one also
      resets the room, after [tick] is done): [tick] returns the list of
      callbacks it fired, in order. *)

From Stdlib Require Import ZArith String List Lia Bool.
From stdpp Require Import gmap strings list fin_maps numbers.

Local Open Scope string_scope.
Local Open Scope Z_scope.

(** ** Data model ([src/types.ts]) *)

Inductive RoomState : Type := WAITING | RUNNING | ENDED.

#[global] Instance RoomState_eq_dec : EqDecision RoomState.
Proof. solve_decision. Defined.

Record StationSlot : Type := mkSlot {
  id : Z;
  ownerClientId : option string;
  ready : bool;
  connected : bool
}.

(** The handle returned by [setInterval]. *)
Definition Timeout : Type := nat.

Record Room : Type := mkRoom {
  code : string;
  centralClientId : string;
  state : RoomState;
  stationsCount : Z;
  roundDurationSec : Z;
  stations : gmap Z StationSlot;
  bindings : gmap string Z;
  interval : option Timeout;
  timeLeft : option Z;
  startedAt : option Z;
  warned30 : bool;
  warned60 : bool;
  pendingCompaction : bool
}.

(** Field assignments [room.f = v] and [slot.f = v]. *)
Definition set_ownerClientId (v : option string) (s : StationSlot) : StationSlot :=
  mkSlot (id s) v (ready s) (connected s).
Definition set_ready (v : bool) (s : StationSlot) : StationSlot :=
  mkSlot (id s) (ownerClientId s) v (connected s).
Definition set_connected (v : bool) (s : StationSlot) : StationSlot :=
  mkSlot (id s) (ownerClientId s) (ready s) v.
Definition set_id (v : Z) (s : StationSlot) : StationSlot :=
  mkSlot v (ownerClientId s) (ready s) (connected s).

Definition set_state (v : RoomState) (r : Room) : Room :=
  mkRoom (code r) (centralClientId r) v (stationsCount r) (roundDurationSec r)
    (stations r) (bindings r) (interval r) (timeLeft r) (startedAt r)
    (warned30 r) (warned60 r) (pendingCompaction r).
Definition set_stationsCount (v : Z) (r : Room) : Room :=
  mkRoom (code r) (centralClientId r) (state r) v (roundDurationSec r)
    (stations r) (bindings r) (interval r) (timeLeft r) (startedAt r)
    (warned30 r) (warned60 r) (pendingCompaction r).
Definition set_roundDurationSec (v : Z) (r : Room) : Room :=
  mkRoom (code r) (centralClientId r) (state r) (stationsCount r) v
    (stations r) (bindings r) (interval r) (timeLeft r) (startedAt r)
    (warned30 r) (warned60 r) (pendingCompaction r).
Definition set_stations (v : gmap Z StationSlot) (r : Room) : Room :=
  mkRoom (code r) (centralClientId r) (state r) (stationsCount r) (roundDurationSec r)
    v (bindings r) (interval r) (timeLeft r) (startedAt r)
    (warned30 r) (warned60 r) (pendingCompaction r).
Definition set_bindings (v : gmap string Z) (r : Room) : Room :=
  mkRoom (code r) (centralClientId r) (state r) (stationsCount r) (roundDurationSec r)
    (stations r) v (interval r) (timeLeft r) (startedAt r)
    (warned30 r) (warned60 r) (pendingCompaction r).
Definition set_interval (v : option Timeout) (r : Room) : Room :=
  mkRoom (code r) (centralClientId r) (state r) (stationsCount r) (roundDurationSec r)
    (stations r) (bindings r) v (timeLeft r) (startedAt r)
    (warned30 r) (warned60 r) (pendingCompaction r).
Definition set_timeLeft (v : option Z) (r : Room) : Room :=
  mkRoom (code r) (centralClientId r) (state r) (stationsCount r) (roundDurationSec r)
    (stations r) (bindings r) (interval r) v (startedAt r)
    (warned30 r) (warned60 r) (pendingCompaction r).
Definition set_startedAt (v : option Z) (r : Room) : Room :=
  mkRoom (code r) (centralClientId r) (state r) (stationsCount r) (roundDurationSec r)
    (stations r) (bindings r) (interval r) (timeLeft r) v
    (warned30 r) (warned60 r) (pendingCompaction r).
Definition set_warned30 (v : bool) (r : Room) : Room :=
  mkRoom (code r) (centralClientId r) (state r) (stationsCount r) (roundDurationSec r)
    (stations r) (bindings r) (interval r) (timeLeft r) (startedAt r)
    v (warned60 r) (pendingCompaction r).
Definition set_warned60 (v : bool) (r : Room) : Room :=
  mkRoom (code r) (centralClientId r) (state r) (stationsCount r) (roundDurationSec r)
    (stations r) (bindings r) (interval r) (timeLeft r) (startedAt r)
    (warned30 r) v (pendingCompaction r).
Definition set_pendingCompaction (v : bool) (r : Room) : Room :=
  mkRoom (code r) (centralClientId r) (state r) (stationsCount r) (roundDurationSec r)
    (stations r) (bindings r) (interval r) (timeLeft r) (startedAt r)
    (warned30 r) (warned60 r) v.

(** ** JavaScript truthiness of the values the code tests *)

(** [if (slot.ownerClientId)]: [undefined] and the empty string are falsy. *)
Definition truthy_str (o : option string) : bool :=
  match o with
  | Some s => negb (String.eqb s "")
  | None => false
  end.

(** [if (sid)]: [undefined] and [0] are falsy. *)
Definition truthy_num (o : option Z) : bool :=
  match o with
  | Some z => negb (z =? 0)
  | None => false
  end.

(** [a !== b] on optional strings. *)
Definition str_neq (a b : option string) : bool :=
  negb (bool_decide (a = b)).

(** ** Errors and the monad of room operations *)

Inductive Err : Type :=
  | E_BAD_STATE
  | E_STATIONS_IN_USE
  | E_STATION_TAKEN
  | E_INVALID_PAYLOAD
  | E_INVALID_STATION
  | E_NOT_CENTRAL
  | TypeError.

Definition M (A : Type) : Type := Room → Room * (Err + A).

#[global] Instance M_ret : MRet M := λ A a r, (r, inr a).
#[global] Instance M_bind : MBind M :=
  λ A B k m r, match m r with
               | (r', inr a) => k a r'
               | (r', inl e) => (r', inl e)
               end.
Definition throw {A : Type} (e : Err) : M A := λ r, (r, inl e).
Definition get : M Room := λ r, (r, inr r).
Definition modify (f : Room → Room) : M unit := λ r, (f r, inr tt).
(** [try { m } catch {}] *)
Definition try_ignore (m : M unit) : M unit :=
  λ r, match m r with
       | (r', _) => (r', inr tt)
       end.

(** The room after the call, and what the call returned or threw. *)
Definition room_after {A : Type} (x : Room * (Err + A)) : Room := fst x.
Definition outcome {A : Type} (x : Room * (Err + A)) : Err + A := snd x.

(** ** [src/roomStore.ts] *)

Definition freshSlot (i : Z) : StationSlot := mkSlot i None false false.

(** [for (let i = 1; i <= n; i++) m.set (i, {id: i, ready: false, connected: false})] *)
Definition makeStations (n : Z) : gmap Z StationSlot :=
  foldl (λ m i, <[i := freshSlot i]> m) ∅ (seqZ 1 n).

(** [genCode ()] is outside the model: the fresh code is an argument. *)
Definition createRoom (fresh_code centralId : string) (count dur : Z) : Room :=
  mkRoom fresh_code centralId WAITING count dur (makeStations count) ∅
         None None None false false false.

(** The slot is cleared: [ownerClientId = undefined; ready = false;
    connected = false]. *)
Definition clearSlot (s : StationSlot) : StationSlot :=
  mkSlot (id s) None false false.

(** The claim is recorded on the slot: [ownerClientId = clientId;
    connected = true]. *)
Definition claimSlot (c : string) (s : StationSlot) : StationSlot :=
  set_connected true (set_ownerClientId (Some c) s).

(** [claimStation], first version of [roomStore.ts]. *)
Definition claimStation (clientId : string) (stationId : Z) : M unit :=
  r ← get;
  if (stationId <? 1) || (stationsCount r <? stationId) then throw E_INVALID_PAYLOAD
  else match stations r !! stationId with
  | None => throw TypeError
  | Some slot =>
    if truthy_str (ownerClientId slot) && str_neq (ownerClientId slot) (Some clientId)
    then throw E_STATION_TAKEN
    else
      let prev := bindings r !! clientId in
      (if truthy_num prev && negb (bool_decide (prev = Some stationId))
       then match prev with
            | Some p => modify (λ r, set_stations (alter clearSlot p (stations r)) r)
            | None => mret tt
            end
       else mret tt);;
      modify (λ r, set_stations (alter (claimSlot clientId) stationId (stations r)) r);;
      modify (λ r, set_bindings (<[clientId := stationId]> (bindings r)) r)
  end.

Definition setReady (clientId : string) (rdy : bool) : M unit :=
  r ← get;
  let sid := bindings r !! clientId in
  if negb (truthy_num sid) then mret tt
  else match sid with
  | None => mret tt
  | Some s =>
    match stations r !! s with
    | None => throw TypeError
    | Some _ => modify (λ r, set_stations (alter (set_ready rdy) s (stations r)) r)
    end
  end.

(** The body of the loop of [allClaimedAndReady] at slot [i]. *)
Definition claimedAndReady (st : gmap Z StationSlot) (i : Z) : bool :=
  match st !! i with
  | Some s => truthy_str (ownerClientId s) && ready s
  | None => false
  end.

Definition allClaimedAndReady (r : Room) : bool :=
  forallb (claimedAndReady (stations r)) (seqZ 1 (stationsCount r)).

(** [s?.ownerClientId] is truthy. *)
Definition slotOwned (st : gmap Z StationSlot) (i : Z) : bool :=
  match st !! i with
  | Some s => truthy_str (ownerClientId s)
  | None => false
  end.

Definition updateConfig (count dur : Z) : M unit :=
  r ← get;
  if negb (bool_decide (state r = WAITING)) then throw E_BAD_STATE
  else if existsb (slotOwned (stations r)) (seqZ (count + 1) (stationsCount r - count))
  then throw E_STATIONS_IN_USE
  else
    modify (set_stationsCount count);;
    modify (λ r, set_stations
                   (foldl (λ m i, delete i m) (stations r) (seqZ (count + 1) (200 - count))) r);;
    modify (λ r, set_stations
                   (foldl (λ m i, match m !! i with
                                  | Some _ => m
                                  | None => <[i := freshSlot i]> m
                                  end) (stations r) (seqZ 1 count)) r);;
    modify (set_roundDurationSec dur).

Definition startRound (now : Z) : M unit :=
  r ← get;
  if negb (bool_decide (state r = WAITING)) then throw E_BAD_STATE
  else if negb (allClaimedAndReady r) then throw E_BAD_STATE
  else
    modify (set_state RUNNING);;
    modify (set_startedAt (Some now));;
    modify (λ r, set_timeLeft (Some (roundDurationSec r)) r);;
    modify (set_warned30 false);;
    modify (set_warned60 false).

(** [Math.max (0, roundDurationSec - Math.floor ((now - startedAt) / 1000))] *)
Definition remaining (dur now started : Z) : Z :=
  Z.max 0 (dur - (now - started) `div` 1000).

Definition stopRound (now : Z) : M unit :=
  r ← get;
  if negb (bool_decide (state r = RUNNING)) then throw E_BAD_STATE
  else
    modify (set_state ENDED);;
    modify (set_interval None);;
    modify (λ r, set_timeLeft
                   (Some (remaining (roundDurationSec r) now (default now (startedAt r)))) r).

Definition resumeRound (now : Z) : M unit :=
  r ← get;
  if negb (bool_decide (state r = ENDED)) then throw E_BAD_STATE
  else
    let tl := default 0 (timeLeft r) in
    if tl <=? 0 then throw E_BAD_STATE
    else
      modify (set_state RUNNING);;
      modify (λ r, set_startedAt (Some (now - (roundDurationSec r - tl) * 1000)) r);;
      modify (set_warned30 (tl <=? 30));;
      modify (set_warned60 (tl <=? 60)).

(** The callbacks of [tick]. *)
Inductive Callback : Type := OnWarn60 | OnWarn30 | OnTimeUp.

#[global] Instance Callback_eq_dec : EqDecision Callback.
Proof. solve_decision. Defined.

Definition tick (now : Z) : M (list Callback) :=
  r ← get;
  match startedAt r with
  | Some started =>
    if negb (bool_decide (state r = RUNNING)) then mret []
    else
      let tl := remaining (roundDurationSec r) now started in
      modify (set_timeLeft (Some tl));;
      w60 ← (if negb (warned60 r) && (60 <=? roundDurationSec r) && (tl =? 60)
              then modify (set_warned60 true);; mret [OnWarn60]
              else mret []);
      w30 ← (if negb (warned30 r) && (tl =? 30) && (30 <? roundDurationSec r)
              then modify (set_warned30 true);; mret [OnWarn30]
              else mret []);
      up ← (if tl =? 0
             then modify (set_state ENDED);; modify (set_interval None);; mret [OnTimeUp]
             else mret []);
      mret ((w60 ++ w30 ++ up)%list)
  | None => mret []
  end.

(** The [while] loop of [tailCompactIfWaiting], started at a positive
    [newCount = n]: the value of [newCount] when the loop is left. *)
Fixpoint tailScan (st : gmap Z StationSlot) (n : nat) : nat :=
  match n with
  | O => O
  | S k =>
    match st !! Z.of_nat (S k) with
    | Some s =>
      if truthy_str (ownerClientId s) || ready s || connected s then S k
      else tailScan st k
    | None => tailScan st k
    end
  end.

Definition tailCompactIfWaiting (r : Room) : Room :=
  if negb (bool_decide (state r = WAITING)) then r
  else
    let newCount :=
      if 0 <? stationsCount r
      then Z.of_nat (tailScan (stations r) (Z.to_nat (stationsCount r)))
      else stationsCount r in
    if newCount <? stationsCount r
    then set_stationsCount newCount
           (set_stations
              (foldl (λ m i, delete i m) (stations r)
                     (seqZ (newCount + 1) (stationsCount r - newCount))) r)
    else r.

Definition maybeApplyPendingCompaction (r : Room) : Room :=
  if negb (bool_decide (state r = WAITING)) then r
  else if negb (pendingCompaction r) then r
  else set_pendingCompaction false (tailCompactIfWaiting r).

Definition resetToWaiting (r : Room) : Room :=
  maybeApplyPendingCompaction
    (set_warned60 false
       (set_warned30 false
          (set_timeLeft None
             (set_startedAt None
                (set_state WAITING
                   (set_stations (set_ready false <$> stations r) r)))))).

Definition immediateEnd (r : Room) : Room :=
  set_state ENDED (set_timeLeft (Some 0) (set_interval None r)).

(** One entry of the list returned by [renumberCompactIfWaiting]. *)
Record Remap : Type := mkRemap { clientId : string; oldId : Z; newId : Z }.

(** The body of the shifting loop at index [i], on the stations, the
    bindings and the list built so far. *)
Definition renumberStep (acc : gmap Z StationSlot * gmap string Z * list Remap) (i : Z)
  : gmap Z StationSlot * gmap string Z * list Remap :=
  let '(st, bd, out) := acc in
  let src := default (freshSlot (i + 1)) (st !! (i + 1)) in
  let dst := default (freshSlot i) (st !! i) in
  let dst' := set_ready (ready src)
                (set_connected (connected src)
                   (set_ownerClientId (ownerClientId src) (set_id i dst))) in
  let st' := <[i := dst']> st in
  if truthy_str (ownerClientId src)
  then match ownerClientId src with
       | Some cid =>
         let bd' := if bool_decide (bd !! cid = Some (i + 1))
                    then <[cid := i]> bd else bd in
         (st', bd', (out ++ [mkRemap cid (i + 1) i])%list)
       | None => (st', bd, out)
       end
  else (st', bd, out).

Definition renumberCompactIfWaiting (removedId : Z) (r : Room) : Room * list Remap :=
  if negb (bool_decide (state r = WAITING)) then (r, [])
  else if (removedId <? 1) || (stationsCount r <? removedId) then (r, [])
  else
    let st0 := alter clearSlot removedId (stations r) in
    let '(st, bd, out) :=
      foldl renumberStep (st0, bindings r, [])
            (seqZ removedId (stationsCount r - removedId)) in
    (set_stationsCount (Z.max 0 (stationsCount r - 1))
       (set_bindings bd (set_stations (delete (stationsCount r) st) r)),
     out).

(** [onClientDisconnect], without the empty-room timer (kept outside the
    room aggregate). *)
Definition onClientDisconnect (cid : string) (r : Room) : Room :=
  let sid := bindings r !! cid in
  if truthy_num sid
  then match sid with
       | Some s => set_stations (alter (set_connected false) s (stations r)) r
       | None => r
       end
  else r.

(** ** [src/socket.ts]: what the command handlers do to the room

    The registry lookup, the payload schemas, the rate limiter and the
    broadcasts are outside the model.  Every handler body runs inside
    [try { ... } catch (e) { cb ({ok: false, error}) }]: an error below is the
    error of that reply. *)

Definition requireCentral (caller : string) : M unit :=
  r ← get;
  if negb (String.eqb (centralClientId r) caller) then throw E_NOT_CENTRAL else mret tt.

(** What [central:removeStation] answers. *)
Inductive RemoveReply : Type :=
  | PendingCompaction (kicked : option string)
  | Compacted (renumbered : list Remap).

Definition central_removeStation (caller : string) (stationId : Z) : M RemoveReply :=
  requireCentral caller;;
  r ← get;
  if (stationId <? 1) || (stationsCount r <? stationId) then throw E_INVALID_STATION
  else match stations r !! stationId with
  | None => throw E_INVALID_STATION
  | Some slot =>
    if bool_decide (state r = RUNNING)
    then
      modify (λ r, set_stations (alter clearSlot stationId (stations r)) r);;
      modify (set_pendingCompaction true);;
      mret (PendingCompaction
              (if truthy_str (ownerClientId slot) then ownerClientId slot else None))
    else
      let '(r', renumbered) := renumberCompactIfWaiting stationId r in
      modify (λ _, r');;
      mret (Compacted renumbered)
  end.

Definition central_skipRound (caller : string) : M unit :=
  requireCentral caller;;
  r ← get;
  if negb (bool_decide (state r = RUNNING)) then throw E_BAD_STATE
  else
    modify immediateEnd;;
    modify resetToWaiting;;
    modify maybeApplyPendingCompaction.

Definition central_pauseRound (caller : string) (now : Z) : M unit :=
  requireCentral caller;;
  stopRound now.

(** The callback installed by [setInterval]: [tick], whose time-up callback
    resets the room. *)
Definition onInterval (now : Z) : M (list Callback) :=
  fired ← tick now;
  (if bool_decide (OnTimeUp ∈ fired) then modify resetToWaiting else mret tt);;
  mret fired.

Definition central_resumeRound (caller : string) (now : Z) (h : Timeout) : M unit :=
  requireCentral caller;;
  resumeRound now;;
  modify (set_interval (Some h)).

Definition central_resetRoom (caller : string) : M unit :=
  requireCentral caller;;
  modify (set_interval None);;
  modify resetToWaiting.

(** [if (allClaimedAndReady (room) && room.state === "WAITING")
       try { startRound (room); room.interval = setInterval (...) } catch {}] *)
Definition autoStart (now : Z) (h : Timeout) : M unit :=
  r ← get;
  if allClaimedAndReady r && bool_decide (state r = WAITING)
  then try_ignore (startRound now;; modify (set_interval (Some h)))
  else mret tt.

(** [station:join]; [stationId] is optional in the payload.  The taken
    branch answers [{ok: false, error: E_STATION_TAKEN}] itself. *)
Definition station_join (cid : string) (stationId : option Z) (now : Z) (h : Timeout)
  : M unit :=
  r ← get;
  let bound := bindings r !! cid in
  let targetId := match stationId with Some s => Some s | None => bound end in
  if negb (truthy_num targetId) then mret tt
  else match targetId with
  | None => mret tt
  | Some t =>
    match stations r !! t with
    | None => throw E_INVALID_PAYLOAD
    | Some slot =>
      if truthy_str (ownerClientId slot) && str_neq (ownerClientId slot) (Some cid)
      then throw E_STATION_TAKEN
      else
        modify (λ r, set_stations (alter (claimSlot cid) t (stations r)) r);;
        modify (λ r, set_bindings (<[cid := t]> (bindings r)) r);;
        autoStart now h
    end
  end.

Definition station_leave (cid : string) : M unit :=
  r ← get;
  let sid := bindings r !! cid in
  if negb (truthy_num sid) then mret tt
  else match sid with
  | None => mret tt
  | Some s =>
    modify (λ r, set_stations (alter clearSlot s (stations r)) r);;
    modify (λ r, set_bindings (delete cid (bindings r)) r);;
    r' ← get;
    if bool_decide (state r' = RUNNING)
    then modify (set_pendingCompaction true)
    else modify tailCompactIfWaiting
  end.

Definition station_setReady (cid : string) (rdy : bool) (now : Z) (h : Timeout) : M unit :=
  setReady cid rdy;;
  autoStart now h.

(** ** Running a command and looking at the room *)

(** The room a command leaves behind, whether it returned or threw. *)
Definition exec {A : Type} (m : M A) (r : Room) : Room := (m r).1.

(** [lookups r] lists the slots [1..n] of a room as the snapshot shows them:
    owner, ready, connected. *)
Definition slotView (r : Room) (i : Z) : option (option string * bool * bool) :=
  (λ s, (ownerClientId s, ready s, connected s)) <$> stations r !! i.

(** ** Derived notions used by the statements *)

(** The slot [i] of the room is claimed: it exists and has a non-empty
    owner. *)
Definition claimed (r : Room) (i : Z) : Prop :=
  ∃ s c, stations r !! i = Some s ∧ ownerClientId s = Some c ∧ c ≠ "".

(** Every slot id in [1..stationsCount] has a non-empty owner and
    [ready = true]. *)
Definition everySlotClaimedAndReady (r : Room) : Prop :=
  ∀ i, 1 ≤ i ≤ stationsCount r →
       ∃ s c, stations r !! i = Some s ∧ ownerClientId s = Some c ∧ c ≠ ""
              ∧ ready s = true.

(** The room right after a successful [startRound] at time [now]. *)
Definition started (now : Z) (r : Room) : Room :=
  mkRoom (code r) (centralClientId r) RUNNING (stationsCount r) (roundDurationSec r)
    (stations r) (bindings r) (interval r) (Some (roundDurationSec r)) (Some now)
    false false (pendingCompaction r).

(** The stations above [n] are all unclaimed, and [n] itself is claimed:
    [n] is the highest claimed index of the room. *)
Definition highestClaimed (r : Room) (n : Z) : Prop :=
  claimed r n ∧ ∀ i, n < i ≤ stationsCount r → ¬ claimed r i.

(** ** Rooms used as examples *)

Definition room2 : Room := createRoom "R" "central" 2 65.

(** Both stations of [room2] claimed and ready. *)
Definition readyRoom2 : Room :=
  exec (setReady "b" true)
    (exec (claimStation "b" 2)
       (exec (setReady "a" true)
          (exec (claimStation "a" 1) room2))).

(** The body of [resetToWaiting] before [maybeApplyPendingCompaction]: the
    ready flags, the state, the clock and the warning latches are cleared. *)
Definition roundCleared (r : Room) : Room :=
  set_warned60 false
    (set_warned30 false
       (set_timeLeft None
          (set_startedAt None
             (set_state WAITING
                (set_stations (set_ready false <$> stations r) r))))).

(** ** The invariants of the room aggregate *)

(** The set of keys of the stations map is [{1..stationsCount}]. *)
Definition keysContiguous (r : Room) : Prop :=
  dom (stations r) = (list_to_set (seqZ 1 (stationsCount r)) : gset Z).

(** [bindings] maps [c] to [s] if and only if the slot [s] has
    [ownerClientId = c]. *)
Definition bindingsMatchOwners (r : Room) : Prop :=
  ∀ (c : string) (s : Z),
    bindings r !! c = Some s ↔
    ∃ slot, stations r !! s = Some slot ∧ ownerClientId slot = Some c.

(** No slot is owned by the empty client id (a connection without a client
    id is refused before any handler is installed). *)
Definition ownersNonEmpty (r : Room) : Prop :=
  ∀ (i : Z) (slot : StationSlot),
    stations r !! i = Some slot → ownerClientId slot ≠ Some "".

Definition room_inv (r : Room) : Prop :=
  keysContiguous r ∧ bindingsMatchOwners r ∧ ownersNonEmpty r.

(** The stations once [claimStation] has released the slot the client was
    bound to before, if it is another slot than the one claimed. *)
Definition priorReleased (c : string) (sid : Z) (r : Room) : gmap Z StationSlot :=
  match bindings r !! c with
  | Some p =>
    if negb (p =? 0) && negb (bool_decide (Some p = Some sid))
    then alter clearSlot p (stations r)
    else stations r
  | None => stations r
  end.

(** The room a successful [claimStation c sid] leaves. *)
Definition afterClaim (c : string) (sid : Z) (r : Room) : Room :=
  set_bindings (<[c := sid]> (bindings r))
    (set_stations (alter (claimSlot c) sid (priorReleased c sid r)) r).

(** [room2] with client a on station 1, through the join handler. *)
Definition room2a : Room := exec (station_join "a" (Some 1) 0 0%nat) room2.

(** ** Sequences of ticks *)

(** The callbacks a call of [tick] fired. *)
Definition fired (x : Room * (Err + list Callback)) : list Callback :=
  match x.2 with
  | inr f => f
  | inl _ => []
  end.

(** [tick] called at the successive times [nows]: the room at the end and
    all callbacks fired, in order. *)
Fixpoint runTicks (nows : list Z) (r : Room) : Room * list Callback :=
  match nows with
  | [] => (r, [])
  | now :: rest =>
    let x := tick now r in
    let y := runTicks rest x.1 in
    (y.1, (fired x ++ y.2)%list)
  end.

(** How many times the callback [c] was fired. *)
Definition timesFired (c : Callback) (l : list Callback) : nat :=
  count_occ Callback_eq_dec l c.

(** A tick at time [now] on the room [r] is a tick of a running round that
    computes [timeLeft = th]. *)
Definition observes (th now : Z) (r : Room) : Prop :=
  state r = RUNNING
  ∧ ∃ sa, startedAt r = Some sa ∧ remaining (roundDurationSec r) now sa = th.

(** The room [tick] leaves when the round is running since [sa]. *)
Definition ticked (now sa : Z) (r : Room) : Room :=
  let tl := remaining (roundDurationSec r) now sa in
  mkRoom (code r) (centralClientId r)
    (if tl =? 0 then ENDED else state r)
    (stationsCount r) (roundDurationSec r) (stations r) (bindings r)
    (if tl =? 0 then None else interval r)
    (Some tl) (startedAt r)
    (warned30 r || ((tl =? 30) && (30 <? roundDurationSec r)))
    (warned60 r || ((60 <=? roundDurationSec r) && (tl =? 60)))
    (pendingCompaction r).

(** A round of 65 seconds started at time 0. *)
Definition round65 : Room := started 0 readyRoom2.

(** ** What renumber compaction is expected to produce *)

(** The slot that lands at position [j]: the state of the slot [j + 1] of
    [st] under the id [j]. *)
Definition shifted (st : gmap Z StationSlot) (j : Z) : StationSlot :=
  let src := default (freshSlot (j + 1)) (st !! (j + 1)) in
  mkSlot j (ownerClientId src) (ready src) (connected src).

(** The remap reported for position [i]: the occupant of the slot [i + 1]
    moves to [i]. *)
Definition remapAt (st : gmap Z StationSlot) (i : Z) : option Remap :=
  match st !! (i + 1) with
  | Some s =>
    match ownerClientId s with
    | Some c => if truthy_str (Some c) then Some (mkRemap c (i + 1) i) else None
    | None => None
    end
  | None => None
  end.

(** The client [c] occupies the slot [i] of [st]: the slot is there and its
    owner is [c], a non-empty id (what [if (src.ownerClientId)] tests). *)
Definition occupies (st : gmap Z StationSlot) (c : string) (i : Z) : bool :=
  match st !! i with
  | Some s => truthy_str (ownerClientId s) && bool_decide (ownerClientId s = Some c)
  | None => false
  end.

(** The binding [b] of the client [c] after the slots [k+1..n] of [st] moved
    one position down: it follows the slot when it points to a moved slot
    that [c] occupies ([if (cur === oldId) room.bindings.set (cid, newId)]),
    and stays as it is otherwise. *)
Definition movedBinding (st : gmap Z StationSlot) (k n : Z) (c : string)
    (b : option Z) : option Z :=
  match b with
  | Some i => if bool_decide (k < i ≤ n) && occupies st c i then Some (i - 1) else Some i
  | None => None
  end.

(** Three stations, claimed by a, b and c. *)
Definition room3 : Room :=
  exec (claimStation "c" 3)
    (exec (claimStation "b" 2)
       (exec (claimStation "a" 1) (createRoom "R" "central" 3 65))).

(** Three stations; the client a joined the station 2 and then the station 3
    through the [station:join] handler. *)
Definition room3aa : Room :=
  exec (station_join "a" (Some 3) 0 0%nat)
    (exec (station_join "a" (Some 2) 0 0%nat) (createRoom "R" "central" 3 65)).

(** [room3] after the controller removed the station 1: b and c moved to the
    stations 1 and 2, and a is still bound to 1. *)
Definition room3r : Room := exec (central_removeStation "central" 1) room3.

(** The callbacks of one tick, as a list built from three tests. *)
Definition firedList (b60 b30 bup : bool) : list Callback :=
  ((if b60 then [OnWarn60] else [])
   ++ (if b30 then [OnWarn30] else [])
   ++ (if bup then [OnTimeUp] else []))%list.

(** Unfolding the monad in a goal. *)
Ltac run :=
  unfold mbind, M_bind, mret, M_ret, get, modify, throw, try_ignore, exec in *;
  simpl in *.

(** ** The payload schemas ([src/validators.ts]), on typed payloads *)

(** [createRoomSchema] and [updateConfigSchema]:
    [stationsCount] in [1..200], [roundDurationSec] in [10..36000]. *)
Definition configSchema (count dur : Z) : bool :=
  (1 <=? count) && (count <=? 200) && (10 <=? dur) && (dur <=? 36000).

(** [joinSchema.partial ()]: an optional [stationId], at least 1. *)
Definition joinSchema (stationId : option Z) : bool :=
  match stationId with
  | Some s => 1 <=? s
  | None => true
  end.

(** ** The rate limiter ([src/rateLimit.ts]) *)

Record Bucket : Type := mkBucket { tokens : Z; last : Z }.

Definition WINDOW_MS : Z := 10000.
Definition MAX_TOKENS : Z := 10.

(** [rateLimit (roomCode)] at time [now]: the answer and the buckets it
    leaves.  A bucket found in the map is mutated in place, also when the call
    is refused; a bucket made up for an unknown room is only stored when the
    call is granted. *)
Definition rateLimit (now : Z) (roomCode : string) (buckets : gmap string Bucket)
  : bool * gmap string Bucket :=
  let found := buckets !! roomCode in
  let b := default (mkBucket MAX_TOKENS now) found in
  let elapsed := now - last b in
  let refill := (elapsed `div` WINDOW_MS) * MAX_TOKENS in
  let b1 := mkBucket (Z.min MAX_TOKENS (tokens b + (if 0 <? refill then refill else 0)))
                     (if 0 <? refill then now else last b) in
  if tokens b1 <=? 0
  then (false, match found with
               | Some _ => <[roomCode := b1]> buckets
               | None => buckets
               end)
  else (true, <[roomCode := mkBucket (tokens b1 - 1) (last b1)]> buckets).

(** The answers of successive calls for one room at the times [nows]. *)
Fixpoint rateLimitRun (nows : list Z) (roomCode : string) (buckets : gmap string Bucket)
  : list bool * gmap string Bucket :=
  match nows with
  | [] => ([], buckets)
  | now :: rest =>
    let x := rateLimit now roomCode buckets in
    let y := rateLimitRun rest roomCode x.2 in
    (x.1 :: y.1, y.2)
  end.

(** A bucket holds between 0 and [MAX_TOKENS] tokens. *)
Definition bucket_ok (b : Bucket) : Prop := 0 ≤ tokens b ≤ MAX_TOKENS.

(** ** The room registry and the empty-room timers ([src/roomStore.ts]) *)

Record Store : Type := mkStore {
  rooms : gmap string Room;
  emptyRoomTimers : gmap string Timeout
}.

Inductive StoreErr : Type := E_ROOM_NOT_FOUND.

Definition isRoomEmpty (r : Room) : bool :=
  bool_decide (map_Forall (λ _ s, connected s = false) (stations r)).

(** [getRoom] *)
Definition getRoom (c : string) (s : Store) : option Room := rooms s !! c.

(** [createRoom] with its [rooms.set (code, room)]. *)
Definition createRoomIn (fresh_code centralId : string) (count dur : Z) (s : Store)
  : Room * Store :=
  let room := createRoom fresh_code centralId count dur in
  (room, mkStore (<[fresh_code := room]> (rooms s)) (emptyRoomTimers s)).

(** [deleteRoom]: the store it leaves and the error it throws, if any. *)
Definition deleteRoom (c : string) (s : Store) : Store * option StoreErr :=
  match rooms s !! c with
  | None => (s, Some E_ROOM_NOT_FOUND)
  | Some _ => (mkStore (delete c (rooms s)) (emptyRoomTimers s), None)
  end.

(** [scheduleRoomCleanupIfEmpty], also the second half of
    [onClientDisconnect]; [h] is the handle [setTimeout] returns. *)
Definition scheduleRoomCleanupIfEmpty (h : Timeout) (r : Room)
    (timers : gmap string Timeout) : gmap string Timeout :=
  if isRoomEmpty r && negb (bool_decide (is_Some (timers !! code r)))
  then <[code r := h]> timers
  else timers.

(** [onAnyClientJoin] *)
Definition onAnyClientJoin (r : Room) (timers : gmap string Timeout)
  : gmap string Timeout :=
  match timers !! code r with
  | Some _ => delete (code r) timers
  | None => timers
  end.

(** The callback of the empty-room timer of the room [c]:
    [deleteRoom (c); emptyRoomTimers.delete (c)]. *)
Definition emptyRoomExpired (c : string) (s : Store) : Store * option StoreErr :=
  match deleteRoom c s with
  | (s', Some e) => (s', Some e)
  | (s', None) => (mkStore (rooms s') (delete c (emptyRoomTimers s')), None)
  end.

(** ** [serialize]: the [timeLeft] of the snapshot *)

(** [room.timeLeft ?? (room.startedAt ? Math.max (0, ...) : undefined)];
    a [startedAt] of 0 is falsy. *)
Definition snapshotTimeLeft (now : Z) (r : Room) : option Z :=
  match timeLeft r with
  | Some tl => Some tl
  | None =>
    if truthy_num (startedAt r)
    then Some (remaining (roundDurationSec r) now (default 0 (startedAt r)))
    else None
  end.

(** ** The server as a transition system on one room

    One [Event] is one message handled by [bindSocket] for the room, or one
    firing of the room's interval timer.  A connection without a client id is
    refused before any handler is installed; a payload that fails its schema
    makes the handler answer an error before it touches the room; the
    interval callback only runs while the timer is armed. *)
Inductive Event : Type :=
  | EvUpdateConfig (caller : string) (count dur : Z) (granted : bool)
  | EvRemoveStation (caller : string) (stationId : Z)
  | EvSkipRound (caller : string)
  | EvPauseRound (caller : string) (now : Z)
  | EvResumeRound (caller : string) (now : Z) (h : Timeout)
  | EvResetRoom (caller : string)
  | EvJoin (cid : string) (stationId : option Z) (now : Z) (h : Timeout)
  | EvLeave (cid : string)
  | EvSetReady (cid : string) (rdy : bool) (now : Z) (h : Timeout)
  | EvDisconnect (cid : string)
  | EvInterval (now : Z).

(** What a handler answers in [cb ({ok: false, error})]: the schema
    rejected the payload, the rate limiter refused, or the core threw. *)
Inductive HandlerErr : Type :=
  | ZodError
  | E_RATE_LIMIT
  | Thrown (e : Err).

(** [central:updateConfig]; [granted] is the answer of [rateLimit]. *)
Definition central_updateConfig (caller : string) (count dur : Z) (granted : bool)
    (r : Room) : Room * (HandlerErr + unit) :=
  if negb (configSchema count dur) then (r, inl ZodError)
  else match requireCentral caller r with
       | (r1, inl e) => (r1, inl (Thrown e))
       | (r1, inr _) =>
         if negb granted then (r1, inl E_RATE_LIMIT)
         else match updateConfig count dur r1 with
              | (r2, inl e) => (r2, inl (Thrown e))
              | (r2, inr _) => (r2, inr tt)
              end
       end.

(** The client id of the connection that sends the event. *)
Definition sender (e : Event) : option string :=
  match e with
  | EvUpdateConfig c _ _ _ | EvRemoveStation c _ | EvSkipRound c
  | EvPauseRound c _ | EvResumeRound c _ _ | EvResetRoom c
  | EvJoin c _ _ _ | EvLeave c | EvSetReady c _ _ _ | EvDisconnect c => Some c
  | EvInterval _ => None
  end.

Definition handle (e : Event) (r : Room) : Room :=
  if bool_decide (sender e = Some "") then r
  else match e with
  | EvUpdateConfig c count dur granted => (central_updateConfig c count dur granted r).1
  | EvRemoveStation c sid => exec (central_removeStation c sid) r
  | EvSkipRound c => exec (central_skipRound c) r
  | EvPauseRound c now => exec (central_pauseRound c now) r
  | EvResumeRound c now h => exec (central_resumeRound c now h) r
  | EvResetRoom c => exec (central_resetRoom c) r
  | EvJoin c sid now h =>
    if joinSchema sid then exec (station_join c sid now h) r else r
  | EvLeave c => exec (station_leave c) r
  | EvSetReady c rdy now h => exec (station_setReady c rdy now h) r
  | EvDisconnect c => onClientDisconnect c r
  | EvInterval now =>
    match interval r with
    | Some _ => exec (onInterval now) r
    | None => r
    end
  end.

(** The rooms the server can hold: created by [central:createRoom] from a
    payload that passes [createRoomSchema], then driven by events. *)
Inductive reachable : Room → Prop :=
  | reach_create (fresh_code centralId : string) (count dur : Z) :
      configSchema count dur = true →
      reachable (createRoom fresh_code centralId count dur)
  | reach_handle (e : Event) (r : Room) :
      reachable r → reachable (handle e r).

Definition runEvents (es : list Event) (r : Room) : Room :=
  foldl (λ r e, handle e r) r es.

(** ** Invariants of the rooms the server holds *)

(** Each slot carries the key it is stored under. *)
Definition idsMatchKeys (r : Room) : Prop :=
  ∀ (i : Z) (s : StationSlot), stations r !! i = Some s → id s = i.

(** The configuration stays within what the schemas admit; the count can
    reach 0 through compaction. *)
Definition configBounds (r : Room) : Prop :=
  0 ≤ stationsCount r ≤ 200 ∧ 10 ≤ roundDurationSec r ≤ 36000.

(** The clock fields go with the state: a WAITING room has no clock, no
    time left and clear latches; a RUNNING or ENDED room has both, and the
    time left is not negative. *)
Definition clock_inv (r : Room) : Prop :=
  match state r with
  | WAITING => startedAt r = None ∧ timeLeft r = None
               ∧ warned30 r = false ∧ warned60 r = false
  | RUNNING | ENDED => is_Some (startedAt r) ∧ ∃ tl, timeLeft r = Some tl ∧ 0 ≤ tl
  end.

(** The interval timer is armed exactly while the round is RUNNING. *)
Definition timer_inv (r : Room) : Prop :=
  is_Some (interval r) ↔ state r = RUNNING.

Definition struct_inv (r : Room) : Prop :=
  keysContiguous r ∧ idsMatchKeys r ∧ ownersNonEmpty r.

(** The same on a stations map and a count. *)
Definition structOK (st : gmap Z StationSlot) (n : Z) : Prop :=
  (∀ i, is_Some (st !! i) ↔ 1 ≤ i ≤ n)
  ∧ (∀ i s, st !! i = Some s → id s = i ∧ ownerClientId s ≠ Some "").

Definition server_inv (r : Room) : Prop :=
  struct_inv r ∧ configBounds r ∧ clock_inv r ∧ timer_inv r.

(** The part of [server_inv] that reads the stations and the count, and the
    part that reads the round fields. *)
Definition shape_inv (r : Room) : Prop :=
  structOK (stations r) (stationsCount r) ∧ 0 ≤ stationsCount r ≤ 200.

Definition round_inv (r : Room) : Prop :=
  10 ≤ roundDurationSec r ≤ 36000 ∧ clock_inv r ∧ timer_inv r.

(** A served room: two stations joined by a and b, both ready at time 5,
    which starts the round. *)
Definition served : Room :=
  runEvents [EvJoin "a" (Some 1) 0 1%nat; EvJoin "b" (Some 2) 1 2%nat;
             EvSetReady "a" true 2 3%nat; EvSetReady "b" true 5 4%nat] room2.

(** A slot is blank: unclaimed, not ready and not connected (what
    [tailCompactIfWaiting] drops). *)
Definition blank (s : StationSlot) : bool :=
  negb (truthy_str (ownerClientId s) || ready s || connected s).

(** ** The snapshot store ([src/redisStore.ts])

    The JSON text is kept as the value it encodes; the time to live of the
    keys is outside the model.  [Array.from (map.values ())] lists the values
    in insertion order, which the stations map of the model does not record:
    the list below holds the same slots, and [new Map (entries)] depends on
    the order only when two entries share a key. *)
Record Persisted : Type := mkPersisted {
  p_code : string;
  p_state : RoomState;
  p_stationsCount : Z;
  p_roundDurationSec : Z;
  p_stations : list StationSlot;
  p_bindings : list (string * Z)
}.

(** [new Map (entries)]: a later entry replaces an earlier one with its key. *)
Definition mapOfEntries {K V : Type} `{Countable K} (l : list (K * V)) : gmap K V :=
  foldl (λ m kv, <[kv.1 := kv.2]> m) ∅ l.

Definition roomKey (c : string) : string := "rooms:" ++ c.

Definition saveRoom (r : Room) (db : gmap string Persisted) : gmap string Persisted :=
  <[roomKey (code r) :=
      mkPersisted (code r) (state r) (stationsCount r) (roundDurationSec r)
                  ((map_to_list (stations r)).*2) (map_to_list (bindings r))]> db.

Definition loadRoom (c : string) (db : gmap string Persisted) : option Room :=
  match db !! roomKey c with
  | None => None
  | Some p =>
    Some (mkRoom (p_code p) "" (p_state p) (p_stationsCount p) (p_roundDurationSec p)
                 (mapOfEntries ((λ s, (id s, s)) <$> p_stations p))
                 (mapOfEntries (p_bindings p))
                 None None None false false false)
  end.

(** The room as the snapshot store gives it back: no controller, no clock,
    no timer, no latches. *)
Definition restored (r : Room) : Room :=
  mkRoom (code r) "" (state r) (stationsCount r) (roundDurationSec r)
         (stations r) (bindings r) None None None false false false.

(** * Basic facts *)

Lemma truthy_str_spec (o : option string) :
  truthy_str o = true ↔ ∃ c, o = Some c ∧ c ≠ "".
Proof.
  destruct o as [c|]; simpl.
  - rewrite negb_true_iff, String.eqb_neq. split.
    + intros H. exists c. auto.
    + intros (c' & [= ->] & H). exact H.
  - split; [discriminate | intros (c & H & _); discriminate].
Qed.

Lemma truthy_str_Some (c : string) : c ≠ "" → truthy_str (Some c) = true.
Proof. intros H. apply truthy_str_spec. eauto. Qed.

Lemma slotOwned_spec (r : Room) (i : Z) :
  slotOwned (stations r) i = true ↔ claimed r i.
Proof.
  unfold slotOwned, claimed. destruct (stations r !! i) as [s|].
  - rewrite truthy_str_spec. split.
    + intros (c & H1 & H2). eauto.
    + intros (s' & c & [= <-] & H1 & H2). eauto.
  - split; [discriminate | intros (s & c & H & _); discriminate].
Qed.

Lemma claimedAndReady_spec (st : gmap Z StationSlot) (i : Z) :
  claimedAndReady st i = true ↔
  ∃ s c, st !! i = Some s ∧ ownerClientId s = Some c ∧ c ≠ "" ∧ ready s = true.
Proof.
  unfold claimedAndReady. destruct (st !! i) as [s|].
  - rewrite andb_true_iff, truthy_str_spec. split.
    + intros ((c & H1 & H2) & H3). eauto 6.
    + intros (s' & c & [= <-] & H1 & H2 & H3). eauto.
  - split; [discriminate | intros (s & c & H & _); discriminate].
Qed.

Lemma allClaimedAndReady_spec (r : Room) :
  allClaimedAndReady r = true ↔ everySlotClaimedAndReady r.
Proof.
  unfold allClaimedAndReady, everySlotClaimedAndReady.
  rewrite forallb_forall. split.
  - intros H i Hi. apply claimedAndReady_spec, H, list_elem_of_In, elem_of_seqZ. lia.
  - intros H i Hi. apply list_elem_of_In, elem_of_seqZ in Hi.
    apply claimedAndReady_spec, H. lia.
Qed.

(** Deleting a run of keys, and filling the missing keys of a run. *)
Lemma lookup_foldl_delete (l : list Z) (m : gmap Z StationSlot) (j : Z) :
  foldl (λ m i, delete i m) m l !! j = if bool_decide (j ∈ l) then None else m !! j.
Proof.
  revert m. induction l as [|a l IH]; intros m; simpl.
  - reflexivity.
  - rewrite IH. destruct (decide (j = a)) as [->|Hne].
    + rewrite (bool_decide_eq_true_2 (a ∈ a :: l)) by left.
      rewrite lookup_delete_eq. by destruct (bool_decide (a ∈ l)).
    + rewrite lookup_delete_ne by congruence.
      destruct (decide (j ∈ l)) as [Hin|Hnin].
      * rewrite !bool_decide_eq_true_2; [done | by right | done].
      * rewrite !bool_decide_eq_false_2; [done | | done].
        intros [?|?]%elem_of_cons; contradiction.
Qed.

Lemma lookup_foldl_fill (l : list Z) (m : gmap Z StationSlot) (j : Z) :
  foldl (λ m i, match m !! i with
                | Some _ => m
                | None => <[i := freshSlot i]> m
                end) m l !! j
  = match m !! j with
    | Some s => Some s
    | None => if bool_decide (j ∈ l) then Some (freshSlot j) else None
    end.
Proof.
  revert m. induction l as [|a l IH]; intros m; simpl.
  - by destruct (m !! j).
  - rewrite IH. destruct (decide (j = a)) as [->|Hne].
    + rewrite (bool_decide_eq_true_2 (a ∈ a :: l)) by left.
      destruct (m !! a) as [s|] eqn:Ha.
      * by rewrite Ha.
      * by rewrite lookup_insert_eq.
    + assert (Hm : (match m !! a with
                    | Some _ => m
                    | None => <[a := freshSlot a]> m
                    end) !! j = m !! j).
      { destruct (m !! a); [done | by rewrite lookup_insert_ne]. }
      rewrite Hm. destruct (m !! j); [done |].
      destruct (decide (j ∈ l)) as [Hin|Hnin].
      * rewrite !bool_decide_eq_true_2; [done | by right | done].
      * rewrite !bool_decide_eq_false_2; [done | | done].
        intros [?|?]%elem_of_cons; contradiction.
Qed.

Lemma lookup_makeStations (n j : Z) :
  makeStations n !! j = if bool_decide (1 ≤ j ≤ n) then Some (freshSlot j) else None.
Proof.
  unfold makeStations.
  assert (H : ∀ (l : list Z) (m : gmap Z StationSlot),
             foldl (λ m i, <[i := freshSlot i]> m) m l !! j
             = if bool_decide (j ∈ l) then Some (freshSlot j) else m !! j).
  { induction l as [|a l IH]; intros m; simpl; [done |].
    rewrite IH. destruct (decide (j ∈ l)) as [Hin|Hnin].
    - rewrite !bool_decide_eq_true_2; [done | by right | done].
    - rewrite (bool_decide_eq_false_2 (j ∈ l)) by done.
      destruct (decide (j = a)) as [->|Hne].
      + rewrite lookup_insert_eq, bool_decide_eq_true_2; [done | left].
      + rewrite lookup_insert_ne by congruence.
        rewrite bool_decide_eq_false_2; [done |].
        intros [?|?]%elem_of_cons; contradiction. }
  rewrite H, lookup_empty.
  destruct (decide (1 ≤ j ≤ n)).
  - rewrite !bool_decide_eq_true_2; [done | done | apply elem_of_seqZ; lia].
  - rewrite !bool_decide_eq_false_2; [done | done | rewrite elem_of_seqZ; lia].
Qed.

(** * The round state machine *)

(** ** C2: the guard of [startRound] *)

Lemma startRound_ready (now : Z) (r : Room) :
  state r = WAITING → allClaimedAndReady r = true →
  startRound now r = (started now r, inr tt).
Proof.
  intros Hw Hall. unfold startRound. run.
  rewrite bool_decide_eq_true_2 by done. simpl. rewrite Hall. reflexivity.
Qed.

(** C2. [startRound] succeeds if and only if the room is WAITING and every
    slot id in [1..stationsCount] has a non-empty owner and [ready = true],
    and it then leaves the started room; otherwise it fails with
    [E_BAD_STATE] and leaves the room as it was.  In particular a
    [startRound] on a RUNNING room fails with [E_BAD_STATE] without changing
    the room. *)
Theorem startRound_guard (now : Z) (r : Room) :
  ((startRound now r).2 = inr tt ↔ state r = WAITING ∧ everySlotClaimedAndReady r)
  ∧ (state r = WAITING ∧ everySlotClaimedAndReady r →
     startRound now r = (started now r, inr tt))
  ∧ (¬ (state r = WAITING ∧ everySlotClaimedAndReady r) →
     startRound now r = (r, inl E_BAD_STATE))
  ∧ (state r = RUNNING → startRound now r = (r, inl E_BAD_STATE)).
Proof.
  assert (Hyes : state r = WAITING ∧ everySlotClaimedAndReady r →
                 startRound now r = (started now r, inr tt)).
  { intros [Hw Hall]. apply allClaimedAndReady_spec in Hall.
    by apply startRound_ready. }
  assert (Hno : ¬ (state r = WAITING ∧ everySlotClaimedAndReady r) →
                startRound now r = (r, inl E_BAD_STATE)).
  { intros Hn. unfold startRound. run.
    destruct (decide (state r = WAITING)) as [Hw|Hw].
    - rewrite bool_decide_eq_true_2 by done. simpl.
      destruct (allClaimedAndReady r) eqn:Hall; [|reflexivity].
      apply allClaimedAndReady_spec in Hall. tauto.
    - rewrite bool_decide_eq_false_2 by done. reflexivity. }
  split; [|split; [exact Hyes | split; [exact Hno |]]].
  - split.
    + intros Hok.
      destruct (decide (state r = WAITING)) as [Hw|Hw].
      * split; [done |]. apply allClaimedAndReady_spec.
        destruct (allClaimedAndReady r) eqn:Hall; [done |].
        rewrite Hno in Hok; [discriminate |].
        intros [_ H]. apply allClaimedAndReady_spec in H. congruence.
      * rewrite Hno in Hok; [discriminate | tauto].
    + intros H. rewrite (Hyes H). reflexivity.
  - intros Hr. apply Hno. intros [Hw _]. congruence.
Qed.

Lemma startRound_guard_witness :
  startRound 0 readyRoom2 = (started 0 readyRoom2, inr tt).
Proof.
  apply (startRound_guard 0 readyRoom2). split.
  - reflexivity.
  - apply allClaimedAndReady_spec. vm_compute. reflexivity.
Defined.

(** The example of the specification: two stations, the first claimed and
    ready, the second unclaimed. *)
Example startRound_second_unclaimed :
  let r := exec (setReady "a" true) (exec (claimStation "a" 1) room2) in
  startRound 0 r = (r, inl E_BAD_STATE).
Proof. vm_compute. reflexivity. Qed.

(** ** C6: the guards of [updateConfig] *)

Lemma updateConfig_in_use_iff (count : Z) (r : Room) :
  existsb (slotOwned (stations r)) (seqZ (count + 1) (stationsCount r - count)) = true
  ↔ ∃ i, count < i ≤ stationsCount r ∧ claimed r i.
Proof.
  rewrite existsb_exists. split.
  - intros (i & Hin & Hi). apply list_elem_of_In, elem_of_seqZ in Hin.
    exists i. split; [lia | by apply slotOwned_spec].
  - intros (i & Hin & Hi). exists i. split.
    + apply list_elem_of_In, elem_of_seqZ. lia.
    + by apply slotOwned_spec.
Qed.

(** C6. [updateConfig] fails with [E_BAD_STATE] whenever the room is not
    WAITING; in a WAITING room it fails with [E_STATIONS_IN_USE] whenever some
    slot in [newCount+1..oldCount] is claimed; and reducing [stationsCount] to
    exactly the highest claimed index succeeds, sets the new count and
    duration and keeps every slot up to the new count and all bindings.  A
    failing call leaves the room as it was. *)
Theorem updateConfig_guards (count dur : Z) (r : Room) :
  (state r ≠ WAITING → updateConfig count dur r = (r, inl E_BAD_STATE))
  ∧ (state r = WAITING → (∃ i, count < i ≤ stationsCount r ∧ claimed r i) →
     updateConfig count dur r = (r, inl E_STATIONS_IN_USE))
  ∧ (state r = WAITING → highestClaimed r count →
     let r' := exec (updateConfig count dur) r in
     (updateConfig count dur r).2 = inr tt
     ∧ stationsCount r' = count
     ∧ roundDurationSec r' = dur
     ∧ state r' = WAITING
     ∧ bindings r' = bindings r
     ∧ (∀ i, i ≤ count → is_Some (stations r !! i) → stations r' !! i = stations r !! i)
     ∧ (∀ i, count < i ≤ 200 → stations r' !! i = None)).
Proof.
  split; [|split].
  - intros Hs. unfold updateConfig. run.
    rewrite bool_decide_eq_false_2 by done. reflexivity.
  - intros Hs Hex. unfold updateConfig. run.
    rewrite bool_decide_eq_true_2 by done. simpl.
    apply updateConfig_in_use_iff in Hex. rewrite Hex. reflexivity.
  - intros Hs [Hc Hhi]. unfold updateConfig. run.
    rewrite bool_decide_eq_true_2 by done. simpl.
    destruct (existsb _ _) eqn:Hex.
    { apply updateConfig_in_use_iff in Hex. destruct Hex as (i & Hi & Hcl).
      exfalso. exact (Hhi i Hi Hcl). }
    simpl. repeat split; try done.
    + intros i Hi [s Hs']. rewrite lookup_foldl_fill, lookup_foldl_delete.
      rewrite bool_decide_eq_false_2 by (rewrite elem_of_seqZ; lia).
      by rewrite Hs'.
    + intros i Hi. rewrite lookup_foldl_fill, lookup_foldl_delete.
      rewrite bool_decide_eq_true_2 by (rewrite elem_of_seqZ; lia).
      rewrite bool_decide_eq_false_2 by (rewrite elem_of_seqZ; lia).
      reflexivity.
Qed.

Lemma updateConfig_guards_witness :
  updateConfig 1 60 readyRoom2 = (readyRoom2, inl E_STATIONS_IN_USE)
  ∧ (updateConfig 2 60 readyRoom2).2 = inr tt
  ∧ updateConfig 1 60 (started 0 readyRoom2) = (started 0 readyRoom2, inl E_BAD_STATE).
Proof.
  split; [|split].
  - apply (updateConfig_guards 1 60 readyRoom2); [reflexivity |].
    exists 2. split; [split; [lia | vm_compute; discriminate] |].
    apply slotOwned_spec. reflexivity.
  - apply (updateConfig_guards 2 60 readyRoom2); [reflexivity |]. split.
    + apply slotOwned_spec. reflexivity.
    + intros i Hi. change (stationsCount readyRoom2) with 2 in Hi. lia.
  - apply (updateConfig_guards 1 60 (started 0 readyRoom2)). discriminate.
Defined.

(** ** C4: pause and resume *)

Lemma stopRound_running (now : Z) (r : Room) :
  state r = RUNNING →
  stopRound now r
  = (set_timeLeft (Some (remaining (roundDurationSec r) now (default now (startedAt r))))
       (set_interval None (set_state ENDED r)), inr tt).
Proof.
  intros Hs. unfold stopRound. run.
  rewrite bool_decide_eq_true_2 by done. reflexivity.
Qed.

Lemma resumeRound_ended (now tl : Z) (r : Room) :
  state r = ENDED → timeLeft r = Some tl → 0 < tl →
  resumeRound now r
  = (set_warned60 (tl <=? 60)
       (set_warned30 (tl <=? 30)
          (set_startedAt (Some (now - (roundDurationSec r - tl) * 1000))
             (set_state RUNNING r))), inr tt).
Proof.
  intros Hs Htl Hpos. unfold resumeRound. run.
  rewrite bool_decide_eq_true_2 by done. rewrite Htl. simpl.
  destruct (tl <=? 0) eqn:Hle; [lia |]. reflexivity.
Qed.

Lemma resumeRound_no_time (now : Z) (r : Room) :
  default 0 (timeLeft r) ≤ 0 → resumeRound now r = (r, inl E_BAD_STATE).
Proof.
  intros Hle. unfold resumeRound. run.
  destruct (bool_decide (state r = ENDED)); simpl; [|reflexivity].
  destruct (default 0 (timeLeft r) <=? 0) eqn:H; [reflexivity | lia].
Qed.



(** A pause after the time ran out freezes [timeLeft = 0]; the resume is then
    refused and the room stays as the pause left it. *)
Lemma resume_after_timeout (now now' : Z) (r : Room) :
  state r = RUNNING →
  remaining (roundDurationSec r) now (default now (startedAt r)) = 0 →
  resumeRound now' (exec (stopRound now) r) = (exec (stopRound now) r, inl E_BAD_STATE).
Proof.
  intros Hs H0. apply resumeRound_no_time. unfold exec.
  rewrite (stopRound_running now r Hs). simpl. lia.
Qed.

(** ** C8: reset *)

Lemma tailCompact_lookup_Some (r : Room) (i : Z) (s : StationSlot) :
  stations (tailCompactIfWaiting r) !! i = Some s → stations r !! i = Some s.
Proof.
  unfold tailCompactIfWaiting.
  destruct (negb (bool_decide (state r = WAITING))); [done |].
  match goal with |- context [if ?c <? _ then _ else _] => destruct (c <? stationsCount r) end;
    [|done].
  simpl. rewrite lookup_foldl_delete. by case_bool_decide.
Qed.

Lemma tailCompact_fields (r : Room) :
  let r' := tailCompactIfWaiting r in
  state r' = state r ∧ bindings r' = bindings r ∧ interval r' = interval r
  ∧ timeLeft r' = timeLeft r ∧ startedAt r' = startedAt r
  ∧ warned30 r' = warned30 r ∧ warned60 r' = warned60 r
  ∧ pendingCompaction r' = pendingCompaction r
  ∧ roundDurationSec r' = roundDurationSec r
  ∧ code r' = code r ∧ centralClientId r' = centralClientId r.
Proof.
  unfold tailCompactIfWaiting.
  destruct (negb (bool_decide (state r = WAITING))); [done |].
  match goal with |- context [if ?c <? _ then _ else _] => destruct (c <? stationsCount r) end;
    done.
Qed.

Lemma resetToWaiting_unfold (r : Room) :
  resetToWaiting r
  = if pendingCompaction r
    then set_pendingCompaction false (tailCompactIfWaiting (roundCleared r))
    else roundCleared r.
Proof.
  unfold resetToWaiting, maybeApplyPendingCompaction. fold (roundCleared r).
  simpl. by destruct (pendingCompaction r).
Qed.

Lemma resetToWaiting_fixed (y : Room) :
  state y = WAITING → startedAt y = None → timeLeft y = None →
  warned30 y = false → warned60 y = false → pendingCompaction y = false →
  (∀ i s, stations y !! i = Some s → ready s = false) →
  resetToWaiting y = y.
Proof.
  intros Hs Hsa Htl H30 H60 Hp Hr. rewrite resetToWaiting_unfold, Hp.
  assert (Hst : set_ready false <$> stations y = stations y).
  { apply map_eq. intros i. rewrite lookup_fmap.
    destruct (stations y !! i) as [s|] eqn:Hi; [|done]. simpl.
    specialize (Hr i s Hi). destruct s. simpl in *. by subst. }
  unfold roundCleared. rewrite Hst. destruct y. simpl in *. by subst.
Qed.

Lemma set_pendingCompaction_fields (b : bool) (x : Room) :
  state (set_pendingCompaction b x) = state x
  ∧ startedAt (set_pendingCompaction b x) = startedAt x
  ∧ timeLeft (set_pendingCompaction b x) = timeLeft x
  ∧ warned30 (set_pendingCompaction b x) = warned30 x
  ∧ warned60 (set_pendingCompaction b x) = warned60 x
  ∧ interval (set_pendingCompaction b x) = interval x
  ∧ roundDurationSec (set_pendingCompaction b x) = roundDurationSec x
  ∧ bindings (set_pendingCompaction b x) = bindings x
  ∧ pendingCompaction (set_pendingCompaction b x) = b
  ∧ centralClientId (set_pendingCompaction b x) = centralClientId x
  ∧ stations (set_pendingCompaction b x) = stations x
  ∧ stationsCount (set_pendingCompaction b x) = stationsCount x.
Proof. repeat split. Qed.

Lemma roundCleared_fields (r : Room) :
  state (roundCleared r) = WAITING
  ∧ startedAt (roundCleared r) = None ∧ timeLeft (roundCleared r) = None
  ∧ warned30 (roundCleared r) = false ∧ warned60 (roundCleared r) = false
  ∧ interval (roundCleared r) = interval r
  ∧ roundDurationSec (roundCleared r) = roundDurationSec r
  ∧ bindings (roundCleared r) = bindings r
  ∧ pendingCompaction (roundCleared r) = pendingCompaction r
  ∧ centralClientId (roundCleared r) = centralClientId r
  ∧ stations (roundCleared r) = set_ready false <$> stations r
  ∧ stationsCount (roundCleared r) = stationsCount r.
Proof. repeat split. Qed.

Lemma resetToWaiting_fields (r : Room) :
  state (resetToWaiting r) = WAITING
  ∧ startedAt (resetToWaiting r) = None ∧ timeLeft (resetToWaiting r) = None
  ∧ warned30 (resetToWaiting r) = false ∧ warned60 (resetToWaiting r) = false
  ∧ interval (resetToWaiting r) = interval r
  ∧ roundDurationSec (resetToWaiting r) = roundDurationSec r
  ∧ bindings (resetToWaiting r) = bindings r
  ∧ pendingCompaction (resetToWaiting r) = false
  ∧ centralClientId (resetToWaiting r) = centralClientId r.
Proof.
  rewrite resetToWaiting_unfold.
  destruct (roundCleared_fields r)
    as (R1 & R2 & R3 & R4 & R5 & R6 & R7 & R8 & R9 & R10 & _).
  destruct (pendingCompaction r) eqn:Hp.
  - destruct (tailCompact_fields (roundCleared r))
      as (H1 & H2 & H3 & H4 & H5 & H6 & H7 & H8 & H9 & H10 & H11).
    destruct (set_pendingCompaction_fields false (tailCompactIfWaiting (roundCleared r)))
      as (-> & -> & -> & -> & -> & -> & -> & -> & -> & -> & _).
    rewrite H1, H2, H3, H4, H5, H6, H7, H9, H11.
    rewrite R1, R2, R3, R4, R5, R6, R7, R8, R10. repeat split.
  - rewrite R1, R2, R3, R4, R5, R6, R7, R8, R9, R10. repeat split.
Qed.

Lemma resetToWaiting_ready (r : Room) (i : Z) (s : StationSlot) :
  stations (resetToWaiting r) !! i = Some s → ready s = false.
Proof.
  rewrite resetToWaiting_unfold.
  assert (Hc : ∀ x, stations (roundCleared r) !! i = Some x → ready x = false).
  { intros x. destruct (roundCleared_fields r)
      as (_ & _ & _ & _ & _ & _ & _ & _ & _ & _ & -> & _).
    rewrite lookup_fmap. destruct (stations r !! i); simpl; [|done]. by intros [= <-]. }
  destruct (pendingCompaction r); [|apply Hc].
  destruct (set_pendingCompaction_fields false (tailCompactIfWaiting (roundCleared r)))
    as (_ & _ & _ & _ & _ & _ & _ & _ & _ & _ & -> & _).
  intros H%tailCompact_lookup_Some. by apply Hc.
Qed.

(** C8.  [resetToWaiting] has no guard on the state: from any room it leaves
    a WAITING room in which every slot has [ready = false], [startedAt] and
    [timeLeft] are cleared and both warning latches are cleared; a pending
    compaction is applied (the tail compaction of the cleared room) and is no
    longer pending; calling it again changes nothing.  It leaves the timer
    handle as it is: the round timer is cancelled by the caller before the
    call.  The [central:resetRoom] handler does so ([clearInterval], then
    [resetToWaiting]): the reset of a room as a whole always succeeds, leaves
    no timer armed, and changes nothing when repeated. *)
Theorem reset_to_waiting (r : Room) :
  let r' := resetToWaiting r in
  let h := exec (central_resetRoom (centralClientId r)) r in
  state r' = WAITING
  ∧ (∀ i s, stations r' !! i = Some s → ready s = false)
  ∧ startedAt r' = None ∧ timeLeft r' = None
  ∧ warned30 r' = false ∧ warned60 r' = false
  ∧ pendingCompaction r' = false
  ∧ (stations r', stationsCount r') =
      (if pendingCompaction r
       then (stations (tailCompactIfWaiting (roundCleared r)),
             stationsCount (tailCompactIfWaiting (roundCleared r)))
       else (set_ready false <$> stations r, stationsCount r))
  ∧ interval r' = interval r
  ∧ resetToWaiting r' = r'
  ∧ (central_resetRoom (centralClientId r) r).2 = inr tt
  ∧ h = resetToWaiting (set_interval None r)
  ∧ interval h = None
  ∧ exec (central_resetRoom (centralClientId r)) h = h.
Proof.
  assert (Hrun : ∀ x, central_resetRoom (centralClientId x) x
                      = (resetToWaiting (set_interval None x), inr tt)).
  { intros x. unfold central_resetRoom, requireCentral. run.
    rewrite String.eqb_refl. reflexivity. }
  assert (Hidem : ∀ x, resetToWaiting (resetToWaiting x) = resetToWaiting x).
  { intros x.
    destruct (resetToWaiting_fields x) as (F1 & F2 & F3 & F4 & F5 & _ & _ & _ & F9 & _).
    apply resetToWaiting_fixed; try done. apply resetToWaiting_ready. }
  intros r' h. subst r' h. unfold exec. rewrite Hrun. cbn [fst snd].
  destruct (resetToWaiting_fields r) as (F1 & F2 & F3 & F4 & F5 & F6 & _ & _ & F9 & _).
  split; [exact F1 |]. split; [apply resetToWaiting_ready |].
  split; [exact F2 |]. split; [exact F3 |]. split; [exact F4 |]. split; [exact F5 |].
  split; [exact F9 |]. split.
  { rewrite resetToWaiting_unfold. destruct (pendingCompaction r).
    - by destruct (set_pendingCompaction_fields false (tailCompactIfWaiting (roundCleared r)))
        as (_ & _ & _ & _ & _ & _ & _ & _ & _ & _ & -> & ->).
    - by destruct (roundCleared_fields r)
        as (_ & _ & _ & _ & _ & _ & _ & _ & _ & _ & -> & ->). }
  split; [exact F6 |]. split; [apply Hidem |].
  split; [reflexivity |]. split; [reflexivity |].
  destruct (resetToWaiting_fields (set_interval None r))
    as (_ & _ & _ & _ & _ & G6 & _ & _ & _ & G10).
  split; [exact G6 |].
  assert (Hc : centralClientId r = centralClientId (resetToWaiting (set_interval None r)))
    by (by rewrite G10).
  rewrite Hc, Hrun. cbn [fst].
  assert (Hsi : set_interval None (resetToWaiting (set_interval None r))
                = resetToWaiting (set_interval None r)).
  { revert G6. generalize (resetToWaiting (set_interval None r)).
    intros [] G. cbn in *. by subst. }
  rewrite Hsi. apply Hidem.
Qed.

(** C8, as first stated, fails for [resetToWaiting] alone: on the served room,
    RUNNING with its timer armed, the timer handle is still there after the
    call. *)
Lemma resetToWaiting_keeps_timer :
  state served = RUNNING ∧ interval served = Some 4%nat
  ∧ interval (resetToWaiting served) = Some 4%nat
  ∧ interval (resetToWaiting served) ≠ None.
Proof. vm_compute. repeat split; discriminate. Qed.

(** [resetToWaiting] itself never touches the timer handle: each caller
    cancels the timer before the call (the reset handler above, [tick] on
    time-up, [immediateEnd] on skip). *)
Lemma resetToWaiting_interval (r : Room) :
  interval (resetToWaiting r) = interval r.
Proof.
  rewrite resetToWaiting_unfold. destruct (pendingCompaction r); [|done]. simpl.
  by destruct (tailCompact_fields (roundCleared r)) as (_ & _ & -> & _).
Qed.

(** ** C9: compacting a room of blank slots, then starting *)

Lemma tailScan_blank (st : gmap Z StationSlot) (n : nat) :
  (∀ i s, st !! i = Some s →
          truthy_str (ownerClientId s) = false ∧ ready s = false ∧ connected s = false) →
  tailScan st n = O.
Proof.
  intros Hb. induction n as [|k IH]; [done |].
  cbn [tailScan]. destruct (st !! Z.of_nat (S k)) as [s|] eqn:Hs; [|exact IH].
  destruct (Hb _ _ Hs) as (-> & -> & ->). simpl. exact IH.
Qed.

(** C9. If tail compaction runs on a WAITING room whose slots (the keys
    [1..stationsCount]) are all unclaimed, not ready and not connected,
    [stationsCount] becomes 0 and the stations map becomes empty; in that
    room [allClaimedAndReady] holds (its loop is empty), and [startRound]
    succeeds and moves the room to RUNNING with no stations. *)
Theorem tailCompact_blank_then_start (now : Z) (r : Room) :
  state r = WAITING →
  0 ≤ stationsCount r →
  (∀ i, is_Some (stations r !! i) → 1 ≤ i ≤ stationsCount r) →
  (∀ i s, stations r !! i = Some s →
          truthy_str (ownerClientId s) = false ∧ ready s = false ∧ connected s = false) →
  let r' := tailCompactIfWaiting r in
  stationsCount r' = 0
  ∧ stations r' = ∅
  ∧ state r' = WAITING
  ∧ allClaimedAndReady r' = true
  ∧ startRound now r' = (started now r', inr tt)
  ∧ state (exec (startRound now) r') = RUNNING
  ∧ stationsCount (exec (startRound now) r') = 0
  ∧ stations (exec (startRound now) r') = ∅.
Proof.
  intros Hs Hn Hkeys Hblank r'.
  assert (Hc : stationsCount r' = 0 ∧ stations r' = ∅ ∧ state r' = WAITING).
  { subst r'. unfold tailCompactIfWaiting.
    rewrite bool_decide_eq_true_2 by done. simpl.
    rewrite (tailScan_blank _ _ Hblank).
    destruct (0 <? stationsCount r) eqn:Hpos.
    - change (Z.of_nat 0) with 0. rewrite Hpos. simpl. split; [done |]. split; [|done].
      apply map_eq. intros i. rewrite lookup_foldl_delete, lookup_empty.
      case_bool_decide as Hin; [done |].
      destruct (stations r !! i) eqn:Hi; [|done].
      exfalso. apply Hin, elem_of_seqZ.
      assert (1 ≤ i ≤ stationsCount r) by (apply Hkeys; eauto). lia.
    - assert (stationsCount r = 0) as H0 by lia.
      rewrite Z.ltb_irrefl. split; [done |]. split; [|done].
      apply map_eq. intros i. rewrite lookup_empty.
      destruct (stations r !! i) eqn:Hi; [|done].
      assert (1 ≤ i ≤ stationsCount r) by (apply Hkeys; eauto). lia. }
  destruct Hc as (Hc0 & Hce & Hcs).
  assert (Hall : allClaimedAndReady r' = true).
  { unfold allClaimedAndReady. rewrite Hc0. reflexivity. }
  assert (Hst : startRound now r' = (started now r', inr tt)).
  { by apply startRound_ready. }
  unfold exec. rewrite Hst. simpl. done.
Qed.

Lemma tailCompact_blank_then_start_witness :
  stationsCount (tailCompactIfWaiting room2) = 0
  ∧ state (exec (startRound 7) (tailCompactIfWaiting room2)) = RUNNING.
Proof.
  assert (Hk : ∀ i, is_Some (stations room2 !! i) → 1 ≤ i ≤ stationsCount room2).
  { intros i [s Hs]. change (stations room2) with (makeStations 2) in Hs.
    rewrite lookup_makeStations in Hs. case_bool_decide; [done | discriminate]. }
  assert (Hb : ∀ i s, stations room2 !! i = Some s →
            truthy_str (ownerClientId s) = false ∧ ready s = false ∧ connected s = false).
  { intros i s Hs. change (stations room2) with (makeStations 2) in Hs.
    rewrite lookup_makeStations in Hs. case_bool_decide; [|discriminate].
    by injection Hs as <-. }
  pose proof (tailCompact_blank_then_start 7 room2 eq_refl ltac:(done) Hk Hb) as H.
  split; apply H.
Defined.

(** * Claiming a station *)

(** ** C10: claiming one's own slot again *)



(** * The invariants and the operations that keep them *)

Lemma keysContiguous_lookup (r : Room) :
  keysContiguous r ↔ ∀ i, is_Some (stations r !! i) ↔ 1 ≤ i ≤ stationsCount r.
Proof.
  unfold keysContiguous. split.
  - intros H i. rewrite <- elem_of_dom, H, elem_of_list_to_set, elem_of_seqZ. lia.
  - intros H. apply set_eq. intros i.
    rewrite elem_of_dom, H, elem_of_list_to_set, elem_of_seqZ. lia.
Qed.

(** The invariants only read the stations, the bindings and the count. *)
Lemma room_inv_ext (r r' : Room) :
  stations r' = stations r → bindings r' = bindings r →
  stationsCount r' = stationsCount r →
  room_inv r → room_inv r'.
Proof.
  unfold room_inv, keysContiguous, bindingsMatchOwners, ownersNonEmpty.
  intros -> -> ->. done.
Qed.

Lemma createRoom_inv (fresh_code centralId : string) (count dur : Z) :
  room_inv (createRoom fresh_code centralId count dur).
Proof.
  split; [|split].
  - apply keysContiguous_lookup. intros i. simpl. rewrite lookup_makeStations.
    case_bool_decide as Hi; split; intros H'; try done.
  - intros c s. simpl. rewrite lookup_empty, lookup_makeStations. split; [done |].
    intros (slot & H1 & H2). case_bool_decide; [|done].
    injection H1 as <-. done.
  - intros i slot. simpl. rewrite lookup_makeStations.
    case_bool_decide; [|done]. by intros [= <-].
Qed.

(** The clock operations keep the invariants: they do not touch the
    stations, the bindings or the count. *)
Lemma startRound_inv (now : Z) (r : Room) :
  room_inv r → room_inv (exec (startRound now) r).
Proof.
  intros H. unfold exec, startRound. run.
  destruct (negb (bool_decide (state r = WAITING))); [done |].
  destruct (negb (allClaimedAndReady r)); [done |]. simpl.
  revert H. by apply room_inv_ext.
Qed.

Lemma stopRound_inv (now : Z) (r : Room) :
  room_inv r → room_inv (exec (stopRound now) r).
Proof.
  intros H. unfold exec, stopRound. run.
  destruct (negb (bool_decide (state r = RUNNING))); [done |]. simpl.
  revert H. by apply room_inv_ext.
Qed.

Lemma resumeRound_inv (now : Z) (r : Room) :
  room_inv r → room_inv (exec (resumeRound now) r).
Proof.
  intros H. unfold exec, resumeRound. run.
  destruct (negb (bool_decide (state r = ENDED))); [done |].
  destruct (default 0 (timeLeft r) <=? 0); [done |]. simpl.
  revert H. by apply room_inv_ext.
Qed.

Lemma tick_frame (now : Z) (r : Room) :
  stations (tick now r).1 = stations r
  ∧ bindings (tick now r).1 = bindings r
  ∧ stationsCount (tick now r).1 = stationsCount r
  ∧ roundDurationSec (tick now r).1 = roundDurationSec r
  ∧ startedAt (tick now r).1 = startedAt r
  ∧ pendingCompaction (tick now r).1 = pendingCompaction r.
Proof.
  unfold exec, tick. run.
  destruct (startedAt r) as [sa|] eqn:Hsa; [|by rewrite ?Hsa].
  destruct (negb (bool_decide (state r = RUNNING))); [by rewrite ?Hsa |]. simpl.
  repeat match goal with |- context [if ?b then _ else _] => destruct b; simpl end;
    by rewrite ?Hsa.
Qed.

Lemma tick_inv (now : Z) (r : Room) :
  room_inv r → room_inv (exec (tick now) r).
Proof.
  intros H. destruct (tick_frame now r) as (H1 & H2 & H3 & _).
  revert H. by apply room_inv_ext.
Qed.

(** ** [claimStation] *)

Lemma keysContiguous_range (r : Room) (i : Z) :
  keysContiguous r → (is_Some (stations r !! i) ↔ 1 ≤ i ≤ stationsCount r).
Proof. intros H. by apply keysContiguous_lookup. Qed.

Lemma claimStation_success (c : string) (sid : Z) (s : StationSlot) (r : Room) :
  1 ≤ sid ≤ stationsCount r →
  stations r !! sid = Some s →
  truthy_str (ownerClientId s) = false ∨ ownerClientId s = Some c →
  claimStation c sid r = (afterClaim c sid r, inr tt).
Proof.
  intros Hr Hs Ho. unfold claimStation. run.
  destruct (sid <? 1) eqn:H1; [lia |].
  destruct (stationsCount r <? sid) eqn:H2; [lia |]. simpl. rewrite Hs.
  assert (Hg : truthy_str (ownerClientId s) && str_neq (ownerClientId s) (Some c) = false).
  { destruct Ho as [->| ->]; [done |]. unfold str_neq.
    rewrite bool_decide_eq_true_2 by done. apply andb_false_r. }
  rewrite Hg. unfold afterClaim, priorReleased.
  destruct (bindings r !! c) as [p|]; simpl; [|done].
  by destruct (negb (p =? 0) && negb (bool_decide (Some p = Some sid))).
Qed.

Lemma claimStation_taken (c o : string) (sid : Z) (s : StationSlot) (r : Room) :
  1 ≤ sid ≤ stationsCount r →
  stations r !! sid = Some s →
  ownerClientId s = Some o → o ≠ "" → o ≠ c →
  claimStation c sid r = (r, inl E_STATION_TAKEN).
Proof.
  intros Hr Hs Ho Hne Hoc. unfold claimStation. run.
  destruct (sid <? 1) eqn:H1; [lia |].
  destruct (stationsCount r <? sid) eqn:H2; [lia |]. simpl. rewrite Hs, Ho.
  rewrite (truthy_str_Some o Hne). unfold str_neq.
  rewrite bool_decide_eq_false_2 by congruence. reflexivity.
Qed.

(** Whatever [claimStation] answers, the room is either untouched or the
    room of a successful claim of a free or own slot. *)
Lemma claimStation_cases (c : string) (sid : Z) (r : Room) :
  (exec (claimStation c sid) r = r ∧ ∃ e, (claimStation c sid r).2 = inl e)
  ∨ (∃ s, 1 ≤ sid ≤ stationsCount r ∧ stations r !! sid = Some s
          ∧ (truthy_str (ownerClientId s) = false ∨ ownerClientId s = Some c)
          ∧ claimStation c sid r = (afterClaim c sid r, inr tt)).
Proof.
  destruct (decide (1 ≤ sid ≤ stationsCount r)) as [Hr|Hr].
  - destruct (stations r !! sid) as [s|] eqn:Hs.
    + destruct (truthy_str (ownerClientId s)) eqn:Ht.
      * apply truthy_str_spec in Ht as (o & Ho & Hne).
        destruct (decide (o = c)) as [->|Hoc].
        -- right. exists s. split; [lia |]. split; [done |]. split; [by right |].
           apply (claimStation_success c sid s); auto.
        -- left. unfold exec. rewrite (claimStation_taken c o sid s r) by done.
           split; [done | by eexists].
      * right. exists s. split; [lia |]. split; [done |]. split; [by left |].
        apply (claimStation_success c sid s); auto.
    + left. unfold exec, claimStation. run.
      destruct (sid <? 1) eqn:H1; [lia |].
      destruct (stationsCount r <? sid) eqn:H2; [lia |]. simpl. rewrite Hs.
      split; [done | by eexists].
  - left. unfold exec, claimStation. run.
    assert ((sid <? 1) || (stationsCount r <? sid) = true) as ->.
    { apply orb_true_iff. destruct (Z.ltb_spec sid 1); [by left |].
      right. apply Z.ltb_lt. lia. }
    split; [done | by eexists].
Qed.

Lemma lookup_priorReleased (c : string) (sid i : Z) (r : Room) :
  room_inv r →
  priorReleased c sid r !! i
  = match bindings r !! c with
    | Some p => if bool_decide (i = p ∧ p ≠ sid) then clearSlot <$> stations r !! i
                else stations r !! i
    | None => stations r !! i
    end.
Proof.
  intros (Hk & Hb & Ho). unfold priorReleased.
  destruct (bindings r !! c) as [p|] eqn:Hp; [|done].
  assert (p ≠ 0) as Hp0.
  { apply Hb in Hp as (slot & Hslot & _).
    apply mk_is_Some, (keysContiguous_range r p Hk) in Hslot. lia. }
  destruct (p =? 0) eqn:E; [lia |]. simpl.
  destruct (decide (p = sid)) as [->|Hne].
  - rewrite bool_decide_eq_true_2 by done. simpl.
    rewrite bool_decide_eq_false_2; [done | tauto].
  - rewrite bool_decide_eq_false_2 by congruence. simpl.
    destruct (decide (i = p)) as [->|Hip].
    + rewrite bool_decide_eq_true_2 by done. apply lookup_alter_eq.
    + rewrite bool_decide_eq_false_2 by tauto. by apply lookup_alter_ne.
Qed.

Lemma afterClaim_inv (c : string) (sid : Z) (s : StationSlot) (r : Room) :
  c ≠ "" → room_inv r →
  stations r !! sid = Some s →
  truthy_str (ownerClientId s) = false ∨ ownerClientId s = Some c →
  room_inv (afterClaim c sid r).
Proof.
  intros Hc Hinv Hs Hfree. pose proof Hinv as (Hk & Hb & Ho).
  assert (Hlk : ∀ i, stations (afterClaim c sid r) !! i
                = if bool_decide (i = sid) then Some (claimSlot c s)
                  else priorReleased c sid r !! i).
  { intros i. simpl. case_bool_decide as Hi.
    - subst i. rewrite lookup_alter_eq, lookup_priorReleased by done.
      destruct (bindings r !! c) as [p|]; [|by rewrite Hs].
      rewrite bool_decide_eq_false_2 by (intros [-> ?]; done). by rewrite Hs.
    - by rewrite lookup_alter_ne. }
  split; [|split].
  - apply keysContiguous_lookup. intros i.
    rewrite <- (keysContiguous_range r i Hk), Hlk.
    case_bool_decide as Hi; [subst i; rewrite Hs; split; eauto |].
    rewrite lookup_priorReleased by done.
    destruct (bindings r !! c) as [p|]; [|done].
    case_bool_decide; [|done]. by rewrite fmap_is_Some.
  - intros c' s'. rewrite Hlk. simpl.
    destruct (decide (c' = c)) as [->|Hcc].
    + rewrite lookup_insert_eq. split.
      * intros [= <-]. rewrite bool_decide_eq_true_2 by done. eauto.
      * intros (slot & Hslot & Hown). case_bool_decide as Hi; [by subst |].
        exfalso. rewrite lookup_priorReleased in Hslot by done.
        destruct (bindings r !! c) as [p|] eqn:Hp.
        -- case_bool_decide as Hip.
           ++ destruct (stations r !! s'); simpl in Hslot; [|done].
              injection Hslot as <-. done.
           ++ assert (bindings r !! c = Some s') as Hp' by (apply Hb; eauto).
              rewrite Hp in Hp'. injection Hp' as ->.
              apply Hip. split; done.
        -- assert (bindings r !! c = Some s') as Hp' by (apply Hb; eauto).
           congruence.
    + rewrite lookup_insert_ne by done. split.
      * intros Hb'. apply Hb in Hb' as (slot & Hslot & Hown).
        exists slot. split; [|done].
        case_bool_decide as Hi.
        { exfalso. subst s'. rewrite Hs in Hslot. injection Hslot as <-.
          destruct Hfree as [Hf|Hf]; [|congruence].
          rewrite Hown in Hf. simpl in Hf.
          apply negb_false_iff, String.eqb_eq in Hf. subst c'.
          by apply (Ho sid s). }
        rewrite lookup_priorReleased by done.
        destruct (bindings r !! c) as [p|] eqn:Hp; [|done].
        case_bool_decide as Hip; [|done]. exfalso.
        destruct Hip as [-> _].
        apply Hb in Hp as (slot' & Hslot' & Hown'). congruence.
      * intros (slot & Hslot & Hown). apply Hb.
        case_bool_decide as Hi.
        { injection Hslot as <-. simpl in Hown. congruence. }
        rewrite lookup_priorReleased in Hslot by done.
        destruct (bindings r !! c) as [p|] eqn:Hp; [|eauto].
        case_bool_decide as Hip; [|eauto]. exfalso.
        destruct (stations r !! s'); simpl in Hslot; [|done].
        injection Hslot as <-. done.
  - intros i slot. rewrite Hlk. case_bool_decide as Hi.
    + intros [= <-]. simpl. congruence.
    + rewrite lookup_priorReleased by done.
      destruct (bindings r !! c) as [p|]; [|apply Ho].
      case_bool_decide; [|apply Ho].
      destruct (stations r !! i); simpl; [|done]. by intros [= <-].
Qed.

Lemma claimStation_inv (c : string) (sid : Z) (r : Room) :
  c ≠ "" → room_inv r → room_inv (exec (claimStation c sid) r).
Proof.
  intros Hc Hinv.
  destruct (claimStation_cases c sid r) as [[-> _]|(s & Hr & Hs & Hfree & Hrun)];
    [done |].
  unfold exec. rewrite Hrun. simpl. by apply (afterClaim_inv c sid s).
Qed.

Lemma setReady_inv (c : string) (rdy : bool) (r : Room) :
  room_inv r → room_inv (exec (setReady c rdy) r).
Proof.
  intros Hinv. unfold exec, setReady. run.
  destruct (bindings r !! c) as [s|]; simpl; [|done].
  destruct (negb (s =? 0)); simpl; [|done].
  destruct (stations r !! s) as [slot|] eqn:Hs; simpl; [|done].
  destruct Hinv as (Hk & Hb & Ho).
  assert (Hlk : ∀ i, alter (set_ready rdy) s (stations r) !! i
                     = set_ready rdy <$> stations r !! i
                     ∨ alter (set_ready rdy) s (stations r) !! i = stations r !! i).
  { intros i. destruct (decide (i = s)) as [->|Hne].
    - left. apply lookup_alter_eq.
    - right. by apply lookup_alter_ne. }
  split; [|split].
  - apply keysContiguous_lookup. intros i. simpl.
    rewrite <- (keysContiguous_range r i Hk).
    destruct (Hlk i) as [-> | ->]; [by rewrite fmap_is_Some | done].
  - intros c' s'. simpl. rewrite (Hb c' s').
    destruct (Hlk s') as [-> | ->]; [|done].
    destruct (stations r !! s') as [x|]; simpl.
    + split; intros (slot' & [= <-] & H); eauto.
    + split; intros (slot' & [=] & _).
  - intros i x. simpl. destruct (Hlk i) as [-> | ->]; [|apply Ho].
    destruct (stations r !! i) as [y|] eqn:Hy; simpl; [|done].
    intros [= <-]. simpl. by apply (Ho i y).
Qed.

(** ** C7: a claim releases the slot held before

    [claimStation] does what the sentence says; the [station:join] handler,
    which is the claim of the running server, records the new claim without
    releasing the old slot. *)

(** [claimStation]: a client bound to another slot gives that slot up
    (owner, ready and connected cleared), the new slot and the binding are
    set, and the client owns no other slot afterwards. *)
Lemma claimStation_releases_prior
    (c : string) (p sid : Z) (sp s : StationSlot) (r : Room) :
  c ≠ "" → room_inv r →
  bindings r !! c = Some p → p ≠ sid → stations r !! p = Some sp →
  1 ≤ sid ≤ stationsCount r → stations r !! sid = Some s →
  truthy_str (ownerClientId s) = false →
  let r' := exec (claimStation c sid) r in
  (claimStation c sid r).2 = inr tt
  ∧ stations r' !! p = Some (clearSlot sp)
  ∧ stations r' !! sid = Some (claimSlot c s)
  ∧ bindings r' !! c = Some sid
  ∧ (∀ i slot, stations r' !! i = Some slot → ownerClientId slot = Some c → i = sid)
  ∧ room_inv r'.
Proof.
  intros Hc Hinv Hb Hne Hsp Hr Hs Hfree r'. subst r'. unfold exec.
  rewrite (claimStation_success c sid s r Hr Hs (or_introl Hfree)). simpl.
  pose proof (afterClaim_inv c sid s r Hc Hinv Hs (or_introl Hfree)) as Hinv'.
  assert (Hbc : bindings (afterClaim c sid r) !! c = Some sid)
    by (simpl; apply lookup_insert_eq).
  split; [done |]. split; [|split; [|split; [exact Hbc | split; [|exact Hinv']]]].
  - rewrite lookup_alter_ne by done. rewrite lookup_priorReleased, Hb by done.
    rewrite bool_decide_eq_true_2 by done. by rewrite Hsp.
  - rewrite lookup_alter_eq, lookup_priorReleased, Hb by done.
    rewrite bool_decide_eq_false_2 by (intros [-> ?]; done). by rewrite Hs.
  - intros i slot Hi Ho. destruct Hinv' as (_ & Hb' & _).
    assert (bindings (afterClaim c sid r) !! c = Some i) as Hbi by (apply Hb'; eauto).
    congruence.
Qed.

Lemma claimStation_releases_prior_example :
  let r := exec (claimStation "a" 1) room2 in
  let r' := exec (claimStation "a" 2) r in
  slotView r' 1 = Some (None, false, false)
  ∧ slotView r' 2 = Some (Some "a", false, true)
  ∧ bindings r' !! "a" = Some 2.
Proof. vm_compute. done. Qed.

(** C7. The same claim through the [station:join] handler: client a holds
    station 1 of a two-station room and joins station 2.  The handler answers
    ok and moves the binding, but station 1 keeps a as its owner (still
    connected): the client now owns two stations.  A join on a station owned
    by another client is refused with [E_STATION_TAKEN] and leaves the room as
    it was. *)
Theorem station_join_keeps_prior_slot :
  let r' := exec (station_join "a" (Some 2) 0 0%nat) room2a in
  slotView room2a 1 = Some (Some "a", false, true)
  ∧ bindings room2a !! "a" = Some 1
  ∧ (station_join "a" (Some 2) 0 0%nat room2a).2 = inr tt
  ∧ slotView r' 1 = Some (Some "a", false, true)
  ∧ slotView r' 2 = Some (Some "a", false, true)
  ∧ bindings r' !! "a" = Some 2
  ∧ station_join "b" (Some 1) 0 0%nat room2a = (room2a, inl E_STATION_TAKEN).
Proof. vm_compute. done. Qed.

(** * The tick engine *)

Lemma tick_idle (now : Z) (r : Room) :
  state r ≠ RUNNING ∨ startedAt r = None → tick now r = (r, inr []).
Proof.
  intros H. unfold tick. run. destruct (startedAt r) as [sa|]; [|done].
  destruct H as [H|H]; [|done]. by rewrite bool_decide_eq_false_2.
Qed.

Lemma tick_running (now sa : Z) (r : Room) :
  state r = RUNNING → startedAt r = Some sa →
  let tl := remaining (roundDurationSec r) now sa in
  tick now r
  = (ticked now sa r,
     inr (firedList (negb (warned60 r) && (60 <=? roundDurationSec r) && (tl =? 60))
                    (negb (warned30 r) && (tl =? 30) && (30 <? roundDurationSec r))
                    (tl =? 0))).
Proof.
  intros Hs Hsa tl. unfold tick, ticked, firedList. run. rewrite Hsa, Hs. simpl.
  fold tl. destruct r as [? ? st ? dur ? ? ? ? sa' w30 w60 ?]. simpl in *. subst.
  destruct w60, w30, (60 <=? dur), (30 <? dur), (tl =? 60), (tl =? 30), (tl =? 0);
    reflexivity.
Qed.

Lemma firedList_60 (b60 b30 bup : bool) :
  (OnWarn60 ∈ firedList b60 b30 bup ↔ b60 = true)
  ∧ timesFired OnWarn60 (firedList b60 b30 bup) = (if b60 then 1 else 0)%nat.
Proof.
  assert (H : timesFired OnWarn60 (firedList b60 b30 bup) = (if b60 then 1 else 0)%nat)
    by (destruct b60, b30, bup; reflexivity).
  split; [|exact H].
  unfold timesFired in H.
  rewrite list_elem_of_In, (count_occ_In Callback_eq_dec), H.
  destruct b60; split; (done || lia).
Qed.

Lemma firedList_30 (b60 b30 bup : bool) :
  (OnWarn30 ∈ firedList b60 b30 bup ↔ b30 = true)
  ∧ timesFired OnWarn30 (firedList b60 b30 bup) = (if b30 then 1 else 0)%nat.
Proof.
  assert (H : timesFired OnWarn30 (firedList b60 b30 bup) = (if b30 then 1 else 0)%nat)
    by (destruct b60, b30, bup; reflexivity).
  split; [|exact H].
  unfold timesFired in H.
  rewrite list_elem_of_In, (count_occ_In Callback_eq_dec), H.
  destruct b30; split; (done || lia).
Qed.

(** What a single tick fires. *)
Lemma tick_fires60 (now : Z) (r : Room) :
  OnWarn60 ∈ fired (tick now r)
  ↔ warned60 r = false ∧ 60 ≤ roundDurationSec r ∧ observes 60 now r.
Proof.
  unfold observes.
  destruct (decide (state r = RUNNING)) as [Hs|Hs];
    [destruct (startedAt r) as [sa|] eqn:Hsa|].
  - rewrite (tick_running now sa r Hs Hsa). unfold fired. simpl.
    set (tl := remaining (roundDurationSec r) now sa).
    rewrite (proj1 (firedList_60 _ _ _)), !andb_true_iff, negb_true_iff,
      Z.leb_le, Z.eqb_eq.
    split.
    + intros [[? ?] ?]. repeat split; try done. by exists sa.
    + intros (? & ? & _ & sa' & [= <-] & ?). done.
  - rewrite tick_idle by (by right). unfold fired. simpl. split.
    + by intros H%elem_of_nil.
    + intros (_ & _ & _ & sa & [=] & _).
  - rewrite tick_idle by (by left). unfold fired. simpl. split.
    + by intros H%elem_of_nil.
    + intros (_ & _ & ? & _). done.
Qed.

Lemma tick_fires30 (now : Z) (r : Room) :
  OnWarn30 ∈ fired (tick now r)
  ↔ warned30 r = false ∧ 30 < roundDurationSec r ∧ observes 30 now r.
Proof.
  unfold observes.
  destruct (decide (state r = RUNNING)) as [Hs|Hs];
    [destruct (startedAt r) as [sa|] eqn:Hsa|].
  - rewrite (tick_running now sa r Hs Hsa). unfold fired. simpl.
    set (tl := remaining (roundDurationSec r) now sa).
    rewrite (proj1 (firedList_30 _ _ _)), !andb_true_iff, negb_true_iff,
      Z.ltb_lt, Z.eqb_eq.
    split.
    + intros [[? ?] ?]. repeat split; try done. by exists sa.
    + intros (? & ? & _ & sa' & [= <-] & ?). done.
  - rewrite tick_idle by (by right). unfold fired. simpl. split.
    + by intros H%elem_of_nil.
    + intros (_ & _ & _ & sa & [=] & _).
  - rewrite tick_idle by (by left). unfold fired. simpl. split.
    + by intros H%elem_of_nil.
    + intros (_ & _ & ? & _). done.
Qed.

(** The latch of a warning records exactly whether it fired. *)
Lemma tick_latch60 (now : Z) (r : Room) :
  timesFired OnWarn60 (fired (tick now r))
  = (if warned60 r then 0 else if warned60 (tick now r).1 then 1 else 0)%nat
  ∧ (warned60 r = true → warned60 (tick now r).1 = true).
Proof.
  destruct (decide (state r = RUNNING)) as [Hs|Hs];
    [destruct (startedAt r) as [sa|] eqn:Hsa|].
  - rewrite (tick_running now sa r Hs Hsa). unfold fired. simpl.
    rewrite (proj2 (firedList_60 _ _ _)).
    destruct (warned60 r); simpl; [done |]. split; [|done].
    by destruct (_ && _).
  - rewrite tick_idle by (by right). unfold fired. simpl.
    by destruct (warned60 r).
  - rewrite tick_idle by (by left). unfold fired. simpl.
    by destruct (warned60 r).
Qed.

Lemma tick_latch30 (now : Z) (r : Room) :
  timesFired OnWarn30 (fired (tick now r))
  = (if warned30 r then 0 else if warned30 (tick now r).1 then 1 else 0)%nat
  ∧ (warned30 r = true → warned30 (tick now r).1 = true).
Proof.
  destruct (decide (state r = RUNNING)) as [Hs|Hs];
    [destruct (startedAt r) as [sa|] eqn:Hsa|].
  - rewrite (tick_running now sa r Hs Hsa). unfold fired. simpl.
    rewrite (proj2 (firedList_30 _ _ _)).
    destruct (warned30 r); simpl; [done |]. split; [|done].
    by destruct (_ && _).
  - rewrite tick_idle by (by right). unfold fired. simpl.
    by destruct (warned30 r).
  - rewrite tick_idle by (by left). unfold fired. simpl.
    by destruct (warned30 r).
Qed.

Lemma timesFired_app (c : Callback) (l1 l2 : list Callback) :
  timesFired c (l1 ++ l2) = (timesFired c l1 + timesFired c l2)%nat.
Proof. apply count_occ_app. Qed.

Lemma runTicks_latch60 (nows : list Z) (r : Room) :
  timesFired OnWarn60 (runTicks nows r).2
  = (if warned60 r then 0 else if warned60 (runTicks nows r).1 then 1 else 0)%nat
  ∧ (warned60 r = true → warned60 (runTicks nows r).1 = true).
Proof.
  revert r. induction nows as [|now rest IH]; intros r; simpl.
  - by destruct (warned60 r).
  - destruct (tick_latch60 now r) as [Hc Hm].
    destruct (IH (tick now r).1) as [Hc' Hm'].
    rewrite timesFired_app, Hc, Hc'.
    destruct (warned60 r); simpl.
    + rewrite (Hm eq_refl) in *. auto.
    + split; [|done]. destruct (warned60 (tick now r).1); simpl; [|done].
      by rewrite (Hm' eq_refl).
Qed.

Lemma runTicks_latch30 (nows : list Z) (r : Room) :
  timesFired OnWarn30 (runTicks nows r).2
  = (if warned30 r then 0 else if warned30 (runTicks nows r).1 then 1 else 0)%nat
  ∧ (warned30 r = true → warned30 (runTicks nows r).1 = true).
Proof.
  revert r. induction nows as [|now rest IH]; intros r; simpl.
  - by destruct (warned30 r).
  - destruct (tick_latch30 now r) as [Hc Hm].
    destruct (IH (tick now r).1) as [Hc' Hm'].
    rewrite timesFired_app, Hc, Hc'.
    destruct (warned30 r); simpl.
    + rewrite (Hm eq_refl) in *. auto.
    + split; [|done]. destruct (warned30 (tick now r).1); simpl; [|done].
      by rewrite (Hm' eq_refl).
Qed.

Lemma runTicks_app (pre post : list Z) (r : Room) :
  runTicks (pre ++ post) r
  = ((runTicks post (runTicks pre r).1).1,
     ((runTicks pre r).2 ++ (runTicks post (runTicks pre r).1).2)%list).
Proof.
  revert r. induction pre as [|now pre IH]; intros r; simpl.
  - by destruct (runTicks post r).
  - rewrite IH. simpl. by rewrite app_assoc.
Qed.

Lemma runTicks_duration (nows : list Z) (r : Room) :
  roundDurationSec (runTicks nows r).1 = roundDurationSec r.
Proof.
  revert r. induction nows as [|now rest IH]; intros r; simpl; [done |].
  rewrite IH. by destruct (tick_frame now r) as (_ & _ & _ & -> & _).
Qed.

(** A warning never fires in a run in which no tick observes its threshold,
    and in particular in a round that is too short for it. *)
Lemma runTicks_unobserved60 (nows : list Z) (r : Room) :
  (∀ pre now post, nows = (pre ++ now :: post)%list →
                   ¬ (60 ≤ roundDurationSec r ∧ observes 60 now (runTicks pre r).1)) →
  timesFired OnWarn60 (runTicks nows r).2 = 0%nat.
Proof.
  revert r. induction nows as [|now rest IH]; intros r Hno; simpl; [done |].
  rewrite timesFired_app, IH.
  - rewrite Nat.add_0_r.
    destruct (decide (OnWarn60 ∈ fired (tick now r))) as [Hin|Hnin].
    + exfalso. apply tick_fires60 in Hin as (_ & Hd & Hobs).
      apply (Hno [] now rest eq_refl). done.
    + rewrite list_elem_of_In in Hnin. by apply count_occ_not_In.
  - intros pre now' post -> H. apply (Hno (now :: pre) now' post eq_refl).
    simpl. by destruct (tick_frame now r) as (_ & _ & _ & <- & _).
Qed.

Lemma runTicks_unobserved30 (nows : list Z) (r : Room) :
  (∀ pre now post, nows = (pre ++ now :: post)%list →
                   ¬ (30 < roundDurationSec r ∧ observes 30 now (runTicks pre r).1)) →
  timesFired OnWarn30 (runTicks nows r).2 = 0%nat.
Proof.
  revert r. induction nows as [|now rest IH]; intros r Hno; simpl; [done |].
  rewrite timesFired_app, IH.
  - rewrite Nat.add_0_r.
    destruct (decide (OnWarn30 ∈ fired (tick now r))) as [Hin|Hnin].
    + exfalso. apply tick_fires30 in Hin as (_ & Hd & Hobs).
      apply (Hno [] now rest eq_refl). done.
    + rewrite list_elem_of_In in Hnin. by apply count_occ_not_In.
  - intros pre now' post -> H. apply (Hno (now :: pre) now' post eq_refl).
    simpl. by destruct (tick_frame now r) as (_ & _ & _ & <- & _).
Qed.

(** A tick that observes the threshold leaves the latch set. *)
Lemma observed_latch60 (now : Z) (r : Room) :
  60 ≤ roundDurationSec r → observes 60 now r → warned60 (tick now r).1 = true.
Proof.
  intros Hd (Hs & sa & Hsa & Htl). rewrite (tick_running now sa r Hs Hsa). simpl.
  rewrite Htl. simpl. destruct (Z.leb_spec 60 (roundDurationSec r)); [|lia].
  apply orb_true_r.
Qed.

Lemma observed_latch30 (now : Z) (r : Room) :
  30 < roundDurationSec r → observes 30 now r → warned30 (tick now r).1 = true.
Proof.
  intros Hd (Hs & sa & Hsa & Htl). rewrite (tick_running now sa r Hs Hsa). simpl.
  rewrite Htl. simpl. destruct (Z.ltb_spec 30 (roundDurationSec r)); [|lia].
  apply orb_true_r.
Qed.

(** ** C3: the warnings are one-shot *)

(** C3 (as the code has it).  Over any sequence of ticks of a room, each
    warning callback fires at most once.  The warn-60 callback fires only at
    a tick of a running round that computes [timeLeft = 60], with
    [roundDurationSec ≥ 60] and its latch clear; the warn-30 callback only at
    a tick that computes [timeLeft = 30], with [roundDurationSec > 30] and its
    latch clear.  With [roundDurationSec ≤ 30] no warning fires, whatever the
    ticks.  Started with its latch clear, a warning fires exactly once when
    some tick of the sequence observes its threshold, and never when no tick
    does (the ticks recompute [timeLeft] from the clock, so a delayed tick can
    step over the threshold). *)
Theorem warnings_one_shot (nows : list Z) (r : Room) :
  let cbs := (runTicks nows r).2 in
  (timesFired OnWarn60 cbs ≤ 1 ∧ timesFired OnWarn30 cbs ≤ 1)%nat
  ∧ (∀ now r0, OnWarn60 ∈ fired (tick now r0) →
       state r0 = RUNNING ∧ warned60 r0 = false
       ∧ timeLeft (tick now r0).1 = Some 60 ∧ 60 ≤ roundDurationSec r0)
  ∧ (∀ now r0, OnWarn30 ∈ fired (tick now r0) →
       state r0 = RUNNING ∧ warned30 r0 = false
       ∧ timeLeft (tick now r0).1 = Some 30 ∧ 30 < roundDurationSec r0)
  ∧ (roundDurationSec r ≤ 30 →
     timesFired OnWarn60 cbs = 0%nat ∧ timesFired OnWarn30 cbs = 0%nat)
  ∧ (warned60 r = false → 60 ≤ roundDurationSec r →
     (∃ pre now post, nows = (pre ++ now :: post)%list
                      ∧ observes 60 now (runTicks pre r).1) →
     timesFired OnWarn60 cbs = 1%nat)
  ∧ (warned30 r = false → 30 < roundDurationSec r →
     (∃ pre now post, nows = (pre ++ now :: post)%list
                      ∧ observes 30 now (runTicks pre r).1) →
     timesFired OnWarn30 cbs = 1%nat)
  ∧ ((∀ pre now post, nows = (pre ++ now :: post)%list →
                      ¬ observes 60 now (runTicks pre r).1) →
     timesFired OnWarn60 cbs = 0%nat)
  ∧ ((∀ pre now post, nows = (pre ++ now :: post)%list →
                      ¬ observes 30 now (runTicks pre r).1) →
     timesFired OnWarn30 cbs = 0%nat).
Proof.
  intros cbs. subst cbs.
  destruct (runTicks_latch60 nows r) as [H60 _].
  destruct (runTicks_latch30 nows r) as [H30 _].
  split; [|split; [|split; [|split; [|split; [|split; [|split]]]]]].
  - rewrite H60, H30. split.
    + destruct (warned60 r); [lia |]. destruct (warned60 _); lia.
    + destruct (warned30 r); [lia |]. destruct (warned30 _); lia.
  - intros now r0 Hin. apply tick_fires60 in Hin as (Hw & Hd & Hs & sa & Hsa & Htl).
    repeat split; try done. rewrite (tick_running now sa r0 Hs Hsa). simpl.
    by rewrite Htl.
  - intros now r0 Hin. apply tick_fires30 in Hin as (Hw & Hd & Hs & sa & Hsa & Htl).
    repeat split; try done. rewrite (tick_running now sa r0 Hs Hsa). simpl.
    by rewrite Htl.
  - intros Hd. split.
    + apply runTicks_unobserved60. intros pre now post _ [? _]. lia.
    + apply runTicks_unobserved30. intros pre now post _ [? _]. lia.
  - intros Hw Hd (pre & now & post & -> & Hobs).
    rewrite H60, Hw. rewrite runTicks_app. simpl.
    assert (warned60 (tick now (runTicks pre r).1).1 = true) as Hl.
    { apply observed_latch60; [by rewrite runTicks_duration | done]. }
    apply (proj2 (runTicks_latch60 post _)) in Hl. by rewrite Hl.
  - intros Hw Hd (pre & now & post & -> & Hobs).
    rewrite H30, Hw. rewrite runTicks_app. simpl.
    assert (warned30 (tick now (runTicks pre r).1).1 = true) as Hl.
    { apply observed_latch30; [by rewrite runTicks_duration | done]. }
    apply (proj2 (runTicks_latch30 post _)) in Hl. by rewrite Hl.
  - intros Hno. apply runTicks_unobserved60. intros pre now post E [_ H].
    by apply (Hno pre now post).
  - intros Hno. apply runTicks_unobserved30. intros pre now post E [_ H].
    by apply (Hno pre now post).
Qed.

Lemma warnings_one_shot_witness :
  timesFired OnWarn60 (runTicks [1000; 5000; 6000; 35000; 36000; 65000] round65).2 = 1%nat
  ∧ timesFired OnWarn30 (runTicks [1000; 5000; 6000; 35000; 36000; 65000] round65).2 = 1%nat.
Proof.
  pose proof (warnings_one_shot [1000; 5000; 6000; 35000; 36000; 65000] round65)
    as (_ & _ & _ & _ & H60 & H30 & _).
  split.
  - apply H60; [reflexivity | vm_compute; discriminate |].
    exists [1000], 5000, [6000; 35000; 36000; 65000].
    split; [reflexivity |]. split; [reflexivity |]. exists 0. split; reflexivity.
  - apply H30; [reflexivity | vm_compute; reflexivity |].
    exists [1000; 5000; 6000], 35000, [36000; 65000].
    split; [reflexivity |]. split; [reflexivity |]. exists 0. split; reflexivity.
Defined.

(** The sentence as written ("fires exactly once") fails on a round of 65
    seconds whose ticks come at 4 s, 6 s, 34 s, 36 s and 65 s: [timeLeft] goes
    61, 59, 31, 29, 0, no tick sees 60 or 30, and the round ends with the
    time-up callback alone. *)
Lemma warnings_not_exactly_once :
  state round65 = RUNNING
  ∧ roundDurationSec round65 = 65
  ∧ warned60 round65 = false ∧ warned30 round65 = false
  ∧ (runTicks [4000; 6000; 34000; 36000; 65000] round65).2 = [OnTimeUp]
  ∧ timesFired OnWarn60 (runTicks [4000; 6000; 34000; 36000; 65000] round65).2 ≠ 1%nat
  ∧ timesFired OnWarn30 (runTicks [4000; 6000; 34000; 36000; 65000] round65).2 ≠ 1%nat.
Proof. vm_compute. repeat split; discriminate. Qed.

(** The two examples of the specification: a round of 35 seconds warns once
    at 5 s and not again at 6 s; a round of 20 seconds never warns. *)
Example warn30_one_shot_35 :
  let r := set_timeLeft (Some 35) (set_roundDurationSec 35 round65) in
  (runTicks [5000; 6000] r).2 = [OnWarn30].
Proof. vm_compute. reflexivity. Qed.

(** * The compaction engine *)

(** ** The shifting loop of [renumberCompactIfWaiting] *)

Lemma renumberStep_out (st : gmap Z StationSlot) (bd : gmap string Z)
    (out : list Remap) (i : Z) :
  (renumberStep (st, bd, out) i).1.1 = <[i := shifted st i]> st
  ∧ (renumberStep (st, bd, out) i).2 = (out ++ from_option (λ x, [x]) [] (remapAt st i))%list
  ∧ (renumberStep (st, bd, out) i).1.2
    = match remapAt st i with
      | Some m => if bool_decide (bd !! clientId m = Some (i + 1))
                  then <[clientId m := i]> bd else bd
      | None => bd
      end.
Proof.
  unfold renumberStep, remapAt, shifted.
  destruct (st !! (i + 1)) as [s|]; simpl.
  - destruct (ownerClientId s) as [c|]; simpl.
    + destruct (negb (c =? "")%string); simpl; [done |]. by rewrite app_nil_r.
    + by rewrite app_nil_r.
  - by rewrite app_nil_r.
Qed.

Lemma occupies_spec (st : gmap Z StationSlot) (c : string) (i : Z) :
  occupies st c i = true
  ↔ ∃ s, st !! i = Some s ∧ ownerClientId s = Some c ∧ c ≠ "".
Proof.
  unfold occupies. destruct (st !! i) as [s|]; [|split; [done | by intros (? & ? & _)]].
  rewrite andb_true_iff, bool_decide_eq_true, truthy_str_spec. split.
  - intros [(c' & Hc' & Hne) Hc]. exists s. rewrite Hc in Hc'. injection Hc' as <-. done.
  - intros (s' & [= <-] & Hc & Hne). eauto.
Qed.

Lemma remapAt_occupies (st : gmap Z StationSlot) (i : Z) (c : string) :
  remapAt st i = (if occupies st c (i + 1) then Some (mkRemap c (i + 1) i) else remapAt st i)
  ∧ (∀ m, remapAt st i = Some m → clientId m = c → occupies st c (i + 1) = true).
Proof.
  unfold remapAt, occupies. destruct (st !! (i + 1)) as [s|]; [|done].
  destruct (ownerClientId s) as [c'|]; [|done].
  destruct (truthy_str (Some c')) eqn:Ht; simpl; [|done]. split.
  - case_bool_decide as Hc; [|done]. by injection Hc as ->.
  - intros m [= <-] Hc. simpl in Hc. subst c'. by rewrite bool_decide_eq_true_2.
Qed.

Lemma renumber_fold (k : Z) (st : gmap Z StationSlot) (bd : gmap string Z) (n : nat) :
  let F := foldl renumberStep (st, bd, []) (seqZ k (Z.of_nat n)) in
  (∀ j, F.1.1 !! j = if bool_decide (k ≤ j < k + Z.of_nat n) then Some (shifted st j) else st !! j)
  ∧ (∀ c, F.1.2 !! c = movedBinding st k (k + Z.of_nat n) c (bd !! c))
  ∧ F.2 = omap (remapAt st) (seqZ k (Z.of_nat n)).
Proof.
  induction n as [|n IH]; intros F.
  - subst F. simpl. split; [|split]; try done.
    + intros j. rewrite bool_decide_eq_false_2; [done | lia].
    + intros c. unfold movedBinding. destruct (bd !! c) as [i|]; [|done].
      rewrite bool_decide_eq_false_2; [done | lia].
  - simpl in IH. destruct IH as (IHst & IHb & IHout).
    subst F. rewrite seqZ_S, foldl_snoc.
    destruct (foldl renumberStep (st, bd, []) (seqZ k (Z.of_nat n))) as [[st' bd'] out'] eqn:HF.
    simpl in IHst, IHb, IHout.
    destruct (renumberStep_out st' bd' out' (k + Z.of_nat n)) as (Est & Eout & Ebd).
    assert (Hsrc : st' !! (k + Z.of_nat n + 1) = st !! (k + Z.of_nat n + 1)).
    { rewrite IHst. rewrite bool_decide_eq_false_2; [done | lia]. }
    assert (Hsh : shifted st' (k + Z.of_nat n) = shifted st (k + Z.of_nat n)).
    { unfold shifted. by rewrite Hsrc. }
    assert (Hrm : remapAt st' (k + Z.of_nat n) = remapAt st (k + Z.of_nat n)).
    { unfold remapAt. by rewrite Hsrc. }
    rewrite Hsh in Est. rewrite Hrm in Eout, Ebd.
    split; [|split].
    + intros j. rewrite Est. destruct (decide (j = k + Z.of_nat n)) as [->|Hne].
      * rewrite lookup_insert_eq. rewrite bool_decide_eq_true_2; [done | lia].
      * rewrite lookup_insert_ne by done. rewrite IHst.
        destruct (decide (k ≤ j < k + Z.of_nat n)).
        -- rewrite !bool_decide_eq_true_2; [done | lia | done].
        -- rewrite !bool_decide_eq_false_2; [done | lia | done].
    + intros c. rewrite Ebd.
      destruct (remapAt_occupies st (k + Z.of_nat n) c) as [Hocc Hcl].
      specialize (IHb c). unfold movedBinding in *.
      assert (Hstep : (match remapAt st (k + Z.of_nat n) with
                       | Some m => if bool_decide (bd' !! clientId m = Some (k + Z.of_nat n + 1))
                                   then <[clientId m := k + Z.of_nat n]> bd' else bd'
                       | None => bd'
                       end) !! c
                      = if occupies st c (k + Z.of_nat n + 1)
                           && bool_decide (bd' !! c = Some (k + Z.of_nat n + 1))
                        then Some (k + Z.of_nat n) else bd' !! c).
      { destruct (occupies st c (k + Z.of_nat n + 1)) eqn:Ho.
        - rewrite Hocc. cbn [clientId andb]. case_bool_decide; [apply lookup_insert_eq | done].
        - cbn [andb]. destruct (remapAt st (k + Z.of_nat n)) as [m|] eqn:Hm; [|done].
          case_bool_decide; [|done].
          destruct (decide (clientId m = c)) as [Hmc|Hmc]; [|by rewrite lookup_insert_ne].
          discriminate (Hcl m eq_refl Hmc). }
      rewrite Hstep, IHb. clear Hstep Hocc Hcl IHb.
      destruct (bd !! c) as [i|]; [|by rewrite andb_false_r].
      destruct (decide (i = k + Z.of_nat n + 1)) as [->|Hi].
      * rewrite (bool_decide_eq_false_2 (k < k + Z.of_nat n + 1 ≤ k + Z.of_nat n)) by lia.
        rewrite (bool_decide_eq_true_2 (k < k + Z.of_nat n + 1 ≤ k + Z.of_nat (S n))) by lia.
        cbn [andb]. rewrite bool_decide_eq_true_2 by done. rewrite andb_true_r.
        destruct (occupies st c (k + Z.of_nat n + 1)); [f_equal; lia | done].
      * destruct (decide (k < i ≤ k + Z.of_nat n)) as [Hin|Hout].
        -- rewrite !(bool_decide_eq_true_2 (k < i ≤ _)) by lia. cbn [andb].
           destruct (occupies st c i).
           ++ rewrite (bool_decide_eq_false_2 (Some (i - 1) = _)); [|intros [=]; lia].
              by rewrite andb_false_r.
           ++ rewrite (bool_decide_eq_false_2 (Some i = _)) by congruence.
              by rewrite andb_false_r.
        -- rewrite !(bool_decide_eq_false_2 (k < i ≤ _)) by lia. cbn [andb].
           rewrite (bool_decide_eq_false_2 (Some i = _)) by congruence.
           by rewrite andb_false_r.
    + rewrite Eout, IHout, omap_app. simpl.
      by destruct (remapAt st (k + Z.of_nat n)).
Qed.

(** ** C5: renumber compaction *)

(** C5. In a WAITING room with the keys [1..stationsCount] where the slot
    [k + 1] is owned by the client [X] and [X] is bound to it, renumber
    compaction of the slot [k ≥ 1] moves the owner, ready and connected state
    of every slot [k+1..stationsCount] one position down, sets the binding of
    [X] to [k] and the binding of every shifted occupant that is bound to its
    slot to the new position, reports the remap [(clientId, oldId, newId)] of
    every shifted occupant in increasing order of position, deletes the top
    slot and decrements [stationsCount] by exactly 1.  No other binding is
    altered: a binding that changes is that of a shifted occupant bound to
    its slot. *)
Theorem renumberCompact_shift (k : Z) (X : string) (sx : StationSlot) (r : Room) :
  state r = WAITING → keysContiguous r → 1 ≤ k →
  stations r !! (k + 1) = Some sx → ownerClientId sx = Some X → X ≠ "" →
  bindings r !! X = Some (k + 1) →
  let r' := (renumberCompactIfWaiting k r).1 in
  let out := (renumberCompactIfWaiting k r).2 in
  stationsCount r' = stationsCount r - 1
  ∧ (∀ i, k ≤ i < stationsCount r →
          ∃ s, stations r !! (i + 1) = Some s
               ∧ stations r' !! i
                 = Some (mkSlot i (ownerClientId s) (ready s) (connected s)))
  ∧ (∀ i, i < k → stations r' !! i = stations r !! i)
  ∧ stations r' !! stationsCount r = None
  ∧ keysContiguous r'
  ∧ bindings r' !! X = Some k
  ∧ (∀ c i s, k < i ≤ stationsCount r → stations r !! i = Some s →
              ownerClientId s = Some c → c ≠ "" → bindings r !! c = Some i →
              bindings r' !! c = Some (i - 1))
  ∧ (∀ c, bindings r' !! c ≠ bindings r !! c →
          ∃ i s, k < i ≤ stationsCount r ∧ stations r !! i = Some s
                 ∧ ownerClientId s = Some c ∧ bindings r !! c = Some i)
  ∧ out = omap (remapAt (stations r)) (seqZ k (stationsCount r - k))
  ∧ (∀ c i s, k < i ≤ stationsCount r → stations r !! i = Some s →
              ownerClientId s = Some c → c ≠ "" → mkRemap c i (i - 1) ∈ out)
  ∧ mkRemap X (k + 1) k ∈ out.
Proof.
  intros Hs Hkeys Hk Hsx HX HXe HbX r' out.
  assert (Hcount : k + 1 ≤ stationsCount r).
  { apply mk_is_Some, (keysContiguous_range r (k + 1) Hkeys) in Hsx. lia. }
  set (st0 := alter clearSlot k (stations r)).
  set (n := Z.to_nat (stationsCount r - k)).
  assert (Hn : Z.of_nat n = stationsCount r - k) by (subst n; lia).
  assert (Hst0 : ∀ j, k < j → st0 !! j = stations r !! j).
  { intros j Hj. subst st0. apply lookup_alter_ne. lia. }
  assert (Hocc : ∀ c j, k < j → occupies st0 c j = occupies (stations r) c j).
  { intros c j Hj. unfold occupies. by rewrite Hst0. }
  pose proof (renumber_fold k st0 (bindings r) n) as HF. simpl in HF.
  rewrite Hn in HF. replace (k + (stationsCount r - k)) with (stationsCount r) in HF by lia.
  assert (Hrun : renumberCompactIfWaiting k r
                 = (let F := foldl renumberStep (st0, bindings r, [])
                                   (seqZ k (stationsCount r - k)) in
                    (set_stationsCount (Z.max 0 (stationsCount r - 1))
                       (set_bindings F.1.2
                          (set_stations (delete (stationsCount r) F.1.1) r)),
                     F.2))).
  { unfold renumberCompactIfWaiting. rewrite bool_decide_eq_true_2 by done. simpl.
    destruct (k <? 1) eqn:E1; [lia |].
    destruct (stationsCount r <? k) eqn:E2; [lia |]. simpl. fold st0.
    by destruct (foldl renumberStep _ _) as [[? ?] ?]. }
  subst r' out. rewrite Hrun. clear Hrun. simpl.
  destruct (foldl renumberStep (st0, bindings r, []) (seqZ k (stationsCount r - k)))
    as [[st' bd'] out'] eqn:HFeq.
  simpl in *. destruct HF as (Fst & Fb & Fout).
  assert (Hrem : omap (remapAt st0) (seqZ k (stationsCount r - k))
                 = omap (remapAt (stations r)) (seqZ k (stationsCount r - k))).
  { apply list_omap_ext, Forall2_same_length_lookup. split; [done |].
    intros i x y Hx Hy. rewrite Hx in Hy. injection Hy as <-.
    apply lookup_seqZ in Hx as [-> _]. unfold remapAt. rewrite Hst0 by lia. done. }
  assert (Hsh : ∀ i, k ≤ i < stationsCount r →
                ∃ s, stations r !! (i + 1) = Some s
                     ∧ st' !! i = Some (mkSlot i (ownerClientId s) (ready s) (connected s))).
  { intros i Hi.
    destruct (proj2 (keysContiguous_range r (i + 1) Hkeys) ltac:(lia)) as [s Hsi].
    exists s. split; [done |]. rewrite Fst.
    rewrite bool_decide_eq_true_2 by lia. unfold shifted.
    rewrite Hst0 by lia. by rewrite Hsi. }
  assert (Hmoved : ∀ c i s, k < i ≤ stationsCount r → stations r !! i = Some s →
                     ownerClientId s = Some c → c ≠ "" → bindings r !! c = Some i →
                     bd' !! c = Some (i - 1)).
  { intros c i s Hi Hsi Hc Hce Hb. rewrite Fb, Hb. unfold movedBinding.
    rewrite bool_decide_eq_true_2 by lia. rewrite Hocc by lia.
    by rewrite (proj2 (occupies_spec (stations r) c i)) by eauto. }
  assert (Hreported : ∀ c i s, k < i ≤ stationsCount r → stations r !! i = Some s →
                        ownerClientId s = Some c → c ≠ "" →
                        mkRemap c i (i - 1)
                        ∈ omap (remapAt (stations r)) (seqZ k (stationsCount r - k))).
  { intros c i s Hi Hsi Hc Hce. apply list_elem_of_omap. exists (i - 1). split.
    - apply elem_of_seqZ. lia.
    - unfold remapAt. replace (i - 1 + 1) with i by lia. rewrite Hsi, Hc.
      by rewrite (truthy_str_Some c Hce). }
  split; [lia |].
  split; [|split; [|split; [|split; [|split; [|split; [|split; [|split; [|split]]]]]]]].
  - intros i Hi. destruct (Hsh i Hi) as (s & H1 & H2). exists s. split; [done |].
    by rewrite lookup_delete_ne by lia.
  - intros i Hi. rewrite lookup_delete_ne by lia. rewrite Fst.
    rewrite bool_decide_eq_false_2 by lia. subst st0. apply lookup_alter_ne. lia.
  - apply lookup_delete_eq.
  - apply keysContiguous_lookup. intros i. simpl.
    destruct (decide (i = stationsCount r)) as [->|Hne].
    { rewrite lookup_delete_eq. split; [by intros [? ?] | lia]. }
    rewrite lookup_delete_ne by done.
    destruct (decide (k ≤ i < stationsCount r)) as [Hi|Hi].
    + destruct (Hsh i Hi) as (s & _ & ->). split; [lia | eauto].
    + rewrite Fst. rewrite bool_decide_eq_false_2 by lia.
      assert (st0 !! i = stations r !! i) as ->.
      { subst st0. apply lookup_alter_ne. lia. }
      rewrite (keysContiguous_range r i Hkeys). lia.
  - rewrite (Hmoved X (k + 1) sx) by (done || lia). f_equal. lia.
  - exact Hmoved.
  - intros c Hne. rewrite Fb in Hne. unfold movedBinding in Hne.
    destruct (bindings r !! c) as [i|] eqn:Hb; [|done].
    destruct (decide (k < i ≤ stationsCount r)) as [Hi|Hi].
    2: { by rewrite bool_decide_eq_false_2 in Hne by done. }
    destruct (occupies st0 c i) eqn:Ho; [|by rewrite andb_false_r in Hne].
    rewrite Hocc in Ho by lia. apply occupies_spec in Ho as (s & Hsi & Hc & _).
    eauto 10.
  - by rewrite Fout.
  - rewrite Fout, Hrem. exact Hreported.
  - rewrite Fout, Hrem. replace k with (k + 1 - 1) at 2 by lia.
    apply (Hreported X (k + 1) sx); (done || lia).
Qed.

Lemma room3_inv : room_inv room3.
Proof.
  unfold room3. do 3 (apply claimStation_inv; [done |]). apply createRoom_inv.
Qed.

(** C5, as first stated, fails when [X] is not bound to the slot [k + 1]:
    in [room3aa] the client a owns the slots 2 and 3 and is bound to 3; after
    the renumber compaction of the slot 1 the binding of a is 2, not 1 (the
    loop moves a binding only when it points to the slot being moved). *)
Lemma renumberCompact_binding_not_updated :
  state room3aa = WAITING
  ∧ slotView room3aa 2 = Some (Some "a", false, true)
  ∧ bindings room3aa !! "a" = Some 3
  ∧ bindings (renumberCompactIfWaiting 1 room3aa).1 !! "a" = Some 2
  ∧ bindings (renumberCompactIfWaiting 1 room3aa).1 !! "a" ≠ Some 1.
Proof. vm_compute. repeat split; discriminate. Qed.

(** The room of the example below satisfies the hypotheses and not the
    room invariants: a is bound to the station 1, which b owns. *)
Example room3r_breaks_inv :
  ¬ room_inv room3r.
Proof.
  intros (_ & Hb & _). specialize (Hb "a" 1). 
  destruct (proj1 Hb) as (s & Hs & Ho); [vm_compute; reflexivity |].
  vm_compute in Hs. injection Hs as <-. discriminate.
Qed.

Lemma renumberCompact_shift_witness :
  bindings (renumberCompactIfWaiting 1 room3r).1 !! "c" = Some 1
  ∧ stationsCount (renumberCompactIfWaiting 1 room3r).1 = stationsCount room3r - 1
  ∧ mkRemap "c" 2 1 ∈ (renumberCompactIfWaiting 1 room3r).2.
Proof.
  assert (Hkeys : keysContiguous room3r) by (vm_compute; reflexivity).
  pose proof (renumberCompact_shift 1 "c" (mkSlot 2 (Some "c") false true) room3r
                eq_refl Hkeys ltac:(lia) eq_refl eq_refl ltac:(discriminate) eq_refl) as H.
  cbv zeta in H. destruct H as (H1 & _ & _ & _ & _ & H2 & _ & _ & _ & _ & H3).
  split; [exact H2 | split; [exact H1 | exact H3]].
Defined.

Example renumberCompact_room3 :
  let x := renumberCompactIfWaiting 1 room3 in
  x.2 = [mkRemap "b" 2 1; mkRemap "c" 3 2]
  ∧ slotView x.1 1 = Some (Some "b", false, true)
  ∧ slotView x.1 2 = Some (Some "c", false, true)
  ∧ slotView x.1 3 = None
  ∧ stationsCount x.1 = 2.
Proof. vm_compute. done. Qed.

(** ** Tail compaction keeps the invariants *)

Lemma tailScan_spec (st : gmap Z StationSlot) (n : nat) :
  (tailScan st n ≤ n)%nat
  ∧ ∀ i s, Z.of_nat (tailScan st n) < i ≤ Z.of_nat n → st !! i = Some s →
           truthy_str (ownerClientId s) = false ∧ ready s = false ∧ connected s = false.
Proof.
  induction n as [|n [IH1 IH2]].
  - simpl. split; [done |]. intros i s Hi. lia.
  - cbn [tailScan].
    destruct (st !! Z.of_nat (S n)) as [s0|] eqn:Hs0.
    + destruct (truthy_str (ownerClientId s0) || ready s0 || connected s0) eqn:Hb.
      * split; [done |]. intros i s Hi. lia.
      * split; [lia |]. intros i s Hi His.
        destruct (decide (i = Z.of_nat (S n))) as [->|Hne].
        -- rewrite Hs0 in His. injection His as <-.
           apply orb_false_iff in Hb as [Hb ?]. apply orb_false_iff in Hb as [? ?]. done.
        -- apply (IH2 i s); [lia | done].
    + split; [lia |]. intros i s Hi His.
      destruct (decide (i = Z.of_nat (S n))) as [->|Hne]; [congruence |].
      apply (IH2 i s); [lia | done].
Qed.

(** The compacted room: a new count [m ≤ stationsCount] above which every
    slot of the old room was blank, and the old slots up to [m]. *)
Lemma tailCompact_shape (r : Room) :
  ∃ m, stationsCount (tailCompactIfWaiting r) = m
       ∧ m ≤ stationsCount r
       ∧ (0 ≤ stationsCount r → 0 ≤ m)
       ∧ (∀ i, stations (tailCompactIfWaiting r) !! i
               = if bool_decide (m < i ≤ stationsCount r) then None else stations r !! i)
       ∧ (∀ i s, m < i ≤ stationsCount r → stations r !! i = Some s →
                 truthy_str (ownerClientId s) = false).
Proof.
  unfold tailCompactIfWaiting.
  destruct (negb (bool_decide (state r = WAITING))).
  { exists (stationsCount r). split; [done |]. split; [lia |]. split; [done |]. split.
    - intros i. rewrite bool_decide_eq_false_2; [done | lia].
    - intros i s Hi. lia. }
  destruct (0 <? stationsCount r) eqn:Hpos.
  - destruct (tailScan_spec (stations r) (Z.to_nat (stationsCount r))) as [H1 H2].
    set (m := Z.of_nat (tailScan (stations r) (Z.to_nat (stationsCount r)))) in *.
    destruct (m <? stationsCount r) eqn:Hlt.
    + exists m. simpl. split; [done |]. split; [lia |]. split; [lia |]. split.
      * intros i. rewrite lookup_foldl_delete.
        destruct (decide (m < i ≤ stationsCount r)).
        -- rewrite !bool_decide_eq_true_2; [done | done | apply elem_of_seqZ; lia].
        -- rewrite !bool_decide_eq_false_2; [done | done | rewrite elem_of_seqZ; lia].
      * intros i s Hi His. apply (H2 i s); [lia | done].
    + exists (stationsCount r). split; [done |]. split; [lia |]. split; [done |]. split.
      * intros i. rewrite bool_decide_eq_false_2; [done | lia].
      * intros i s Hi. lia.
  - rewrite Z.ltb_irrefl.
    exists (stationsCount r). split; [done |]. split; [lia |]. split; [done |]. split.
    + intros i. rewrite bool_decide_eq_false_2; [done | lia].
    + intros i s Hi. lia.
Qed.

Lemma tailCompact_inv (r : Room) :
  room_inv r → room_inv (tailCompactIfWaiting r).
Proof.
  intros (Hk & Hb & Ho).
  destruct (tailCompact_shape r) as (m & Hm & Hle & _ & Hlk & Hblank).
  destruct (tailCompact_fields r) as (_ & Hbd & _).
  split; [|split].
  - apply keysContiguous_lookup. intros i. rewrite Hlk, Hm.
    case_bool_decide as Hi.
    + split; [by intros [? ?] | lia].
    + rewrite (keysContiguous_range r i Hk). split; [|lia].
      intros Hr. destruct (decide (i ≤ m)); [lia |]. exfalso. apply Hi. lia.
  - intros c s. rewrite Hbd, (Hb c s), Hlk. case_bool_decide as Hi; [|done].
    split.
    + intros (slot & Hslot & Hown). exfalso.
      pose proof (Hblank s slot Hi Hslot) as Hf. rewrite Hown in Hf. simpl in Hf.
      apply negb_false_iff, String.eqb_eq in Hf. subst c. by apply (Ho s slot).
    + by intros (slot & ? & _).
  - intros i slot. rewrite Hlk. case_bool_decide; [done | apply Ho].
Qed.

(** Rewriting the slots without touching their owners keeps the invariants. *)
Lemma room_inv_fmap (f : StationSlot → StationSlot) (r : Room) :
  (∀ s, ownerClientId (f s) = ownerClientId s) →
  room_inv r → room_inv (set_stations (f <$> stations r) r).
Proof.
  intros Hf (Hk & Hb & Ho). split; [|split].
  - apply keysContiguous_lookup. intros i. simpl.
    rewrite lookup_fmap, fmap_is_Some. by apply keysContiguous_range.
  - intros c s. simpl. rewrite (Hb c s), lookup_fmap.
    destruct (stations r !! s) as [x|]; simpl.
    + split; intros (slot & [= <-] & H); eexists; (split; [done |]); by rewrite ?Hf in *.
    + split; by intros (slot & ? & _).
  - intros i slot. simpl. rewrite lookup_fmap.
    destruct (stations r !! i) as [x|] eqn:Hx; simpl; [|done].
    intros [= <-]. rewrite Hf. by apply (Ho i x).
Qed.

Lemma resetToWaiting_inv (r : Room) :
  room_inv r → room_inv (resetToWaiting r).
Proof.
  intros Hinv.
  assert (Hc : room_inv (roundCleared r)).
  { apply (room_inv_ext (set_stations (set_ready false <$> stations r) r)); try done.
    by apply room_inv_fmap. }
  rewrite resetToWaiting_unfold. destruct (pendingCompaction r); [|done].
  apply (room_inv_ext (tailCompactIfWaiting (roundCleared r))); try done.
  by apply tailCompact_inv.
Qed.

(** ** A station leaves *)

Lemma station_leave_inv (c : string) (r : Room) :
  room_inv r → room_inv (exec (station_leave c) r).
Proof.
  intros Hinv. pose proof Hinv as (Hk & Hb & Ho).
  unfold exec, station_leave. run.
  destruct (bindings r !! c) as [sid|] eqn:Hc; simpl; [|done].
  destruct (negb (sid =? 0)); simpl; [|done].
  set (r1 := set_bindings (delete c (bindings r))
               (set_stations (alter clearSlot sid (stations r)) r)).
  assert (Hinv1 : room_inv r1).
  { assert (Hlk : ∀ i, stations r1 !! i
                 = if bool_decide (i = sid) then clearSlot <$> stations r !! i
                   else stations r !! i).
    { intros i. simpl. case_bool_decide as Hi.
      - subst i. apply lookup_alter_eq.
      - by apply lookup_alter_ne. }
    split; [|split].
    - apply keysContiguous_lookup. intros i. rewrite Hlk.
      change (stationsCount r1) with (stationsCount r).
      rewrite <- (keysContiguous_range r i Hk).
      case_bool_decide; [by rewrite fmap_is_Some | done].
    - intros c' s'. rewrite Hlk. simpl.
      destruct (decide (c' = c)) as [->|Hcc].
      + rewrite lookup_delete_eq. split; [done |]. intros (slot & Hslot & Hown). exfalso.
        case_bool_decide as Hi.
        * destruct (stations r !! s'); simpl in Hslot; [|done].
          by injection Hslot as <-.
        * assert (bindings r !! c = Some s') as Hb' by (apply Hb; eauto). congruence.
      + rewrite lookup_delete_ne by done. rewrite (Hb c' s').
        case_bool_decide as Hi; [|done]. subst s'.
        apply Hb in Hc as (slot0 & Hslot0 & Hown0). rewrite Hslot0. simpl. split.
        * intros (slot & [= <-] & Hown). congruence.
        * intros (slot & [= <-] & Hown). done.
    - intros i slot. rewrite Hlk. case_bool_decide; [|apply Ho].
      destruct (stations r !! i); simpl; [|done]. by intros [= <-]. }
  fold r1. change (state r1) with (state r).
  destruct (bool_decide (state r = RUNNING)); simpl.
  - revert Hinv1. by apply room_inv_ext.
  - by apply tailCompact_inv.
Qed.

(** ** [updateConfig] keeps the invariants (the count never exceeds the 200
    of the payload schema) *)

Lemma updateConfig_inv (count dur : Z) (r : Room) :
  stationsCount r ≤ 200 →
  room_inv r → room_inv (exec (updateConfig count dur) r).
Proof.
  intros H200 Hinv. pose proof Hinv as (Hk & Hb & Ho).
  unfold exec, updateConfig. run.
  destruct (negb (bool_decide (state r = WAITING))); [done |].
  destruct (existsb _ _) eqn:Hex; [done |]. simpl.
  assert (Hfree : ∀ i, count < i ≤ stationsCount r → ¬ claimed r i).
  { intros i Hi Hcl.
    assert (existsb (slotOwned (stations r))
                    (seqZ (count + 1) (stationsCount r - count)) = true) as Ht.
    { apply updateConfig_in_use_iff. eauto. }
    congruence. }
  set (st' := foldl _ (foldl _ (stations r) _) _).
  assert (Hlk : ∀ i, st' !! i
                = if bool_decide (1 ≤ i ≤ count)
                  then Some (default (freshSlot i) (stations r !! i))
                  else None).
  { intros i. subst st'. rewrite lookup_foldl_fill, lookup_foldl_delete.
    destruct (decide (1 ≤ i ≤ count)) as [Hi|Hi].
    - rewrite (bool_decide_eq_false_2 (i ∈ seqZ (count + 1) (200 - count)))
        by (rewrite elem_of_seqZ; lia).
      rewrite !bool_decide_eq_true_2; [|done | apply elem_of_seqZ; lia].
      by destruct (stations r !! i).
    - rewrite (bool_decide_eq_false_2 (1 ≤ i ≤ count)) by done.
      rewrite (bool_decide_eq_false_2 (i ∈ seqZ 1 count)) by (rewrite elem_of_seqZ; lia).
      case_bool_decide as Hd; [done |].
      destruct (stations r !! i) as [s|] eqn:Hs; [|done]. exfalso.
      apply mk_is_Some, (keysContiguous_range r i Hk) in Hs.
      apply Hd, elem_of_seqZ. lia. }
  split; [|split].
  - apply keysContiguous_lookup. intros i. simpl. rewrite Hlk.
    case_bool_decide; split; intros H'; try done.
  - intros c s. simpl. rewrite (Hb c s), Hlk. split.
    + intros (slot & Hslot & Hown). exists slot. split; [|done].
      pose proof (proj1 (keysContiguous_range r s Hk) (mk_is_Some _ _ Hslot)) as Hr.
      destruct (decide (s ≤ count)) as [Hle|Hgt].
      * rewrite bool_decide_eq_true_2 by lia. by rewrite Hslot.
      * exfalso. apply (Hfree s); [lia |]. exists slot, c. repeat split; try done.
        intros ->. by apply (Ho s slot).
    + intros (slot & Hslot & Hown). case_bool_decide; [|done].
      injection Hslot as <-. destruct (stations r !! s) as [x|]; simpl in *; [eauto | done].
  - intros i slot. simpl. rewrite Hlk. case_bool_decide; [|done].
    intros [= <-]. destruct (stations r !! i) as [x|] eqn:Hx; simpl; [|done].
    by apply (Ho i x).
Qed.

(** * C1: where the invariants break

    [createRoom], [claimStation], [setReady], the clock operations, the
    reset, [updateConfig], tail compaction and the leave of a station keep
    [room_inv] (lemmas above).  Three paths of the running server do not:
    they keep the key set but leave the bindings and the owners out of step,
    although the leave handler deletes the binding of the slot it clears and
    [claimStation] releases the slot a client held before. *)

Lemma readyRoom2_inv : room_inv readyRoom2.
Proof.
  unfold readyRoom2.
  apply setReady_inv, claimStation_inv; [done |].
  apply setReady_inv, claimStation_inv; [done |].
  apply createRoom_inv.
Qed.

Lemma round65_inv : room_inv round65.
Proof. apply (room_inv_ext readyRoom2); try done. apply readyRoom2_inv. Qed.

Lemma room2a_inv : room_inv room2a.
Proof.
  assert (room2a = exec (claimStation "a" 1) room2) as -> by (vm_compute; reflexivity).
  apply claimStation_inv; [done |]. apply createRoom_inv.
Qed.

(** C1. The stated invariant fails after three operations, each run on a
    room that satisfies it.
    - The controller removes station 1 of a RUNNING room: the slot is
      cleared but the binding of its owner a stays at 1.
    - Renumber compaction of station 1 in a WAITING room with owners a, b, c:
      b and c move down, and the binding of the removed owner a stays at 1,
      a slot now owned by b.
    - Client a, owner of station 1, joins station 2: the binding moves to 2
      and station 1 keeps a as its owner.
    In all three the set of keys is still [{1..stationsCount}]. *)
Theorem binding_invariant_broken :
  (room_inv round65
   ∧ let r' := exec (central_removeStation "central" 1) round65 in
     (central_removeStation "central" 1 round65).2 = inr (PendingCompaction (Some "a"))
     ∧ keysContiguous r'
     ∧ bindings r' !! "a" = Some 1
     ∧ slotView r' 1 = Some (None, false, false)
     ∧ ¬ bindingsMatchOwners r')
  ∧ (room_inv room3
     ∧ let r' := exec (central_removeStation "central" 1) room3 in
       (central_removeStation "central" 1 room3).2
       = inr (Compacted [mkRemap "b" 2 1; mkRemap "c" 3 2])
       ∧ r' = (renumberCompactIfWaiting 1 room3).1
       ∧ keysContiguous r'
       ∧ bindings r' !! "a" = Some 1
       ∧ slotView r' 1 = Some (Some "b", false, true)
       ∧ ¬ bindingsMatchOwners r')
  ∧ (room_inv room2a
     ∧ let r' := exec (station_join "a" (Some 2) 0 0%nat) room2a in
       (station_join "a" (Some 2) 0 0%nat room2a).2 = inr tt
       ∧ keysContiguous r'
       ∧ bindings r' !! "a" = Some 2
       ∧ slotView r' 1 = Some (Some "a", false, true)
       ∧ ¬ bindingsMatchOwners r').
Proof.
  split; [|split].
  - split; [apply round65_inv |]. intros r'.
    split; [vm_compute; reflexivity |].
    split; [vm_compute; reflexivity |].
    split; [vm_compute; reflexivity |].
    split; [vm_compute; reflexivity |].
    intros Hb. destruct (proj1 (Hb "a" 1)) as (slot & Hslot & Hown);
      [vm_compute; reflexivity |].
    vm_compute in Hslot. injection Hslot as <-. discriminate.
  - split; [apply room3_inv |]. intros r'.
    split; [vm_compute; reflexivity |].
    split; [vm_compute; reflexivity |].
    split; [vm_compute; reflexivity |].
    split; [vm_compute; reflexivity |].
    split; [vm_compute; reflexivity |].
    intros Hb. destruct (proj1 (Hb "a" 1)) as (slot & Hslot & Hown);
      [vm_compute; reflexivity |].
    vm_compute in Hslot. injection Hslot as <-. discriminate.
  - split; [apply room2a_inv |]. intros r'.
    split; [vm_compute; reflexivity |].
    split; [vm_compute; reflexivity |].
    split; [vm_compute; reflexivity |].
    split; [vm_compute; reflexivity |].
    intros Hb.
    assert (bindings r' !! "a" = Some 1) as H1.
    { apply Hb. exists (mkSlot 1 (Some "a") false true).
      split; vm_compute; reflexivity. }
    vm_compute in H1. discriminate.
Qed.

(** * Beyond the claims: the rest of the server *)

(** * The rate limiter *)

Lemma rateLimit_same_window (now : Z) (c : string) (b : Bucket)
    (bs : gmap string Bucket) :
  bs !! c = Some b → bucket_ok b → now - last b < WINDOW_MS →
  rateLimit now c bs
  = if tokens b =? 0 then (false, bs)
    else (true, <[c := mkBucket (tokens b - 1) (last b)]> bs).
Proof.
  unfold bucket_ok, MAX_TOKENS, WINDOW_MS. intros Hb Hok Hw. unfold rateLimit.
  rewrite Hb. simpl. unfold MAX_TOKENS, WINDOW_MS.
  assert ((now - last b) `div` 10000 ≤ 0) as Hdiv.
  { destruct (Z.le_gt_cases 0 (now - last b)).
    - rewrite Z.div_small; lia.
    - pose proof (Z.div_lt_upper_bound (now - last b) 10000 0 ltac:(lia) ltac:(lia)). lia. }
  destruct (0 <? (now - last b) `div` 10000 * 10) eqn:E; [lia |].
  rewrite Z.add_0_r, Z.min_r by lia.
  destruct (Z.eqb_spec (tokens b) 0) as [H0|H0].
  - rewrite H0. simpl. f_equal. apply insert_id. rewrite Hb. destruct b. simpl in *.
    by subst.
  - destruct (tokens b <=? 0) eqn:E'; [lia |]. done.
Qed.

Lemma rateLimit_refills (now : Z) (c : string) (b : Bucket) (bs : gmap string Bucket) :
  bs !! c = Some b → 0 ≤ tokens b → WINDOW_MS ≤ now - last b →
  rateLimit now c bs = (true, <[c := mkBucket (MAX_TOKENS - 1) now]> bs).
Proof.
  unfold MAX_TOKENS, WINDOW_MS. intros Hb Hok Hw. unfold rateLimit.
  rewrite Hb. simpl. unfold MAX_TOKENS, WINDOW_MS.
  assert (1 ≤ (now - last b) `div` 10000) as Hdiv
    by (apply Z.div_le_lower_bound; lia).
  destruct (0 <? (now - last b) `div` 10000 * 10) eqn:E; [|lia].
  rewrite Z.min_l by lia. simpl. done.
Qed.

Lemma rateLimit_first_call (now : Z) (c : string) (bs : gmap string Bucket) :
  bs !! c = None →
  rateLimit now c bs = (true, <[c := mkBucket (MAX_TOKENS - 1) now]> bs).
Proof.
  intros Hb. unfold rateLimit. rewrite Hb. simpl.
  rewrite Z.sub_diag. reflexivity.
Qed.

Lemma rateLimitRun_same_window (nows : list Z) (c : string) (b : Bucket)
    (bs : gmap string Bucket) :
  bs !! c = Some b → bucket_ok b →
  Forall (λ now, now - last b < WINDOW_MS) nows →
  (rateLimitRun nows c bs).1
  = (replicate (Nat.min (length nows) (Z.to_nat (tokens b))) true
     ++ replicate (length nows - Z.to_nat (tokens b)) false)%list.
Proof.
  revert b bs. induction nows as [|now rest IH]; intros b bs Hb Hok Hall; [done |].
  inversion Hall as [|? ? Hnow Hrest]; subst. cbn [rateLimitRun fst snd].
  rewrite (rateLimit_same_window now c b bs Hb Hok Hnow).
  destruct (Z.eqb_spec (tokens b) 0) as [H0|H0]; cbn [fst snd].
  - rewrite (IH b bs Hb Hok Hrest), H0. simpl. by rewrite Nat.min_0_r, Nat.sub_0_r.
  - rewrite (IH (mkBucket (tokens b - 1) (last b))
               (<[c := mkBucket (tokens b - 1) (last b)]> bs)); cbn [tokens last];
      [| apply lookup_insert_eq | unfold bucket_ok in *; simpl; lia | done].
    unfold bucket_ok in Hok.
    replace (Z.to_nat (tokens b)) with (S (Z.to_nat (tokens b - 1))) by lia.
    cbn [length Nat.min Nat.sub replicate app]. reflexivity.
Qed.

(** X1. The limiter grants at most [MAX_TOKENS = 10] calls per window.  For
    a room with a bucket of [tokens] tokens, of any calls that all come less
    than [WINDOW_MS = 10000] ms after the bucket's [last], exactly the first
    [tokens] are granted and all later ones refused.  For a room never seen,
    of a first call and any further calls less than 10 s after it, exactly
    the first 10 are granted. *)
Theorem rateLimit_window (nows : list Z) (c : string) (bs : gmap string Bucket) :
  (∀ b, bs !! c = Some b → bucket_ok b →
        Forall (λ now, now - last b < WINDOW_MS) nows →
        (rateLimitRun nows c bs).1
        = (replicate (Nat.min (length nows) (Z.to_nat (tokens b))) true
           ++ replicate (length nows - Z.to_nat (tokens b)) false)%list)
  ∧ (∀ now0, bs !! c = None →
        Forall (λ now, now - now0 < WINDOW_MS) nows →
        (rateLimitRun (now0 :: nows) c bs).1
        = (replicate (Nat.min (S (length nows)) 10) true
           ++ replicate (S (length nows) - 10) false)%list).
Proof.
  split.
  - intros b. apply rateLimitRun_same_window.
  - intros now0 Hb Hall. cbn [rateLimitRun fst snd].
    rewrite (rateLimit_first_call now0 c bs Hb). cbn [fst snd].
    rewrite (rateLimitRun_same_window nows c (mkBucket (MAX_TOKENS - 1) now0));
      [| apply lookup_insert_eq | unfold bucket_ok, MAX_TOKENS; simpl; lia | done].
    reflexivity.
Qed.

Lemma rateLimit_window_witness :
  (rateLimitRun [0; 1; 2; 3; 4; 5; 6; 7; 8; 9; 10; 9999] "R" ∅).1
  = [true; true; true; true; true; true; true; true; true; true; false; false].
Proof.
  apply (proj2 (rateLimit_window [1; 2; 3; 4; 5; 6; 7; 8; 9; 10; 9999] "R" ∅) 0).
  - reflexivity.
  - unfold WINDOW_MS. repeat (apply List.Forall_cons; [lia |]). apply List.Forall_nil.
Defined.

(** X2. A call that comes a full window (10 s) or more after the bucket's
    [last] is granted whatever was spent before: the bucket is refilled and
    left with 9 tokens and [last = now].  Every bucket stays within
    [0..MAX_TOKENS] tokens, and a call for one room leaves the buckets of
    the other rooms as they were. *)
Theorem rateLimit_refill_and_bounds (now : Z) (c : string) (bs : gmap string Bucket) :
  (∀ b, bs !! c = Some b → 0 ≤ tokens b → WINDOW_MS ≤ now - last b →
        rateLimit now c bs = (true, <[c := mkBucket 9 now]> bs))
  ∧ ((∀ c' b, bs !! c' = Some b → bucket_ok b) →
     ∀ c' b, (rateLimit now c bs).2 !! c' = Some b → bucket_ok b)
  ∧ (∀ c', c' ≠ c → (rateLimit now c bs).2 !! c' = bs !! c').
Proof.
  split; [|split].
  - intros b. apply rateLimit_refills.
  - intros Hok c' b'. unfold rateLimit.
    set (b0 := default (mkBucket MAX_TOKENS now) (bs !! c)).
    assert (bucket_ok b0) as Hb0.
    { subst b0. destruct (bs !! c) as [b|] eqn:Hb; simpl; [by apply (Hok c) |].
      unfold bucket_ok, MAX_TOKENS. simpl. lia. }
    set (refill := (now - last b0) `div` WINDOW_MS * MAX_TOKENS).
    set (t1 := Z.min MAX_TOKENS (tokens b0 + (if 0 <? refill then refill else 0))).
    assert (0 ≤ t1 ≤ MAX_TOKENS) as Ht1.
    { subst t1. unfold bucket_ok, MAX_TOKENS in *.
      destruct (0 <? refill) eqn:E; lia. }
    cbn [tokens last]. destruct (t1 <=? 0) eqn:E; cbn [snd].
    + destruct (bs !! c) as [b|] eqn:Hb; [|apply Hok].
      destruct (decide (c' = c)) as [->|Hne].
      * rewrite lookup_insert_eq. intros [= <-]. done.
      * rewrite lookup_insert_ne by done. apply Hok.
    + destruct (decide (c' = c)) as [->|Hne].
      * rewrite lookup_insert_eq. intros [= <-]. unfold bucket_ok. simpl. lia.
      * rewrite lookup_insert_ne by done. apply Hok.
  - intros c' Hne. unfold rateLimit.
    destruct (_ <=? 0); cbn [snd].
    + destruct (bs !! c); [by rewrite lookup_insert_ne | done].
    + by rewrite lookup_insert_ne.
Qed.

Lemma rateLimit_refill_and_bounds_witness :
  let bs := (rateLimitRun [0; 1; 2; 3; 4; 5; 6; 7; 8; 9; 10] "R" ∅).2 in
  rateLimit 10000 "R" bs = (true, <["R" := mkBucket 9 10000]> bs).
Proof.
  intros bs.
  apply (proj1 (rateLimit_refill_and_bounds 10000 "R" bs) (mkBucket 0 0)).
  - reflexivity.
  - reflexivity.
  - unfold WINDOW_MS. simpl. lia.
Defined.

(** * The registry and the empty-room timers *)

(** X3. The registry round trip.  [createRoom] stores the new room under its
    code (replacing whatever was stored there) and leaves the other rooms
    alone; [getRoom] finds it; [deleteRoom] removes exactly it and keeps the
    empty-room timers; a second [deleteRoom], like any [deleteRoom] of an
    unknown code, throws [E_ROOM_NOT_FOUND] and changes nothing. *)
Theorem registry_roundtrip (c centralId : string) (count dur : Z) (s : Store) :
  let room := (createRoomIn c centralId count dur s).1 in
  let s1 := (createRoomIn c centralId count dur s).2 in
  let s2 := (deleteRoom c s1).1 in
  getRoom c s1 = Some room
  ∧ code room = c ∧ state room = WAITING ∧ bindings room = ∅
  ∧ (∀ c', c' ≠ c → getRoom c' s1 = getRoom c' s)
  ∧ (deleteRoom c s1).2 = None
  ∧ getRoom c s2 = None
  ∧ (∀ c', c' ≠ c → getRoom c' s2 = getRoom c' s)
  ∧ emptyRoomTimers s2 = emptyRoomTimers s
  ∧ deleteRoom c s2 = (s2, Some E_ROOM_NOT_FOUND)
  ∧ (∀ c' s', getRoom c' s' = None → deleteRoom c' s' = (s', Some E_ROOM_NOT_FOUND)).
Proof.
  intros room s1 s2. subst room s1 s2. unfold createRoomIn, deleteRoom, getRoom.
  cbn [fst snd rooms emptyRoomTimers]. rewrite lookup_insert_eq.
  cbn [fst snd rooms emptyRoomTimers]. rewrite lookup_delete_eq.
  repeat split; try done.
  - intros c' Hne. by rewrite lookup_insert_ne.
  - intros c' Hne. by rewrite lookup_delete_ne, lookup_insert_ne.
  - intros c' s' Hn. by rewrite Hn.
Qed.

Lemma registry_roundtrip_witness :
  let s1 := (createRoomIn "R" "central" 2 65 (mkStore ∅ ∅)).2 in
  getRoom "R" s1 = Some room2
  ∧ deleteRoom "Q" s1 = (s1, Some E_ROOM_NOT_FOUND).
Proof.
  intros s1.
  pose proof (registry_roundtrip "R" "central" 2 65 (mkStore ∅ ∅))
    as (H1 & _ & _ & _ & _ & _ & _ & _ & _ & _ & H2).
  split; [exact H1 | apply H2; reflexivity].
Defined.

Lemma isRoomEmpty_spec (r : Room) :
  isRoomEmpty r = true ↔ ∀ i s, stations r !! i = Some s → connected s = false.
Proof. unfold isRoomEmpty. rewrite bool_decide_eq_true. reflexivity. Qed.

(** X4. The empty-room timer.  [scheduleRoomCleanupIfEmpty] arms a timer for
    the room exactly when no slot is connected and none is armed yet: an
    armed timer is never replaced, a room with a connected slot gets none,
    and the timers of the other rooms are untouched.  [onAnyClientJoin]
    disarms the timer of the room and only that one. *)
Theorem emptyRoomTimer_arming (h : Timeout) (r : Room) (timers : gmap string Timeout) :
  let t' := scheduleRoomCleanupIfEmpty h r timers in
  (is_Some (t' !! code r)
   ↔ is_Some (timers !! code r)
     ∨ ∀ i s, stations r !! i = Some s → connected s = false)
  ∧ (∀ h0, timers !! code r = Some h0 → t' !! code r = Some h0)
  ∧ (timers !! code r = None →
     (∀ i s, stations r !! i = Some s → connected s = false) →
     t' !! code r = Some h)
  ∧ (∀ c, c ≠ code r → t' !! c = timers !! c)
  ∧ onAnyClientJoin r t' !! code r = None
  ∧ (∀ c, c ≠ code r → onAnyClientJoin r t' !! c = timers !! c).
Proof.
  intros t'.
  assert (Ht' : t' = if isRoomEmpty r && negb (bool_decide (is_Some (timers !! code r)))
                     then <[code r := h]> timers else timers) by done.
  assert (Hoth : ∀ c, c ≠ code r → t' !! c = timers !! c).
  { intros c Hne. rewrite Ht'. destruct (_ && _); [by rewrite lookup_insert_ne | done]. }
  assert (Hjoin : ∀ (t : gmap string Timeout) c,
             onAnyClientJoin r t !! c = if bool_decide (c = code r) then None else t !! c).
  { intros t c. unfold onAnyClientJoin. destruct (decide (c = code r)) as [->|Hc].
    - rewrite bool_decide_eq_true_2 by done.
      destruct (t !! code r) eqn:E; [apply lookup_delete_eq | done].
    - rewrite bool_decide_eq_false_2 by done.
      destruct (t !! code r); [by rewrite lookup_delete_ne | done]. }
  assert (Hcode : t' !! code r
                  = match timers !! code r with
                    | Some h0 => Some h0
                    | None => if isRoomEmpty r then Some h else None
                    end).
  { rewrite Ht'. destruct (timers !! code r) as [h0|] eqn:Ht.
    - rewrite bool_decide_eq_true_2 by eauto. by rewrite andb_false_r.
    - rewrite bool_decide_eq_false_2 by (by intros [? ?]).
      destruct (isRoomEmpty r); simpl; [apply lookup_insert_eq | done]. }
  split; [|split; [|split; [|split; [exact Hoth | split]]]].
  - rewrite Hcode. destruct (timers !! code r) as [h0|] eqn:Ht.
    + split; eauto.
    + destruct (isRoomEmpty r) eqn:He.
      * split; [|eauto]. intros _. right. by apply isRoomEmpty_spec.
      * split; [by intros [? ?] |]. intros [[? ?]|H]; [done |].
        apply (proj2 (isRoomEmpty_spec r)) in H. congruence.
  - intros h0 Ht. by rewrite Hcode, Ht.
  - intros Ht He. rewrite Hcode, Ht.
    by rewrite (proj2 (isRoomEmpty_spec r) He).
  - rewrite Hjoin. by rewrite bool_decide_eq_true_2.
  - intros c Hne. rewrite Hjoin. rewrite bool_decide_eq_false_2 by done. by apply Hoth.
Qed.

Lemma emptyRoomTimer_arming_witness :
  scheduleRoomCleanupIfEmpty 7%nat room2 ∅ !! "R" = Some 7%nat.
Proof.
  apply (emptyRoomTimer_arming 7%nat room2 ∅).
  - reflexivity.
  - intros i s Hs. change (stations room2) with (makeStations 2) in Hs.
    rewrite lookup_makeStations in Hs. case_bool_decide; [|discriminate].
    by injection Hs as <-.
Defined.

(** X5. When the empty-room timer of the room [c] fires, the room and its
    timer entry are removed and nothing else; but if the room is gone by
    then (the controller deleted it: [deleteRoom] never disarms the timer),
    the callback throws [E_ROOM_NOT_FOUND] before it reaches
    [emptyRoomTimers.delete] and the entry stays. *)
Theorem emptyRoomTimer_expiry (c : string) (s : Store) :
  (is_Some (rooms s !! c) →
   let s' := (emptyRoomExpired c s).1 in
   (emptyRoomExpired c s).2 = None
   ∧ rooms s' !! c = None ∧ emptyRoomTimers s' !! c = None
   ∧ (∀ c', c' ≠ c → rooms s' !! c' = rooms s !! c'
                     ∧ emptyRoomTimers s' !! c' = emptyRoomTimers s !! c'))
  ∧ (rooms s !! c = None → emptyRoomExpired c s = (s, Some E_ROOM_NOT_FOUND))
  ∧ (let s1 := (deleteRoom c s).1 in
     emptyRoomTimers s1 = emptyRoomTimers s
     ∧ emptyRoomExpired c s1 = (s1, Some E_ROOM_NOT_FOUND)).
Proof.
  split; [|split].
  - intros [r Hr] s'. subst s'. unfold emptyRoomExpired, deleteRoom. rewrite Hr.
    cbn [fst snd rooms emptyRoomTimers]. rewrite !lookup_delete_eq.
    repeat split; try done; by rewrite lookup_delete_ne.
  - intros Hn. unfold emptyRoomExpired, deleteRoom. by rewrite Hn.
  - unfold emptyRoomExpired, deleteRoom.
    destruct (rooms s !! c) as [r|] eqn:Hr; cbn [fst snd rooms emptyRoomTimers].
    + rewrite lookup_delete_eq. done.
    + rewrite Hr. done.
Qed.

Lemma emptyRoomTimer_expiry_witness :
  let s := (createRoomIn "R" "central" 2 65 (mkStore ∅ {["R" := 7%nat]})).2 in
  rooms (emptyRoomExpired "R" s).1 !! "R" = None
  ∧ emptyRoomTimers (emptyRoomExpired "R" s).1 !! "R" = None.
Proof.
  intros s.
  pose proof (proj1 (emptyRoomTimer_expiry "R" s)) as H.
  destruct H as (_ & H1 & H2 & _).
  - exists (createRoom "R" "central" 2 65). reflexivity.
  - split; [exact H1 | exact H2].
Defined.

(** X6. A disconnect keeps the seat.  [onClientDisconnect] only clears the
    [connected] flag of the slot the client is bound to: owners, ready flags
    and bindings are as before, every other slot is untouched, a client
    without a binding changes nothing, and the room invariants are kept. *)
Theorem disconnect_keeps_seat (cid : string) (r : Room) :
  let r' := onClientDisconnect cid r in
  bindings r' = bindings r
  ∧ stationsCount r' = stationsCount r ∧ state r' = state r
  ∧ (∀ i, ownerClientId <$> stations r' !! i = ownerClientId <$> stations r !! i)
  ∧ (∀ i, ready <$> stations r' !! i = ready <$> stations r !! i)
  ∧ (∀ i, bindings r !! cid ≠ Some i → stations r' !! i = stations r !! i)
  ∧ (∀ sid s, bindings r !! cid = Some sid → sid ≠ 0 → stations r !! sid = Some s →
              stations r' !! sid = Some (set_connected false s))
  ∧ (bindings r !! cid = None → r' = r)
  ∧ (room_inv r → room_inv r').
Proof.
  intros r'. subst r'. unfold onClientDisconnect.
  destruct (bindings r !! cid) as [sid|] eqn:Hb; simpl; [|do 8 (split; [done |]); done].
  destruct (Z.eqb_spec sid 0) as [H0|H0]; simpl.
  { do 6 (split; [done |]). split; [|split; done]. intros sid' s [= <-]. done. }
  assert (Hlk : ∀ i, alter (set_connected false) sid (stations r) !! i
                = if bool_decide (i = sid) then set_connected false <$> stations r !! i
                  else stations r !! i).
  { intros i. case_bool_decide as Hi; [subst; apply lookup_alter_eq |].
    by apply lookup_alter_ne. }
  split; [done |]. split; [done |]. split; [done |].
  split; [|split; [|split; [|split; [|split; [done |]]]]].
  - intros i. rewrite Hlk. case_bool_decide; [|done]. by destruct (stations r !! i).
  - intros i. rewrite Hlk. case_bool_decide; [|done]. by destruct (stations r !! i).
  - intros i Hi. rewrite Hlk. rewrite bool_decide_eq_false_2; [done | congruence].
  - intros sid' s [= <-] _ Hs. rewrite Hlk, bool_decide_eq_true_2 by done. by rewrite Hs.
  - intros (Hk & Hbm & Ho). split; [|split].
    + apply keysContiguous_lookup. intros i. cbn [stations set_stations stationsCount].
      rewrite Hlk, <- (keysContiguous_range r i Hk).
      case_bool_decide; [by rewrite fmap_is_Some | done].
    + intros c s. cbn [stations set_stations bindings]. rewrite (Hbm c s), Hlk.
      case_bool_decide; [|done]. destruct (stations r !! s) as [x|]; simpl.
      * split; intros (slot & [= <-] & Hown); eauto.
      * split; intros (slot & [=] & _).
    + intros i slot. cbn [stations set_stations]. rewrite Hlk.
      case_bool_decide; [|apply Ho].
      destruct (stations r !! i) as [x|] eqn:Hx; simpl; [|done].
      intros [= <-]. by apply (Ho i x).
Qed.

Lemma disconnect_keeps_seat_witness :
  stations (onClientDisconnect "a" room2a) !! 1
  = Some (mkSlot 1 (Some "a") false false)
  ∧ room_inv (onClientDisconnect "a" room2a).
Proof.
  pose proof (disconnect_keeps_seat "a" room2a) as (_ & _ & _ & _ & _ & _ & H & _ & Hinv).
  split.
  - apply (H 1 (mkSlot 1 (Some "a") false true)); [reflexivity | lia | reflexivity].
  - apply Hinv, room2a_inv.
Defined.

(** * The invariants of the rooms the server holds *)

Lemma struct_inv_iff (r : Room) :
  struct_inv r ↔ structOK (stations r) (stationsCount r).
Proof.
  unfold struct_inv, structOK, idsMatchKeys, ownersNonEmpty.
  rewrite keysContiguous_lookup. split.
  - intros (Hk & Hi & Ho). split; [exact Hk |]. intros i s Hs. split; eauto.
  - intros (Hk & Hio). split; [exact Hk |]. split; intros i s Hs; by apply (Hio i s).
Qed.

Lemma server_inv_iff (r : Room) : server_inv r ↔ shape_inv r ∧ round_inv r.
Proof.
  unfold server_inv, shape_inv, round_inv, configBounds. rewrite struct_inv_iff. tauto.
Qed.

Lemma shape_ext (r r' : Room) :
  stations r' = stations r → stationsCount r' = stationsCount r →
  shape_inv r → shape_inv r'.
Proof. unfold shape_inv. by intros -> ->. Qed.

Lemma round_ext (r r' : Room) :
  state r' = state r → roundDurationSec r' = roundDurationSec r →
  startedAt r' = startedAt r → timeLeft r' = timeLeft r →
  warned30 r' = warned30 r → warned60 r' = warned60 r →
  interval r' = interval r →
  round_inv r → round_inv r'.
Proof.
  unfold round_inv, clock_inv, timer_inv. by intros -> -> -> -> -> -> ->.
Qed.

(** ** Shapes of stations maps *)

Lemma structOK_alter (f : StationSlot → StationSlot) (k : Z)
    (st : gmap Z StationSlot) (n : Z) :
  (∀ s, id (f s) = id s) →
  (∀ s, ownerClientId s ≠ Some "" → ownerClientId (f s) ≠ Some "") →
  structOK st n → structOK (alter f k st) n.
Proof.
  intros Hid Hown [Hk Hs]. split.
  - intros i. rewrite <- (Hk i). destruct (decide (i = k)) as [->|Hne].
    + by rewrite lookup_alter_eq, fmap_is_Some.
    + by rewrite lookup_alter_ne.
  - intros i s. destruct (decide (i = k)) as [->|Hne].
    + rewrite lookup_alter_eq. destruct (st !! k) as [x|] eqn:Hx; simpl; [|done].
      intros [= <-]. destruct (Hs k x Hx). rewrite Hid. split; [done | by apply Hown].
    + rewrite lookup_alter_ne by done. apply Hs.
Qed.

Lemma structOK_fmap (f : StationSlot → StationSlot) (st : gmap Z StationSlot) (n : Z) :
  (∀ s, id (f s) = id s) →
  (∀ s, ownerClientId s ≠ Some "" → ownerClientId (f s) ≠ Some "") →
  structOK st n → structOK (f <$> st) n.
Proof.
  intros Hid Hown [Hk Hs]. split.
  - intros i. by rewrite lookup_fmap, fmap_is_Some.
  - intros i s. rewrite lookup_fmap. destruct (st !! i) as [x|] eqn:Hx; simpl; [|done].
    intros [= <-]. destruct (Hs i x Hx). rewrite Hid. split; [done | by apply Hown].
Qed.

Lemma structOK_shrink (st st' : gmap Z StationSlot) (n m : Z) :
  m ≤ n →
  (∀ i, st' !! i = if bool_decide (m < i ≤ n) then None else st !! i) →
  structOK st n → structOK st' m.
Proof.
  intros Hm Hlk [Hk Hs]. split.
  - intros i. rewrite Hlk. case_bool_decide as Hi.
    + split; [by intros [? ?] | lia].
    + rewrite (Hk i). lia.
  - intros i s. rewrite Hlk. case_bool_decide; [done | apply Hs].
Qed.

Lemma clearSlot_good :
  (∀ s, id (clearSlot s) = id s)
  ∧ (∀ s, ownerClientId s ≠ Some "" → ownerClientId (clearSlot s) ≠ Some "").
Proof. split; intros s; simpl; done. Qed.

Lemma tailCompact_shape_inv (r : Room) :
  shape_inv r → shape_inv (tailCompactIfWaiting r).
Proof.
  intros [Hst Hn].
  destruct (tailCompact_shape r) as (m & Hm & Hle & H0 & Hlk & _).
  split.
  - rewrite Hm. by apply (structOK_shrink (stations r) _ (stationsCount r)).
  - rewrite Hm. split; [apply H0 |]; lia.
Qed.

Lemma updateConfig_stations (count : Z) (st : gmap Z StationSlot) (n i : Z) :
  structOK st n → n ≤ 200 →
  foldl (λ m i, match m !! i with
                | Some _ => m
                | None => <[i := freshSlot i]> m
                end)
        (foldl (λ m i, delete i m) st (seqZ (count + 1) (200 - count)))
        (seqZ 1 count) !! i
  = if bool_decide (1 ≤ i ≤ count) then Some (default (freshSlot i) (st !! i)) else None.
Proof.
  intros [Hk _] Hn. rewrite lookup_foldl_fill, lookup_foldl_delete.
  destruct (decide (1 ≤ i ≤ count)) as [Hi|Hi].
  - rewrite (bool_decide_eq_false_2 (i ∈ seqZ (count + 1) (200 - count)))
      by (rewrite elem_of_seqZ; lia).
    rewrite !bool_decide_eq_true_2; [|done | apply elem_of_seqZ; lia].
    by destruct (st !! i).
  - rewrite (bool_decide_eq_false_2 (1 ≤ i ≤ count)) by done.
    rewrite (bool_decide_eq_false_2 (i ∈ seqZ 1 count)) by (rewrite elem_of_seqZ; lia).
    case_bool_decide as Hd; [done |].
    destruct (st !! i) as [s|] eqn:Hs; [|done]. exfalso.
    apply mk_is_Some, Hk in Hs. apply Hd, elem_of_seqZ. lia.
Qed.

Lemma updateConfig_structOK (count : Z) (st : gmap Z StationSlot) (n : Z) :
  structOK st n → n ≤ 200 →
  structOK (foldl (λ m i, match m !! i with
                          | Some _ => m
                          | None => <[i := freshSlot i]> m
                          end)
                  (foldl (λ m i, delete i m) st (seqZ (count + 1) (200 - count)))
                  (seqZ 1 count)) count.
Proof.
  intros Hst Hn. split.
  - intros i. rewrite (updateConfig_stations count st n i Hst Hn).
    case_bool_decide; split; intros H'; try done.
  - intros i s. rewrite (updateConfig_stations count st n i Hst Hn).
    case_bool_decide; [|done]. intros [= <-].
    destruct (st !! i) as [x|] eqn:Hx; simpl; [by apply (proj2 Hst i x) | done].
Qed.

Lemma renumber_fold_stations (k : Z) (st : gmap Z StationSlot) (bd : gmap string Z)
    (n : nat) (j : Z) :
  (foldl renumberStep (st, bd, []) (seqZ k (Z.of_nat n))).1.1 !! j
  = if bool_decide (k ≤ j < k + Z.of_nat n) then Some (shifted st j) else st !! j.
Proof.
  revert j. induction n as [|n IH]; intros j.
  - simpl. rewrite bool_decide_eq_false_2; [done | lia].
  - rewrite seqZ_S, foldl_snoc.
    destruct (foldl renumberStep (st, bd, []) (seqZ k (Z.of_nat n))) as [[st' bd'] out'].
    cbn [fst] in IH.
    destruct (renumberStep_out st' bd' out' (k + Z.of_nat n)) as (-> & _ & _).
    assert (Hsh : shifted st' (k + Z.of_nat n) = shifted st (k + Z.of_nat n)).
    { unfold shifted. rewrite IH. rewrite bool_decide_eq_false_2; [done | lia]. }
    rewrite Hsh. destruct (decide (j = k + Z.of_nat n)) as [->|Hne].
    + rewrite lookup_insert_eq. rewrite bool_decide_eq_true_2; [done | lia].
    + rewrite lookup_insert_ne by done. rewrite IH.
      destruct (decide (k ≤ j < k + Z.of_nat n)).
      * rewrite !bool_decide_eq_true_2; [done | lia | done].
      * rewrite !bool_decide_eq_false_2; [done | lia | done].
Qed.

(** What [renumberCompactIfWaiting] leaves, when it does anything. *)
Lemma renumberCompact_run (k : Z) (r : Room) :
  state r = WAITING → 1 ≤ k ≤ stationsCount r →
  let F := foldl renumberStep (alter clearSlot k (stations r), bindings r, [])
                 (seqZ k (stationsCount r - k)) in
  renumberCompactIfWaiting k r
  = (set_stationsCount (Z.max 0 (stationsCount r - 1))
       (set_bindings F.1.2 (set_stations (delete (stationsCount r) F.1.1) r)),
     F.2).
Proof.
  intros Hs Hk F. subst F. unfold renumberCompactIfWaiting.
  rewrite bool_decide_eq_true_2 by done. cbn [negb].
  destruct (k <? 1) eqn:E1; [lia |].
  destruct (stationsCount r <? k) eqn:E2; [lia |]. cbn [orb].
  by destruct (foldl renumberStep _ _) as [[? ?] ?].
Qed.

Lemma renumberCompact_idle (k : Z) (r : Room) :
  state r ≠ WAITING ∨ ¬ (1 ≤ k ≤ stationsCount r) →
  renumberCompactIfWaiting k r = (r, []).
Proof.
  intros H. unfold renumberCompactIfWaiting.
  destruct (decide (state r = WAITING)) as [Hs|Hs].
  - rewrite bool_decide_eq_true_2 by done. cbn [negb].
    destruct H as [H|H]; [done |].
    destruct (k <? 1) eqn:E1; [done |].
    destruct (stationsCount r <? k) eqn:E2; [done | lia].
  - by rewrite bool_decide_eq_false_2.
Qed.

Lemma renumberCompact_stations (k : Z) (r : Room) (j : Z) :
  state r = WAITING → 1 ≤ k ≤ stationsCount r →
  structOK (stations r) (stationsCount r) →
  stations (renumberCompactIfWaiting k r).1 !! j
  = if bool_decide (k ≤ j < stationsCount r)
    then Some (shifted (stations r) j)
    else if bool_decide (j = stationsCount r) then None else stations r !! j.
Proof.
  intros Hs Hk Hst. rewrite (renumberCompact_run k r Hs Hk).
  cbn [fst stations set_stationsCount set_bindings set_stations].
  pose proof (renumber_fold_stations k (alter clearSlot k (stations r)) (bindings r)
                (Z.to_nat (stationsCount r - k)) j) as HF.
  rewrite Z2Nat.id in HF by lia.
  destruct (decide (j = stationsCount r)) as [->|Hne].
  { rewrite lookup_delete_eq. rewrite bool_decide_eq_false_2 by lia.
    by rewrite bool_decide_eq_true_2. }
  rewrite lookup_delete_ne by done. rewrite HF.
  rewrite (bool_decide_eq_false_2 (j = stationsCount r)) by done.
  destruct (decide (k ≤ j < stationsCount r)) as [Hj|Hj].
  - rewrite !bool_decide_eq_true_2 by lia. unfold shifted.
    rewrite lookup_alter_ne by lia. done.
  - rewrite !bool_decide_eq_false_2 by lia.
    destruct (decide (j = k)) as [->|Hjk]; [lia |].
    by rewrite lookup_alter_ne.
Qed.

Lemma renumberCompact_shape_inv (k : Z) (r : Room) :
  shape_inv r → shape_inv (renumberCompactIfWaiting k r).1.
Proof.
  intros Hinv.
  destruct (decide (state r = WAITING ∧ 1 ≤ k ≤ stationsCount r)) as [[Hs Hk]|Hn].
  - destruct Hinv as [Hst Hn]. pose proof Hst as [Hkeys Hslots].
    assert (Hc : stationsCount (renumberCompactIfWaiting k r).1 = stationsCount r - 1).
    { rewrite (renumberCompact_run k r Hs Hk). cbn [fst stationsCount set_stationsCount].
      lia. }
    split; [|lia]. rewrite Hc. split.
    + intros i. rewrite (renumberCompact_stations k r i Hs Hk Hst).
      case_bool_decide as H1; [split; [lia | eauto] |].
      case_bool_decide as H2; [split; [by intros [? ?] | lia] |].
      rewrite (Hkeys i). lia.
    + intros i s. rewrite (renumberCompact_stations k r i Hs Hk Hst).
      case_bool_decide as H1.
      * intros [= <-]. unfold shifted.
        destruct (proj2 (Hkeys (i + 1)) ltac:(lia)) as [x Hx]. rewrite Hx.
        cbn [default id ownerClientId]. split; [done |]. by apply (Hslots (i + 1) x).
      * case_bool_decide; [done | apply Hslots].
  - rewrite renumberCompact_idle; [done |].
    destruct (decide (state r = WAITING)); [right | by left]. tauto.
Qed.

Lemma renumberCompact_round (k : Z) (r : Room) :
  let r' := (renumberCompactIfWaiting k r).1 in
  state r' = state r ∧ roundDurationSec r' = roundDurationSec r
  ∧ startedAt r' = startedAt r ∧ timeLeft r' = timeLeft r
  ∧ warned30 r' = warned30 r ∧ warned60 r' = warned60 r
  ∧ interval r' = interval r ∧ pendingCompaction r' = pendingCompaction r.
Proof.
  destruct (decide (state r = WAITING ∧ 1 ≤ k ≤ stationsCount r)) as [[Hs Hk]|Hn].
  - cbv zeta. rewrite (renumberCompact_run k r Hs Hk). done.
  - cbv zeta. rewrite renumberCompact_idle; [done |].
    destruct (decide (state r = WAITING)); [right | by left]. tauto.
Qed.

Arguments tailCompactIfWaiting : simpl never.
Arguments renumberCompactIfWaiting : simpl never.
Arguments resetToWaiting : simpl never.
Arguments maybeApplyPendingCompaction : simpl never.
Arguments allClaimedAndReady : simpl never.
Arguments remaining : simpl never.

(** ** The round fields under the core operations *)

Lemma maybeApply_after_reset (r : Room) :
  maybeApplyPendingCompaction (resetToWaiting r) = resetToWaiting r.
Proof.
  destruct (resetToWaiting_fields r) as (Hs & _ & _ & _ & _ & _ & _ & _ & Hp & _).
  unfold maybeApplyPendingCompaction. rewrite Hs, Hp. done.
Qed.

Lemma set_ready_good (b : bool) :
  (∀ s, id (set_ready b s) = id s)
  ∧ (∀ s, ownerClientId s ≠ Some "" → ownerClientId (set_ready b s) ≠ Some "").
Proof. split; intros s; simpl; done. Qed.

Lemma set_connected_good (b : bool) :
  (∀ s, id (set_connected b s) = id s)
  ∧ (∀ s, ownerClientId s ≠ Some "" → ownerClientId (set_connected b s) ≠ Some "").
Proof. split; intros s; simpl; done. Qed.

Lemma claimSlot_good (c : string) :
  c ≠ "" →
  (∀ s, id (claimSlot c s) = id s)
  ∧ (∀ s, ownerClientId s ≠ Some "" → ownerClientId (claimSlot c s) ≠ Some "").
Proof. intros Hc. split; intros s; simpl; [done | congruence]. Qed.

Lemma shape_alter (f : StationSlot → StationSlot) (k : Z) (r : Room) :
  (∀ s, id (f s) = id s)
  ∧ (∀ s, ownerClientId s ≠ Some "" → ownerClientId (f s) ≠ Some "") →
  shape_inv r → shape_inv (set_stations (alter f k (stations r)) r).
Proof.
  intros [Hid Hown] [Hst Hn]. split; [|done].
  cbn [stations stationsCount set_stations]. by apply structOK_alter.
Qed.

Lemma resetToWaiting_shape (r : Room) :
  shape_inv r → shape_inv (resetToWaiting r).
Proof.
  intros [Hst Hn]. rewrite resetToWaiting_unfold.
  assert (Hc : shape_inv (roundCleared r)).
  { split; [|done]. cbn [roundCleared stations stationsCount set_warned60 set_warned30
                         set_timeLeft set_startedAt set_state set_stations].
    apply structOK_fmap; [apply set_ready_good.. | done]. }
  destruct (pendingCompaction r); [|exact Hc].
  destruct (set_pendingCompaction_fields false (tailCompactIfWaiting (roundCleared r)))
    as (_ & _ & _ & _ & _ & _ & _ & _ & _ & _ & E1 & E2).
  apply (shape_ext (tailCompactIfWaiting (roundCleared r)) _ E1 E2).
  by apply tailCompact_shape_inv.
Qed.

Lemma resetToWaiting_round (r : Room) :
  10 ≤ roundDurationSec r ≤ 36000 → interval r = None → round_inv (resetToWaiting r).
Proof.
  intros Hd Hi.
  destruct (resetToWaiting_fields r) as (Hs & Hsa & Htl & H30 & H60 & Hint & Hdur & _).
  unfold round_inv, clock_inv, timer_inv. rewrite Hs, Hsa, Htl, H30, H60, Hint, Hdur, Hi.
  split; [done |]. split; [done |]. split; [by intros [? ?] | done].
Qed.

Lemma resetToWaiting_server_inv (r : Room) :
  shape_inv r → 10 ≤ roundDurationSec r ≤ 36000 → interval r = None →
  server_inv (resetToWaiting r).
Proof.
  intros. apply server_inv_iff. split;
    [by apply resetToWaiting_shape | by apply resetToWaiting_round].
Qed.

Lemma remaining_nonneg (dur now sa : Z) : 0 ≤ remaining dur now sa.
Proof. unfold remaining. lia. Qed.

Lemma firedList_up (b60 b30 bup : bool) :
  OnTimeUp ∈ firedList b60 b30 bup ↔ bup = true.
Proof.
  assert (H : timesFired OnTimeUp (firedList b60 b30 bup) = (if bup then 1 else 0)%nat)
    by (destruct b60, b30, bup; reflexivity).
  unfold timesFired in H.
  rewrite list_elem_of_In, (count_occ_In Callback_eq_dec), H.
  destruct bup; split; (done || lia).
Qed.

(** ** Each handler keeps the invariants *)

Lemma requireCentral_eq (c : string) (r : Room) :
  requireCentral c r
  = (r, if String.eqb (centralClientId r) c then inr tt else inl E_NOT_CENTRAL).
Proof. unfold requireCentral. run. by destruct (String.eqb _ _). Qed.

Lemma autoStart_eq (now : Z) (h : Timeout) (r : Room) :
  autoStart now h r
  = (if allClaimedAndReady r && bool_decide (state r = WAITING)
     then set_interval (Some h) (started now r) else r, inr tt).
Proof.
  unfold autoStart. run.
  destruct (allClaimedAndReady r) eqn:Hall; cbn [andb]; [|done].
  destruct (decide (state r = WAITING)) as [Hs|Hs].
  - rewrite bool_decide_eq_true_2 by done.
    rewrite (startRound_ready now r Hs Hall). done.
  - by rewrite bool_decide_eq_false_2.
Qed.

Lemma autoStart_server_inv (now : Z) (h : Timeout) (r : Room) :
  server_inv r → server_inv (autoStart now h r).1.
Proof.
  intros Hinv. rewrite autoStart_eq. cbn [fst].
  destruct (allClaimedAndReady r && bool_decide (state r = WAITING)); [|done].
  apply server_inv_iff in Hinv as [Hsh (Hd & Hc & Ht)]. apply server_inv_iff. split.
  - by apply (shape_ext r).
  - split; [done |]. split.
    + unfold clock_inv. cbn. split; [eauto |]. exists (roundDurationSec r). split; [done | lia].
    + unfold timer_inv. cbn. split; eauto.
Qed.

Lemma removeStation_server_inv (c : string) (sid : Z) (r : Room) :
  server_inv r → server_inv (central_removeStation c sid r).1.
Proof.
  intros Hinv. unfold central_removeStation. run. rewrite requireCentral_eq.
  destruct (String.eqb _ _); [|done].
  destruct ((sid <? 1) || (stationsCount r <? sid)); [done |].
  destruct (stations r !! sid) as [slot|]; [|done].
  apply server_inv_iff in Hinv as [Hsh Hr].
  destruct (bool_decide (state r = RUNNING)).
  - cbn [fst]. apply server_inv_iff. split.
    + apply (shape_ext (set_stations (alter clearSlot sid (stations r)) r)); [done.. |].
      by apply shape_alter; [apply clearSlot_good |].
    + by apply (round_ext r).
  - pose proof (renumberCompact_shape_inv sid r Hsh) as Hsh'.
    pose proof (renumberCompact_round sid r) as Hr'. cbv zeta in Hr'.
    destruct (renumberCompactIfWaiting sid r) as [r' out]. cbn [fst] in *.
    apply server_inv_iff. split; [done |].
    destruct Hr' as (? & ? & ? & ? & ? & ? & ? & _). by apply (round_ext r).
Qed.

Lemma skipRound_server_inv (c : string) (r : Room) :
  server_inv r → server_inv (central_skipRound c r).1.
Proof.
  intros Hinv. unfold central_skipRound. run. rewrite requireCentral_eq.
  destruct (String.eqb _ _); [|done].
  destruct (negb (bool_decide (state r = RUNNING))); [done |]. cbn [fst].
  rewrite maybeApply_after_reset.
  apply server_inv_iff in Hinv as [Hsh (Hd & _)].
  apply resetToWaiting_server_inv; [by apply (shape_ext r) | done..].
Qed.

Lemma pauseRound_server_inv (c : string) (now : Z) (r : Room) :
  server_inv r → server_inv (central_pauseRound c now r).1.
Proof.
  intros Hinv. unfold central_pauseRound. run. rewrite requireCentral_eq.
  destruct (String.eqb _ _); [|done].
  destruct (decide (state r = RUNNING)) as [Hs|Hs].
  - rewrite (stopRound_running now r Hs). cbn [fst].
    apply server_inv_iff in Hinv as [Hsh (Hd & Hc & Ht)]. apply server_inv_iff. split.
    + by apply (shape_ext r).
    + split; [done |]. unfold clock_inv in Hc. rewrite Hs in Hc. split.
      * unfold clock_inv. cbn. split; [apply Hc |]. eexists. split; [done |].
        apply remaining_nonneg.
      * unfold timer_inv. cbn. split; [by intros [? ?] | done].
  - unfold stopRound. run. by rewrite bool_decide_eq_false_2.
Qed.

Lemma resumeRound_server_inv (c : string) (now : Z) (h : Timeout) (r : Room) :
  server_inv r → server_inv (central_resumeRound c now h r).1.
Proof.
  intros Hinv. unfold central_resumeRound. run. rewrite requireCentral_eq.
  destruct (String.eqb _ _); [|done].
  unfold resumeRound. run.
  destruct (bool_decide (state r = ENDED)); [|done]. cbn [negb].
  destruct (Z.leb_spec (default 0 (timeLeft r)) 0) as [Hle|Hgt]; [done |]. cbn [fst].
  apply server_inv_iff in Hinv as [Hsh (Hd & Hc & Ht)]. apply server_inv_iff. split.
  - by apply (shape_ext r).
  - split; [done |]. split.
    + unfold clock_inv. cbn. split; [eauto |].
      destruct (timeLeft r) as [tl|]; simpl in Hgt; [|lia]. exists tl. split; [done | lia].
    + unfold timer_inv. cbn. split; eauto.
Qed.

Lemma resetRoom_server_inv (c : string) (r : Room) :
  server_inv r → server_inv (central_resetRoom c r).1.
Proof.
  intros Hinv. unfold central_resetRoom. run. rewrite requireCentral_eq.
  destruct (String.eqb _ _); [|done]. cbn [fst].
  apply server_inv_iff in Hinv as [Hsh (Hd & _)].
  apply resetToWaiting_server_inv; [by apply (shape_ext r) | done..].
Qed.

Lemma updateConfig_server_inv (c : string) (count dur : Z) (granted : bool) (r : Room) :
  server_inv r → server_inv (central_updateConfig c count dur granted r).1.
Proof.
  intros Hinv. unfold central_updateConfig.
  destruct (configSchema count dur) eqn:Hsch; [|done]. cbn [negb].
  rewrite requireCentral_eq. destruct (String.eqb _ _); [|done].
  destruct granted; [|done]. cbn [negb].
  unfold configSchema in Hsch. apply andb_true_iff in Hsch as [Hsch H4].
  apply andb_true_iff in Hsch as [Hsch H3]. apply andb_true_iff in Hsch as [H1 H2].
  unfold updateConfig. run.
  destruct (negb (bool_decide (state r = WAITING))); [done |].
  destruct (existsb _ _); [done |]. cbn [fst].
  apply server_inv_iff in Hinv as [[Hst Hn] (Hd & Hc & Ht)]. apply server_inv_iff. split.
  - split; [|cbn; lia]. cbn [stations stationsCount set_roundDurationSec set_stations
                             set_stationsCount].
    apply (updateConfig_structOK count (stations r) (stationsCount r)); [done | lia].
  - split; [cbn; lia |]. split; [exact Hc | exact Ht].
Qed.

Lemma join_server_inv (c : string) (sid : option Z) (now : Z) (h : Timeout) (r : Room) :
  c ≠ "" → server_inv r → server_inv (station_join c sid now h r).1.
Proof.
  intros Hne Hinv. unfold station_join. run.
  destruct (negb (truthy_num _)); [done |].
  destruct (match sid with Some s => Some s | None => bindings r !! c end) as [t|]; [|done].
  destruct (stations r !! t) as [slot|]; [|done].
  destruct (truthy_str _ && str_neq _ _); [done |].
  apply autoStart_server_inv.
  apply server_inv_iff in Hinv as [Hsh Hr]. apply server_inv_iff. split.
  - apply (shape_ext (set_stations (alter (claimSlot c) t (stations r)) r)); [done.. |].
    apply shape_alter; [by apply claimSlot_good | done].
  - by apply (round_ext r).
Qed.

Lemma leave_server_inv (c : string) (r : Room) :
  server_inv r → server_inv (station_leave c r).1.
Proof.
  intros Hinv. unfold station_leave. run.
  destruct (negb (truthy_num _)); [done |].
  destruct (bindings r !! c) as [s|]; [|done]. cbn [fst].
  set (r1 := set_bindings (delete c (bindings r))
               (set_stations (alter clearSlot s (stations r)) r)).
  assert (H1 : server_inv r1).
  { apply server_inv_iff in Hinv as [Hsh Hr]. apply server_inv_iff. split.
    - apply (shape_ext (set_stations (alter clearSlot s (stations r)) r)); [done.. |].
      by apply shape_alter; [apply clearSlot_good |].
    - by apply (round_ext r). }
  change (state r1) with (state r).
  destruct (bool_decide (state r = RUNNING)); cbn [fst].
  - apply server_inv_iff in H1 as [Hsh Hr]. apply server_inv_iff. split.
    + by apply (shape_ext r1).
    + by apply (round_ext r1).
  - apply server_inv_iff in H1 as [Hsh Hr]. apply server_inv_iff. split.
    + by apply tailCompact_shape_inv.
    + destruct (tailCompact_fields r1) as (? & _ & ? & ? & ? & ? & ? & _ & ? & _).
      by apply (round_ext r1).
Qed.

Lemma setReady_server_inv (c : string) (rdy : bool) (now : Z) (h : Timeout) (r : Room) :
  server_inv r → server_inv (station_setReady c rdy now h r).1.
Proof.
  intros Hinv. unfold station_setReady, setReady. run.
  destruct (negb (truthy_num _)); [by apply autoStart_server_inv |].
  destruct (bindings r !! c) as [s|]; [|by apply autoStart_server_inv].
  destruct (stations r !! s) as [slot|]; [|done].
  apply autoStart_server_inv.
  apply server_inv_iff in Hinv as [Hsh Hr]. apply server_inv_iff. split.
  - by apply shape_alter; [apply set_ready_good |].
  - by apply (round_ext r).
Qed.

Lemma disconnect_server_inv (c : string) (r : Room) :
  server_inv r → server_inv (onClientDisconnect c r).
Proof.
  intros Hinv. unfold onClientDisconnect.
  destruct (truthy_num _); [|done].
  destruct (bindings r !! c) as [s|]; [|done].
  apply server_inv_iff in Hinv as [Hsh Hr]. apply server_inv_iff. split.
  - by apply shape_alter; [apply set_connected_good |].
  - by apply (round_ext r).
Qed.

Lemma onInterval_eq (now : Z) (r : Room) :
  (onInterval now r).1
  = match startedAt r with
    | Some sa =>
      if bool_decide (state r = RUNNING)
      then if remaining (roundDurationSec r) now sa =? 0
           then resetToWaiting (ticked now sa r)
           else ticked now sa r
      else r
    | None => r
    end.
Proof.
  unfold onInterval.
  destruct (startedAt r) as [sa|] eqn:Hsa.
  - destruct (decide (state r = RUNNING)) as [Hs|Hs].
    + rewrite bool_decide_eq_true_2 by done.
      unfold mbind, M_bind. rewrite (tick_running now sa r Hs Hsa).
      set (tl := remaining (roundDurationSec r) now sa).
      destruct (Z.eqb_spec tl 0) as [H0|H0].
      * rewrite (bool_decide_eq_true_2 (OnTimeUp ∈ _)) by (by apply firedList_up).
        done.
      * rewrite (bool_decide_eq_false_2 (OnTimeUp ∈ _)); [done |].
        by intros H%firedList_up.
    + rewrite bool_decide_eq_false_2 by done.
      unfold mbind, M_bind. rewrite tick_idle by (by left). done.
  - unfold mbind, M_bind. rewrite tick_idle by (by right). done.
Qed.

Lemma onInterval_server_inv (now : Z) (r : Room) :
  server_inv r → server_inv (onInterval now r).1.
Proof.
  intros Hinv. rewrite onInterval_eq.
  destruct (startedAt r) as [sa|] eqn:Hsa; [|done].
  destruct (decide (state r = RUNNING)) as [Hs|Hs];
    [rewrite bool_decide_eq_true_2 by done | by rewrite bool_decide_eq_false_2].
  apply server_inv_iff in Hinv as [Hsh (Hd & Hc & Ht)].
  destruct (Z.eqb_spec (remaining (roundDurationSec r) now sa) 0) as [H0|H0].
  - apply resetToWaiting_server_inv.
    + by apply (shape_ext r).
    + done.
    + unfold ticked. cbn [interval]. by rewrite H0.
  - apply server_inv_iff. split; [by apply (shape_ext r) |].
    split; [done |]. unfold ticked. split.
    + unfold clock_inv. cbn [state startedAt timeLeft warned30 warned60].
      destruct (Z.eqb_spec (remaining (roundDurationSec r) now sa) 0); [done |].
      rewrite Hs, Hsa. split; [eauto |]. eexists. split; [done | apply remaining_nonneg].
    + unfold timer_inv in *. cbn [state interval].
      by destruct (Z.eqb_spec (remaining (roundDurationSec r) now sa) 0).
Qed.

Lemma createRoom_server_inv (fresh_code centralId : string) (count dur : Z) :
  configSchema count dur = true →
  server_inv (createRoom fresh_code centralId count dur).
Proof.
  intros Hsch. unfold configSchema in Hsch. apply andb_true_iff in Hsch as [Hsch H4].
  apply andb_true_iff in Hsch as [Hsch H3]. apply andb_true_iff in Hsch as [H1 H2].
  apply server_inv_iff. split; [split|].
  - cbn [stations stationsCount createRoom]. split.
    + intros i. rewrite lookup_makeStations.
      case_bool_decide; split; intros H'; try done.
    + intros i s. rewrite lookup_makeStations. case_bool_decide; [|done].
      by intros [= <-].
  - cbn. lia.
  - split; [cbn; lia |]. split; [done |]. unfold timer_inv. cbn.
    split; [by intros [? ?] | done].
Qed.

Lemma handle_server_inv (e : Event) (r : Room) :
  server_inv r → server_inv (handle e r).
Proof.
  intros Hinv. unfold handle. case_bool_decide as Hs; [done |].
  destruct e; cbn [sender] in Hs.
  - by apply updateConfig_server_inv.
  - by apply removeStation_server_inv.
  - by apply skipRound_server_inv.
  - by apply pauseRound_server_inv.
  - by apply resumeRound_server_inv.
  - by apply resetRoom_server_inv.
  - destruct (joinSchema stationId); [|done]. apply join_server_inv; [congruence | done].
  - by apply leave_server_inv.
  - by apply setReady_server_inv.
  - by apply disconnect_server_inv.
  - destruct (interval r); [|done]. by apply onInterval_server_inv.
Qed.

Lemma reachable_server_inv (r : Room) : reachable r → server_inv r.
Proof.
  induction 1 as [code0 central0 count dur Hsch | e r Hr IH].
  - by apply createRoom_server_inv.
  - by apply handle_server_inv.
Qed.

Lemma reachable_runEvents (es : list Event) (r : Room) :
  reachable r → reachable (runEvents es r).
Proof.
  revert r. induction es as [|e es IH]; intros r Hr; [done |].
  apply IH. by apply reach_handle.
Qed.

Lemma served_reachable : reachable served.
Proof. apply reachable_runEvents. by apply reach_create. Qed.

(** X7. In every room the server can hold, the keys of the stations map are
    exactly [1..stationsCount], every slot carries the key it is stored under
    as its [id], and no slot is owned by the empty client id. *)
Theorem reachable_structure (r : Room) :
  reachable r → keysContiguous r ∧ idsMatchKeys r ∧ ownersNonEmpty r.
Proof. intros H. by destruct (reachable_server_inv r H) as [? _]. Qed.

Lemma reachable_structure_witness :
  keysContiguous served ∧ idsMatchKeys served ∧ ownersNonEmpty served.
Proof. apply (reachable_structure served). exact served_reachable. Defined.

(** X8. The configuration of a served room stays within the schemas:
    [stationsCount] in [0..200] (compaction can bring it to 0) and
    [roundDurationSec] in [10..36000].  In particular the bound 200 of the
    delete loop of [updateConfig] covers every slot the room can have. *)
Theorem reachable_config (r : Room) :
  reachable r → 0 ≤ stationsCount r ≤ 200 ∧ 10 ≤ roundDurationSec r ≤ 36000.
Proof. intros H. by destruct (reachable_server_inv r H) as (_ & ? & _). Qed.

Lemma reachable_config_witness :
  0 ≤ stationsCount served ≤ 200 ∧ 10 ≤ roundDurationSec served ≤ 36000.
Proof. apply (reachable_config served). exact served_reachable. Defined.

(** X9. The clock fields of a served room go with its state: while WAITING,
    [startedAt] and [timeLeft] are unset and both warning latches are clear;
    while RUNNING or ENDED, [startedAt] is set and [timeLeft] is set and not
    negative.  So the fallbacks of the code for a missing [startedAt] (in
    [tick] and [stopRound]) and a missing [timeLeft] (in [resumeRound]) are
    never taken. *)
Theorem reachable_clock (r : Room) :
  reachable r →
  (state r = WAITING →
   startedAt r = None ∧ timeLeft r = None ∧ warned30 r = false ∧ warned60 r = false)
  ∧ (state r ≠ WAITING →
     is_Some (startedAt r) ∧ ∃ tl, timeLeft r = Some tl ∧ 0 ≤ tl).
Proof.
  intros H. destruct (reachable_server_inv r H) as (_ & _ & Hc & _).
  unfold clock_inv in Hc. destruct (state r); split; try done.
Qed.

Lemma reachable_clock_witness :
  is_Some (startedAt served) ∧ ∃ tl, timeLeft served = Some tl ∧ 0 ≤ tl.
Proof.
  apply (reachable_clock served); [exact served_reachable |].
  vm_compute. discriminate.
Defined.

(** X10. The [timeLeft] of the snapshot of a served room is always the
    stored [timeLeft]: [serialize] never computes it from the clock, since
    whenever [startedAt] is set [timeLeft] is set too. *)
Theorem snapshot_timeLeft_stored (now : Z) (r : Room) :
  reachable r → snapshotTimeLeft now r = timeLeft r.
Proof.
  intros H. destruct (reachable_server_inv r H) as (_ & _ & Hc & _).
  unfold clock_inv in Hc. unfold snapshotTimeLeft.
  destruct (state r).
  - destruct Hc as (-> & -> & _). done.
  - destruct Hc as (_ & tl & -> & _). done.
  - destruct Hc as (_ & tl & -> & _). done.
Qed.

Lemma snapshot_timeLeft_stored_witness :
  snapshotTimeLeft 60000 served = Some 65.
Proof.
  rewrite (snapshot_timeLeft_stored 60000 served served_reachable).
  vm_compute. reflexivity.
Defined.

(** ** The interval timer *)

Lemma handle_interval (e : Event) (r : Room) :
  interval (handle e r) = interval r ∨ interval (handle e r) = None ∨ state r ≠ RUNNING.
Proof.
  assert (Hauto : ∀ now h x, state x = state r → interval x = interval r →
            interval (autoStart now h x).1 = interval r ∨ state r ≠ RUNNING).
  { intros now h x Hs Hi. rewrite autoStart_eq. cbn [fst].
    destruct (allClaimedAndReady x); cbn [andb]; [|by left].
    case_bool_decide as Hw; [|by left]. right. congruence. }
  unfold handle. case_bool_decide as Hs; [by left |].
  destruct e.
  - unfold central_updateConfig. destruct (negb (configSchema _ _)); [by left |].
    rewrite requireCentral_eq. destruct (String.eqb _ _); [|by left].
    destruct (negb granted); [by left |]. unfold updateConfig. run.
    destruct (negb (bool_decide (state r = WAITING))); [by left |].
    destruct (existsb _ _); by left.
  - unfold central_removeStation. run. rewrite requireCentral_eq.
    destruct (String.eqb _ _); [|by left].
    destruct ((stationId <? 1) || (stationsCount r <? stationId)); [by left |].
    destruct (stations r !! stationId); [|by left].
    destruct (bool_decide (state r = RUNNING)); [by left |].
    pose proof (renumberCompact_round stationId r) as Hr'. cbv zeta in Hr'.
    destruct (renumberCompactIfWaiting stationId r) as [r' out]. cbn [fst] in *.
    left. apply Hr'.
  - unfold central_skipRound. run. rewrite requireCentral_eq.
    destruct (String.eqb _ _); [|by left].
    destruct (negb (bool_decide (state r = RUNNING))); [by left |]. cbn [fst].
    right. left. rewrite maybeApply_after_reset.
    by destruct (resetToWaiting_fields (immediateEnd r)) as (_ & _ & _ & _ & _ & -> & _).
  - unfold central_pauseRound, stopRound. run. rewrite requireCentral_eq.
    destruct (String.eqb _ _); [|by left].
    destruct (negb (bool_decide (state r = RUNNING))); [by left | by right; left].
  - unfold central_resumeRound, resumeRound. run. rewrite requireCentral_eq.
    destruct (String.eqb _ _); [|by left].
    destruct (decide (state r = ENDED)) as [He|He].
    + right. right. congruence.
    + rewrite bool_decide_eq_false_2 by done. by left.
  - unfold central_resetRoom. run. rewrite requireCentral_eq.
    destruct (String.eqb _ _); [|by left]. cbn [fst]. right. left.
    by destruct (resetToWaiting_fields (set_interval None r))
      as (_ & _ & _ & _ & _ & -> & _).
  - destruct (joinSchema stationId); [|by left]. unfold station_join. run.
    destruct (negb (truthy_num _)); [by left |].
    destruct (match stationId with Some s => Some s | None => bindings r !! cid end)
      as [t|]; [|by left].
    destruct (stations r !! t); [|by left].
    destruct (truthy_str _ && str_neq _ _); [by left |].
    destruct (Hauto now h (set_bindings (<[cid := t]> (bindings r))
                             (set_stations (alter (claimSlot cid) t (stations r)) r))
                eq_refl eq_refl) as [H|H]; [by left | by right; right].
  - unfold station_leave. run.
    destruct (negb (truthy_num _)); [by left |].
    destruct (bindings r !! cid) as [s|]; [|by left]. cbn [fst].
    destruct (bool_decide _); cbn [fst]; [by left |].
    left. by destruct (tailCompact_fields
      (set_bindings (delete cid (bindings r))
         (set_stations (alter clearSlot s (stations r)) r))) as (_ & _ & -> & _).
  - unfold station_setReady, setReady. run.
    destruct (negb (truthy_num _)).
    { destruct (Hauto now h r eq_refl eq_refl) as [H|H]; [by left | by right; right]. }
    destruct (bindings r !! cid) as [s|].
    2: { destruct (Hauto now h r eq_refl eq_refl) as [H|H]; [by left | by right; right]. }
    destruct (stations r !! s); [|by left].
    destruct (Hauto now h (set_stations (alter (set_ready rdy) s (stations r)) r)
                eq_refl eq_refl) as [H|H]; [by left | by right; right].
  - unfold onClientDisconnect. destruct (truthy_num _); [|by left].
    destruct (bindings r !! cid); by left.
  - destruct (interval r) as [h0|] eqn:Hi; [|by left]. unfold exec. rewrite onInterval_eq.
    destruct (startedAt r) as [sa|]; [|by left].
    destruct (bool_decide (state r = RUNNING)); [|by left].
    destruct (Z.eqb_spec (remaining (roundDurationSec r) now sa) 0) as [H0|H0].
    + right. left.
      destruct (resetToWaiting_fields (ticked now sa r)) as (_ & _ & _ & _ & _ & -> & _).
      unfold ticked. cbn [interval]. by rewrite H0.
    + left. unfold ticked. cbn [interval].
      by destruct (Z.eqb_spec (remaining (roundDurationSec r) now sa) 0).
Qed.

(** X11. The interval timer of a served room is armed exactly while the
    round is RUNNING, and no event replaces an armed timer by another one:
    the handle either stays or is cleared, so no timer is left running
    behind a room that moved on. *)
Theorem reachable_timer (r : Room) :
  reachable r →
  (is_Some (interval r) ↔ state r = RUNNING)
  ∧ ∀ e h h', interval r = Some h → interval (handle e r) = Some h' → h' = h.
Proof.
  intros H. destruct (reachable_server_inv r H) as (_ & _ & _ & Ht).
  split; [exact Ht |]. intros e h h' Hi Hi'.
  destruct (handle_interval e r) as [E|[E|E]].
  - congruence.
  - congruence.
  - exfalso. apply E, Ht. eauto.
Qed.

Lemma reachable_timer_witness :
  is_Some (interval served) ↔ state served = RUNNING.
Proof. apply (reachable_timer served). exact served_reachable. Defined.

(** * More on the tick engine *)

Lemma firedList_up_count (b60 b30 bup : bool) :
  timesFired OnTimeUp (firedList b60 b30 bup) = (if bup then 1 else 0)%nat.
Proof. by destruct b60, b30, bup. Qed.

Lemma runTicks_idle (nows : list Z) (r : Room) :
  state r ≠ RUNNING → runTicks nows r = (r, []).
Proof.
  intros Hs. induction nows as [|now rest IH]; [done |].
  cbn [runTicks]. rewrite tick_idle by (by left). cbn [fst snd fired]. by rewrite IH.
Qed.

(** X12. The time-up callback fires at most once over any sequence of
    ticks; when it has fired, the round is ENDED with [timeLeft = 0] and the
    timer handle cleared; and outside RUNNING ticks change nothing and fire
    nothing. *)
Theorem timeUp_once (nows : list Z) (r : Room) :
  (timesFired OnTimeUp (runTicks nows r).2 ≤ 1)%nat
  ∧ (OnTimeUp ∈ (runTicks nows r).2 →
     state (runTicks nows r).1 = ENDED
     ∧ timeLeft (runTicks nows r).1 = Some 0
     ∧ interval (runTicks nows r).1 = None)
  ∧ (state r ≠ RUNNING → runTicks nows r = (r, [])).
Proof.
  split; [|split; [|apply runTicks_idle]]; revert r.
  - induction nows as [|now rest IH]; intros r; [simpl; lia |].
    cbn [runTicks snd]. rewrite timesFired_app.
    destruct (decide (state r = RUNNING)) as [Hs|Hs];
      [destruct (startedAt r) as [sa|] eqn:Hsa|].
    + rewrite (tick_running now sa r Hs Hsa). cbn [fst snd fired].
      rewrite firedList_up_count.
      destruct (Z.eqb_spec (remaining (roundDurationSec r) now sa) 0) as [H0|H0].
      * rewrite runTicks_idle; [simpl; lia |].
        unfold ticked. cbn [state]. by rewrite H0.
      * specialize (IH (ticked now sa r)). lia.
    + rewrite tick_idle by (by right). cbn [fst snd fired]. apply IH.
    + rewrite tick_idle by (by left). cbn [fst snd fired]. apply IH.
  - induction nows as [|now rest IH]; intros r; [by intros H%elem_of_nil |].
    cbn [runTicks fst snd].
    destruct (decide (state r = RUNNING)) as [Hs|Hs];
      [destruct (startedAt r) as [sa|] eqn:Hsa|].
    + rewrite (tick_running now sa r Hs Hsa). cbn [fst snd fired].
      destruct (Z.eqb_spec (remaining (roundDurationSec r) now sa) 0) as [H0|H0].
      * intros _. rewrite runTicks_idle by (unfold ticked; cbn [state]; by rewrite H0).
        unfold ticked. cbn [fst state timeLeft interval]. by rewrite H0.
      * rewrite elem_of_app. intros [Hin|Hin]; [|by apply IH].
        apply firedList_up in Hin. discriminate.
    + rewrite tick_idle by (by right). cbn [fst snd fired app]. apply IH.
    + rewrite tick_idle by (by left). cbn [fst snd fired app]. apply IH.
Qed.

Lemma timeUp_once_witness :
  runTicks [1000; 2000] (exec (stopRound 500) round65) = (exec (stopRound 500) round65, []).
Proof.
  apply (timeUp_once [1000; 2000] (exec (stopRound 500) round65)).
  vm_compute. discriminate.
Defined.

Lemma onInterval_running (now sa : Z) (r : Room) :
  state r = RUNNING → startedAt r = Some sa →
  let tl := remaining (roundDurationSec r) now sa in
  onInterval now r
  = (if tl =? 0 then resetToWaiting (ticked now sa r) else ticked now sa r,
     inr (firedList (negb (warned60 r) && (60 <=? roundDurationSec r) && (tl =? 60))
                    (negb (warned30 r) && (tl =? 30) && (30 <? roundDurationSec r))
                    (tl =? 0))).
Proof.
  intros Hs Hsa tl. unfold onInterval, mbind, M_bind.
  rewrite (tick_running now sa r Hs Hsa). fold tl.
  destruct (Z.eqb_spec tl 0) as [H0|H0].
  - rewrite (bool_decide_eq_true_2 (OnTimeUp ∈ _)) by (by apply firedList_up). done.
  - rewrite (bool_decide_eq_false_2 (OnTimeUp ∈ _)); [done |]. by intros H%firedList_up.
Qed.

(** X13. Natural completion.  When the interval callback runs on a RUNNING
    room whose whole duration has elapsed, the time-up callback fires and the
    room is back in WAITING at once: clock and [timeLeft] unset, no timer, no
    pending compaction, every ready flag cleared, bindings kept.  Before
    that, the callback only refreshes [timeLeft = roundDurationSec - elapsed]
    and the room stays RUNNING with its stations and its timer. *)
Theorem interval_time_up (now sa : Z) (r : Room) :
  state r = RUNNING → startedAt r = Some sa →
  let r' := (onInterval now r).1 in
  (roundDurationSec r ≤ (now - sa) `div` 1000 →
   OnTimeUp ∈ fired (onInterval now r)
   ∧ state r' = WAITING ∧ startedAt r' = None ∧ timeLeft r' = None
   ∧ interval r' = None ∧ pendingCompaction r' = false
   ∧ bindings r' = bindings r
   ∧ ∀ i s, stations r' !! i = Some s → ready s = false)
  ∧ ((now - sa) `div` 1000 < roundDurationSec r →
     (OnTimeUp ∉ fired (onInterval now r))
     ∧ state r' = RUNNING
     ∧ timeLeft r' = Some (roundDurationSec r - (now - sa) `div` 1000)
     ∧ stations r' = stations r ∧ stationsCount r' = stationsCount r
     ∧ bindings r' = bindings r ∧ interval r' = interval r).
Proof.
  intros Hs Hsa r'. subst r'. rewrite (onInterval_running now sa r Hs Hsa).
  cbn [fst snd fired]. split.
  - intros He.
    assert (remaining (roundDurationSec r) now sa = 0) as -> by (unfold remaining; lia).
    cbn [Z.eqb]. split; [by apply firedList_up |].
    destruct (resetToWaiting_fields (ticked now sa r))
      as (-> & -> & -> & _ & _ & -> & _ & -> & -> & _).
    unfold ticked. cbn [interval bindings].
    assert (remaining (roundDurationSec r) now sa = 0) as -> by (unfold remaining; lia).
    repeat split; try done. apply resetToWaiting_ready.
  - intros He.
    assert (Htl : remaining (roundDurationSec r) now sa
                  = roundDurationSec r - (now - sa) `div` 1000)
      by (unfold remaining; lia).
    destruct (Z.eqb_spec (remaining (roundDurationSec r) now sa) 0) as [H0|H0]; [lia |].
    split; [by intros H%firedList_up |].
    unfold ticked. cbn [state timeLeft stations stationsCount bindings interval].
    destruct (Z.eqb_spec (remaining (roundDurationSec r) now sa) 0); [done |].
    by rewrite Htl.
Qed.

Lemma interval_time_up_witness :
  state (onInterval 65000 round65).1 = WAITING
  ∧ timeLeft (onInterval 64000 round65).1 = Some 1.
Proof.
  pose proof (interval_time_up 65000 0 round65 eq_refl eq_refl) as [H1 _].
  pose proof (interval_time_up 64000 0 round65 eq_refl eq_refl) as [_ H2].
  split.
  - apply H1. vm_compute. discriminate.
  - destruct H2 as (_ & _ & H2 & _); [vm_compute; reflexivity |]. exact H2.
Defined.

(** * More on the compaction engine *)

Lemma tailScan_stops (st : gmap Z StationSlot) (n : nat) :
  tailScan st n = O
  ∨ ∃ s, st !! Z.of_nat (tailScan st n) = Some s ∧ blank s = false.
Proof.
  induction n as [|n IH]; [by left |].
  cbn [tailScan]. destruct (st !! Z.of_nat (S n)) as [s|] eqn:Hs; [|exact IH].
  destruct (truthy_str (ownerClientId s) || ready s || connected s) eqn:Hb; [|exact IH].
  right. exists s. split; [done |]. unfold blank. by rewrite Hb.
Qed.

Lemma tailScan_fixed (st : gmap Z StationSlot) (n : nat) (s : StationSlot) :
  st !! Z.of_nat n = Some s → blank s = false → tailScan st n = n.
Proof.
  intros Hs Hb. destruct n as [|n]; [done |]. cbn [tailScan]. rewrite Hs.
  unfold blank in Hb. apply negb_false_iff in Hb. by rewrite Hb.
Qed.

Lemma tailCompact_not_waiting (r : Room) :
  state r ≠ WAITING → tailCompactIfWaiting r = r.
Proof. intros Hs. unfold tailCompactIfWaiting. by rewrite bool_decide_eq_false_2. Qed.

Lemma tailCompact_waiting (r : Room) :
  state r = WAITING → 0 < stationsCount r →
  let m := Z.of_nat (tailScan (stations r) (Z.to_nat (stationsCount r))) in
  tailCompactIfWaiting r
  = if m <? stationsCount r
    then set_stationsCount m
           (set_stations (foldl (λ m i, delete i m) (stations r)
                                (seqZ (m + 1) (stationsCount r - m))) r)
    else r.
Proof.
  intros Hs Hn m. unfold tailCompactIfWaiting.
  rewrite bool_decide_eq_true_2 by done. cbn [negb].
  destruct (Z.ltb_spec 0 (stationsCount r)); [done | lia].
Qed.

Lemma tailCompact_char (r : Room) :
  (state r ≠ WAITING → tailCompactIfWaiting r = r)
  ∧ (state r = WAITING → 0 < stationsCount r →
     let r' := tailCompactIfWaiting r in
     let m := stationsCount r' in
     0 ≤ m ≤ stationsCount r
     ∧ (∀ i, stations r' !! i
             = if bool_decide (m < i ≤ stationsCount r) then None else stations r !! i)
     ∧ (∀ i s, m < i ≤ stationsCount r → stations r !! i = Some s → blank s = true)
     ∧ (0 < m → ∃ s, stations r !! m = Some s ∧ blank s = false)
     ∧ bindings r' = bindings r ∧ state r' = WAITING
     ∧ tailCompactIfWaiting r' = r').
Proof.
  split; [apply tailCompact_not_waiting |]. intros Hs Hn r' m.
  pose proof (tailCompact_waiting r Hs Hn) as Hrun. cbv zeta in Hrun.
  destruct (tailScan_spec (stations r) (Z.to_nat (stationsCount r))) as [Hle Hblank].
  pose proof (tailScan_stops (stations r) (Z.to_nat (stationsCount r))) as Hstop.
  set (k := tailScan (stations r) (Z.to_nat (stationsCount r))) in *.
  assert (Hm : m = Z.of_nat k).
  { subst m r'. rewrite Hrun. destruct (Z.ltb_spec (Z.of_nat k) (stationsCount r)); [done |].
    lia. }
  assert (Hlk : ∀ i, stations r' !! i
                = if bool_decide (m < i ≤ stationsCount r) then None else stations r !! i).
  { intros i. rewrite Hm. subst r'. rewrite Hrun.
    destruct (Z.ltb_spec (Z.of_nat k) (stationsCount r)).
    - cbn [stations set_stationsCount set_stations]. rewrite lookup_foldl_delete.
      destruct (decide (Z.of_nat k < i ≤ stationsCount r)).
      + rewrite !bool_decide_eq_true_2; [done | done | apply elem_of_seqZ; lia].
      + rewrite !bool_decide_eq_false_2; [done | done | rewrite elem_of_seqZ; lia].
    - rewrite bool_decide_eq_false_2; [done | lia]. }
  assert (Hst : state r' = WAITING ∧ bindings r' = bindings r).
  { subst r'. rewrite Hrun. by destruct (_ <? _). }
  assert (Hnb : 0 < m → ∃ s, stations r !! m = Some s ∧ blank s = false).
  { intros Hpos. rewrite Hm. destruct Hstop as [H0|H]; [lia | exact H]. }
  split; [lia |]. split; [exact Hlk |]. split; [|split; [exact Hnb |]].
  - intros i s Hi His. rewrite Hm in Hi.
    destruct (Hblank i s ltac:(lia) His) as (H1 & H2 & H3).
    unfold blank. by rewrite H1, H2, H3.
  - split; [apply Hst |]. split; [apply Hst |].
    destruct (Z.ltb_spec 0 m) as [Hpos|Hz].
    + destruct (Hnb Hpos) as (s & Hs' & Hb).
      rewrite (tailCompact_waiting r' (proj1 Hst) Hpos). fold m.
      assert (stations r' !! m = Some s) as Hs''.
      { rewrite Hlk. rewrite bool_decide_eq_false_2; [done | lia]. }
      rewrite (tailScan_fixed (stations r') (Z.to_nat m) s);
        [| by rewrite Z2Nat.id by lia | done].
      rewrite Z2Nat.id by lia. by rewrite Z.ltb_irrefl.
    + unfold tailCompactIfWaiting. rewrite bool_decide_eq_true_2 by apply Hst.
      cbn [negb]. fold m. destruct (Z.ltb_spec 0 m); [lia |]. by rewrite Z.ltb_irrefl.
Qed.

(** X14. Tail compaction drops exactly the trailing run of blank slots.  In
    a WAITING room with a positive count, the new count [m] is at most the
    old one, every slot above [m] was blank (unclaimed, not ready, not
    connected) or missing and is gone, every slot up to [m] is untouched (no
    interior slot is renumbered or removed), and the slot [m] itself, if
    [m > 0], is not blank.  Compacting again changes nothing, and outside
    WAITING tail compaction does nothing at all. *)
Theorem tailCompact_spec (r : Room) :
  (state r ≠ WAITING → tailCompactIfWaiting r = r)
  ∧ (state r = WAITING → 0 < stationsCount r →
     let r' := tailCompactIfWaiting r in
     let m := stationsCount r' in
     0 ≤ m ≤ stationsCount r
     ∧ (∀ i, stations r' !! i
             = if bool_decide (m < i ≤ stationsCount r) then None else stations r !! i)
     ∧ (∀ i s, m < i ≤ stationsCount r → stations r !! i = Some s → blank s = true)
     ∧ (0 < m → ∃ s, stations r !! m = Some s ∧ blank s = false)
     ∧ bindings r' = bindings r ∧ state r' = WAITING
     ∧ tailCompactIfWaiting r' = r').
Proof. exact (tailCompact_char r). Qed.

Lemma tailCompact_spec_witness :
  stationsCount (tailCompactIfWaiting room2a) = 1
  ∧ tailCompactIfWaiting (tailCompactIfWaiting room2a) = tailCompactIfWaiting room2a.
Proof.
  pose proof (proj2 (tailCompact_spec room2a) eq_refl ltac:(vm_compute; reflexivity)) as H.
  cbv zeta in H. destruct H as (_ & _ & _ & _ & _ & _ & H).
  split; [vm_compute; reflexivity | exact H].
Defined.

(** X15. Deferred compaction.  When the controller removes a station of a
    RUNNING room, only that slot is cleared: the count, the other slots, the
    bindings and the state stay as they are and the compaction is marked
    pending.  The controller's next reset then applies the tail compaction:
    the room is WAITING with nothing pending, the count has not grown, and if
    the removed station was the top one the count is below it. *)
Theorem removeStation_deferred (sid : Z) (slot : StationSlot) (r : Room) :
  state r = RUNNING → 1 ≤ sid ≤ stationsCount r → stations r !! sid = Some slot →
  let c := centralClientId r in
  let r1 := (central_removeStation c sid r).1 in
  let r2 := (central_resetRoom c r1).1 in
  stationsCount r1 = stationsCount r ∧ state r1 = RUNNING
  ∧ pendingCompaction r1 = true ∧ bindings r1 = bindings r
  ∧ stations r1 !! sid = Some (clearSlot slot)
  ∧ (∀ i, i ≠ sid → stations r1 !! i = stations r !! i)
  ∧ state r2 = WAITING ∧ pendingCompaction r2 = false
  ∧ stationsCount r2 ≤ stationsCount r
  ∧ (sid = stationsCount r → stationsCount r2 < sid).
Proof.
  intros Hs Hsid Hslot c r1 r2.
  assert (Hr1 : r1 = set_pendingCompaction true
                       (set_stations (alter clearSlot sid (stations r)) r)).
  { subst r1 c. unfold central_removeStation. run. rewrite requireCentral_eq.
    rewrite String.eqb_refl.
    destruct (sid <? 1) eqn:E1; [lia |].
    destruct (stationsCount r <? sid) eqn:E2; [lia |]. cbn [orb].
    rewrite Hslot. rewrite bool_decide_eq_true_2 by done. done. }
  assert (Hr2 : r2 = resetToWaiting (set_interval None r1)).
  { subst r2 c. unfold central_resetRoom. run. rewrite requireCentral_eq.
    rewrite Hr1. cbn [centralClientId set_pendingCompaction set_stations].
    rewrite String.eqb_refl. done. }
  rewrite Hr1. cbn [stationsCount state pendingCompaction bindings stations
                    set_pendingCompaction set_stations].
  do 4 (split; [done |]).
  split; [by rewrite lookup_alter_eq, Hslot |].
  split; [intros i Hi; by rewrite lookup_alter_ne |].
  rewrite Hr2.
  destruct (resetToWaiting_fields (set_interval None r1))
    as (-> & _ & _ & _ & _ & _ & _ & _ & -> & _).
  do 2 (split; [done |]).
  rewrite resetToWaiting_unfold.
  assert (pendingCompaction (set_interval None r1) = true) as -> by (by rewrite Hr1).
  destruct (set_pendingCompaction_fields false
              (tailCompactIfWaiting (roundCleared (set_interval None r1))))
    as (_ & _ & _ & _ & _ & _ & _ & _ & _ & _ & _ & ->).
  set (x := roundCleared (set_interval None r1)).
  assert (Hxs : state x = WAITING) by done.
  assert (Hxc : stationsCount x = stationsCount r) by (subst x; by rewrite Hr1).
  assert (Hxn : 0 < stationsCount x) by lia.
  pose proof (proj2 (tailCompact_char x) Hxs Hxn) as Hspec. cbv zeta in Hspec.
  destruct Hspec as (Hm & _ & _ & Hnb & _). rewrite Hxc in Hm.
  split; [lia |]. intros ->.
  destruct (Z.eq_dec (stationsCount (tailCompactIfWaiting x)) (stationsCount r))
    as [Heq|Hneq]; [|lia].
  exfalso. destruct Hnb as (s & Hs' & Hb); [lia |]. rewrite Heq in Hs'.
  assert (stations x !! stationsCount r
          = Some (set_ready false (clearSlot slot))) as Hx.
  { subst x. rewrite Hr1.
    cbn [roundCleared stations set_warned60 set_warned30 set_timeLeft set_startedAt
         set_state set_stations set_interval set_pendingCompaction].
    by rewrite lookup_fmap, lookup_alter_eq, Hslot. }
  rewrite Hx in Hs'. injection Hs' as <-. done.
Qed.

Lemma removeStation_deferred_witness :
  let r1 := (central_removeStation "central" 2 round65).1 in
  stationsCount r1 = 2 ∧ stationsCount (central_resetRoom "central" r1).1 < 2.
Proof.
  pose proof (removeStation_deferred 2 (mkSlot 2 (Some "b") true true) round65
                eq_refl ltac:(vm_compute; split; discriminate) eq_refl) as H.
  cbv zeta in H. destruct H as (H1 & _ & _ & _ & _ & _ & _ & _ & _ & H2).
  split; [exact H1 | by apply H2].
Defined.

(** * More on the handlers *)

(** X16. Skip.  On a RUNNING room the controller's skip ends the round and
    resets the room in one step: the room is what [resetToWaiting] makes of
    the ended round (the second [maybeApplyPendingCompaction] of the handler
    finds nothing left to do), so it is WAITING with clock, [timeLeft], timer
    and pending compaction cleared and every ready flag off.  On a room that
    is not RUNNING the skip fails with [E_BAD_STATE] and changes nothing. *)
Theorem skipRound_resets (r : Room) :
  let c := centralClientId r in
  (state r = RUNNING →
   central_skipRound c r = (resetToWaiting (immediateEnd r), inr tt)
   ∧ let r' := (central_skipRound c r).1 in
     state r' = WAITING ∧ startedAt r' = None ∧ timeLeft r' = None
     ∧ interval r' = None ∧ pendingCompaction r' = false
     ∧ bindings r' = bindings r
     ∧ ∀ i s, stations r' !! i = Some s → ready s = false)
  ∧ (state r ≠ RUNNING → central_skipRound c r = (r, inl E_BAD_STATE)).
Proof.
  intros c. subst c.
  assert (Hrun : state r = RUNNING →
                 central_skipRound (centralClientId r) r
                 = (resetToWaiting (immediateEnd r), inr tt)).
  { intros Hs. unfold central_skipRound. run. rewrite requireCentral_eq.
    rewrite String.eqb_refl. rewrite bool_decide_eq_true_2 by done. cbn [negb].
    by rewrite maybeApply_after_reset. }
  split.
  - intros Hs. split; [by apply Hrun |]. rewrite (Hrun Hs). cbn [fst].
    destruct (resetToWaiting_fields (immediateEnd r))
      as (-> & -> & -> & _ & _ & -> & _ & -> & -> & _).
    repeat split; try done. apply resetToWaiting_ready.
  - intros Hs. unfold central_skipRound. run. rewrite requireCentral_eq.
    rewrite String.eqb_refl. by rewrite bool_decide_eq_false_2.
Qed.

Lemma skipRound_resets_witness :
  state (central_skipRound "central" round65).1 = WAITING
  ∧ central_skipRound "central" readyRoom2 = (readyRoom2, inl E_BAD_STATE).
Proof.
  pose proof (skipRound_resets round65) as [H1 _].
  pose proof (skipRound_resets readyRoom2) as [_ H2].
  split.
  - destruct (H1 eq_refl) as (_ & H & _). exact H.
  - apply H2. vm_compute. discriminate.
Defined.

Lemma setReady_cases (c : string) (rdy : bool) (r : Room) :
  (bindings r !! c = None → setReady c rdy r = (r, inr tt))
  ∧ (∀ s slot, bindings r !! c = Some s → s ≠ 0 → stations r !! s = Some slot →
       setReady c rdy r
       = (set_stations (<[s := set_ready rdy slot]> (stations r)) r, inr tt))
  ∧ (∀ s, bindings r !! c = Some s → s ≠ 0 → stations r !! s = None →
       setReady c rdy r = (r, inl TypeError)).
Proof.
  split; [|split].
  - intros Hb. unfold setReady. run. by rewrite Hb.
  - intros s slot Hb Hs Hslot. unfold setReady. run. rewrite Hb. cbn [truthy_num].
    destruct (Z.eqb_spec s 0); [done |]. cbn [negb]. rewrite Hslot.
    do 2 f_equal. apply map_eq. intros i. destruct (decide (i = s)) as [->|Hne].
    + by rewrite lookup_alter_eq, lookup_insert_eq, Hslot.
    + by rewrite lookup_alter_ne, lookup_insert_ne.
  - intros s Hb Hs Hslot. unfold setReady. run. rewrite Hb. cbn [truthy_num].
    destruct (Z.eqb_spec s 0); [done |]. cbn [negb]. by rewrite Hslot.
Qed.

(** X17. [setReady] touches one flag.  For a client without a binding it
    does nothing and does not fail; for a client bound to an existing slot it
    sets the ready flag of that slot and leaves every other slot, the owners,
    the bindings and the round untouched; for a client whose binding points
    to a slot that is gone it throws (a [TypeError]) and changes nothing. *)
Theorem setReady_effect (c : string) (rdy : bool) (r : Room) :
  (bindings r !! c = None → setReady c rdy r = (r, inr tt))
  ∧ (∀ s slot, bindings r !! c = Some s → s ≠ 0 → stations r !! s = Some slot →
       setReady c rdy r
       = (set_stations (<[s := set_ready rdy slot]> (stations r)) r, inr tt))
  ∧ (∀ s, bindings r !! c = Some s → s ≠ 0 → stations r !! s = None →
       setReady c rdy r = (r, inl TypeError)).
Proof. exact (setReady_cases c rdy r). Qed.

Lemma setReady_effect_witness :
  setReady "a" true room2a
  = (set_stations (<[1 := mkSlot 1 (Some "a") true true]> (stations room2a)) room2a,
     inr tt)
  ∧ setReady "zoe" true room2a = (room2a, inr tt).
Proof.
  pose proof (setReady_effect "a" true room2a) as (_ & H1 & _).
  pose proof (setReady_effect "zoe" true room2a) as (H2 & _).
  split.
  - apply (H1 1 (mkSlot 1 (Some "a") false true)); [reflexivity | lia | reflexivity].
  - apply H2. reflexivity.
Defined.

(** X18. Auto-start.  In a WAITING room where every other slot is claimed and
    ready, the owner of the last slot setting it ready starts the round
    without any start command: the room is RUNNING from [now] with the full
    [timeLeft], clear latches and the timer armed.  And a ready toggle starts
    nothing as long as some slot is not claimed and ready. *)
Theorem setReady_auto_start (c : string) (s : Z) (slot : StationSlot)
    (now : Z) (h : Timeout) (r : Room) :
  state r = WAITING →
  bindings r !! c = Some s → 1 ≤ s ≤ stationsCount r →
  stations r !! s = Some slot → truthy_str (ownerClientId slot) = true →
  let r1 := set_stations (<[s := set_ready true slot]> (stations r)) r in
  ((∀ i, 1 ≤ i ≤ stationsCount r → i ≠ s → claimedAndReady (stations r) i = true) →
   station_setReady c true now h r = (set_interval (Some h) (started now r1), inr tt))
  ∧ ((∃ i, 1 ≤ i ≤ stationsCount r ∧ i ≠ s ∧ claimedAndReady (stations r) i = false) →
     station_setReady c true now h r = (r1, inr tt)).
Proof.
  intros Hs Hb Hsr Hslot Hown r1.
  assert (Hset : setReady c true r = (r1, inr tt)).
  { apply (proj1 (proj2 (setReady_cases c true r)) s slot); [done | lia | done]. }
  assert (Hstep : station_setReady c true now h r = autoStart now h r1).
  { unfold station_setReady, mbind, M_bind. by rewrite Hset. }
  rewrite Hstep, autoStart_eq.
  assert (Hst1 : state r1 = WAITING) by done.
  rewrite (bool_decide_eq_true_2 (state r1 = WAITING)) by done. rewrite andb_true_r.
  split.
  - intros Hall.
    assert (allClaimedAndReady r1 = true) as ->; [|done].
    unfold allClaimedAndReady. apply forallb_forall. intros i Hi.
    apply list_elem_of_In, elem_of_seqZ in Hi. unfold claimedAndReady.
    subst r1. cbn [stations stationsCount set_stations] in *.
    destruct (decide (i = s)) as [->|Hne].
    + rewrite lookup_insert_eq. cbn [ownerClientId ready set_ready]. by rewrite Hown.
    + rewrite lookup_insert_ne by done. apply (Hall i); [lia | done].
  - intros (i & Hi & Hne & Hno).
    assert (allClaimedAndReady r1 = false) as ->; [|done].
    apply not_true_is_false. intros Hall.
    unfold allClaimedAndReady in Hall. rewrite forallb_forall in Hall.
    specialize (Hall i). unfold claimedAndReady in Hall, Hno.
    subst r1. cbn [stations stationsCount set_stations] in *.
    rewrite lookup_insert_ne in Hall by done.
    rewrite Hall in Hno; [done |]. apply list_elem_of_In, elem_of_seqZ. lia.
Qed.

Lemma setReady_auto_start_witness :
  let r := exec (setReady "a" true) (exec (station_join "b" (Some 2) 0 0%nat) room2a) in
  state (station_setReady "b" true 9 4%nat r).1 = RUNNING.
Proof.
  intros r.
  pose proof (setReady_auto_start "b" 2 (mkSlot 2 (Some "b") false true) 9 4%nat r
                eq_refl eq_refl ltac:(vm_compute; split; discriminate) eq_refl eq_refl)
    as [H _].
  cbv zeta in H. rewrite H; [reflexivity |].
  intros i Hi Hne. change (stationsCount r) with 2 in Hi.
  assert (i = 1) as -> by lia. reflexivity.
Defined.

(** X19. Only the controller commands the room.  Each of the six
    [central:*] handlers answers [E_NOT_CENTRAL] to a caller that is not the
    room's [centralClientId], and leaves the room as it was. *)
Theorem central_only (c : string) (r : Room) :
  c ≠ centralClientId r →
  (∀ count dur granted, configSchema count dur = true →
     central_updateConfig c count dur granted r = (r, inl (Thrown E_NOT_CENTRAL)))
  ∧ (∀ sid, central_removeStation c sid r = (r, inl E_NOT_CENTRAL))
  ∧ central_skipRound c r = (r, inl E_NOT_CENTRAL)
  ∧ (∀ now, central_pauseRound c now r = (r, inl E_NOT_CENTRAL))
  ∧ (∀ now h, central_resumeRound c now h r = (r, inl E_NOT_CENTRAL))
  ∧ central_resetRoom c r = (r, inl E_NOT_CENTRAL).
Proof.
  intros Hc.
  assert (Hreq : requireCentral c r = (r, inl E_NOT_CENTRAL)).
  { rewrite requireCentral_eq. destruct (String.eqb_spec (centralClientId r) c); [|done].
    congruence. }
  split; [|split; [|split; [|split; [|split]]]].
  - intros count dur granted Hsch. unfold central_updateConfig. by rewrite Hsch, Hreq.
  - intros sid. unfold central_removeStation, mbind, M_bind. by rewrite Hreq.
  - unfold central_skipRound, mbind, M_bind. by rewrite Hreq.
  - intros now. unfold central_pauseRound, mbind, M_bind. by rewrite Hreq.
  - intros now h. unfold central_resumeRound, mbind, M_bind. by rewrite Hreq.
  - unfold central_resetRoom, mbind, M_bind. by rewrite Hreq.
Qed.

Lemma central_only_witness :
  central_resetRoom "mallory" round65 = (round65, inl E_NOT_CENTRAL).
Proof. apply (central_only "mallory" round65). discriminate. Defined.

(** X20. Removing a station that is not there.  The controller's
    [removeStation] of an id outside [1..stationsCount], or of a missing
    slot, fails with [E_INVALID_STATION] and changes nothing.  On a paused
    (ENDED) room the removal of a valid station answers ok with an empty
    remap list and changes nothing either: renumber compaction only acts on a
    WAITING room, and returns the empty list otherwise or for an id out of
    range. *)
Theorem removeStation_nothing (sid : Z) (r : Room) :
  let c := centralClientId r in
  (¬ (1 ≤ sid ≤ stationsCount r) ∨ stations r !! sid = None →
   central_removeStation c sid r = (r, inl E_INVALID_STATION))
  ∧ (state r = ENDED → 1 ≤ sid ≤ stationsCount r → is_Some (stations r !! sid) →
     central_removeStation c sid r = (r, inr (Compacted [])))
  ∧ (state r ≠ WAITING ∨ ¬ (1 ≤ sid ≤ stationsCount r) →
     renumberCompactIfWaiting sid r = (r, [])).
Proof.
  intros c. subst c. split; [|split; [|apply renumberCompact_idle]].
  - intros H. unfold central_removeStation. run. rewrite requireCentral_eq.
    rewrite String.eqb_refl.
    destruct ((sid <? 1) || (stationsCount r <? sid)) eqn:E; [done |].
    apply orb_false_iff in E as [E1 E2].
    destruct H as [H|H]; [lia |]. by rewrite H.
  - intros Hs Hsid [slot Hslot]. unfold central_removeStation. run.
    rewrite requireCentral_eq. rewrite String.eqb_refl.
    destruct (sid <? 1) eqn:E1; [lia |].
    destruct (stationsCount r <? sid) eqn:E2; [lia |]. cbn [orb]. rewrite Hslot.
    rewrite bool_decide_eq_false_2 by congruence.
    rewrite renumberCompact_idle by (left; congruence). done.
Qed.

Lemma removeStation_nothing_witness :
  central_removeStation "central" 3 round65 = (round65, inl E_INVALID_STATION)
  ∧ central_removeStation "central" 1 (exec (stopRound 500) round65)
    = (exec (stopRound 500) round65, inr (Compacted [])).
Proof.
  pose proof (removeStation_nothing 3 round65) as (H1 & _).
  pose proof (removeStation_nothing 1 (exec (stopRound 500) round65)) as (_ & H2 & _).
  split.
  - apply H1. left. vm_compute. intros [_ H]. by apply H.
  - apply H2; [reflexivity | vm_compute; split; discriminate |].
    exists (mkSlot 1 (Some "a") true true). reflexivity.
Defined.

(** X21. The guards of pause and resume.  [stopRound] fails with
    [E_BAD_STATE] unless the room is RUNNING, so a second pause fails;
    [resumeRound] fails with [E_BAD_STATE] unless the room is ENDED with a
    positive [timeLeft], so a round that ran out cannot be resumed and a
    second resume fails.  A failing call leaves the room untouched. *)
Theorem pause_resume_guards (now now' : Z) (r : Room) :
  (state r ≠ RUNNING → stopRound now r = (r, inl E_BAD_STATE))
  ∧ (state r = RUNNING →
     stopRound now' (stopRound now r).1 = ((stopRound now r).1, inl E_BAD_STATE))
  ∧ (state r ≠ ENDED → resumeRound now r = (r, inl E_BAD_STATE))
  ∧ (default 0 (timeLeft r) ≤ 0 → resumeRound now r = (r, inl E_BAD_STATE))
  ∧ (state r = ENDED → 0 < default 0 (timeLeft r) →
     (resumeRound now r).2 = inr tt
     ∧ resumeRound now' (resumeRound now r).1
       = ((resumeRound now r).1, inl E_BAD_STATE)).
Proof.
  assert (Hstop : ∀ x, state x ≠ RUNNING → stopRound now' x = (x, inl E_BAD_STATE)).
  { intros x Hx. unfold stopRound. run. by rewrite bool_decide_eq_false_2. }
  assert (Hres : ∀ t x, state x ≠ ENDED → resumeRound t x = (x, inl E_BAD_STATE)).
  { intros t x Hx. unfold resumeRound. run. by rewrite bool_decide_eq_false_2. }
  split; [|split; [|split; [|split]]].
  - intros Hs. unfold stopRound. run. by rewrite bool_decide_eq_false_2.
  - intros Hs. apply Hstop. by rewrite (stopRound_running now r Hs).
  - apply Hres.
  - apply resumeRound_no_time.
  - intros Hs Htl. destruct (timeLeft r) as [tl|] eqn:E; cbn [default] in Htl; [|lia].
    rewrite (resumeRound_ended now tl r Hs E Htl). split; [done |].
    by apply Hres.
Qed.

Lemma pause_resume_guards_witness :
  stopRound 9 (stopRound 5 round65).1 = ((stopRound 5 round65).1, inl E_BAD_STATE)
  ∧ resumeRound 9 round65 = (round65, inl E_BAD_STATE).
Proof.
  pose proof (pause_resume_guards 5 9 round65) as (_ & H1 & _).
  pose proof (pause_resume_guards 9 9 round65) as (_ & _ & H2 & _).
  split; [by apply H1 | apply H2; discriminate].
Defined.

(** * [updateConfig] and renumber compaction, in general *)

(** X22. What [updateConfig] does to the stations.  In a WAITING room whose
    keys are [1..stationsCount] with at most 200 stations and no claimed slot
    above the new count, [updateConfig] succeeds; afterwards the slots are
    exactly [1..newCount]: each old slot up to the new count is kept as it
    was, each new one is a fresh blank slot carrying its id, and everything
    above the new count is gone.  The bindings are untouched. *)
Theorem updateConfig_effect (count dur : Z) (r : Room) :
  state r = WAITING → keysContiguous r → stationsCount r ≤ 200 →
  (∀ i, count < i ≤ stationsCount r → ¬ claimed r i) →
  let r' := (updateConfig count dur r).1 in
  (updateConfig count dur r).2 = inr tt
  ∧ stationsCount r' = count ∧ roundDurationSec r' = dur
  ∧ bindings r' = bindings r ∧ state r' = WAITING
  ∧ (∀ i, stations r' !! i
          = if bool_decide (1 ≤ i ≤ count)
            then Some (default (freshSlot i) (stations r !! i))
            else None)
  ∧ keysContiguous r'.
Proof.
  intros Hs Hk H200 Hfree r'. subst r'. unfold updateConfig. run.
  rewrite bool_decide_eq_true_2 by done. cbn [negb].
  destruct (existsb _ _) eqn:Hex.
  { apply updateConfig_in_use_iff in Hex as (i & Hi & Hc). by destruct (Hfree i Hi). }
  cbn [fst snd stationsCount roundDurationSec bindings state stations
       set_roundDurationSec set_stations set_stationsCount].
  assert (Hlk : ∀ i,
    foldl (λ m i, match m !! i with
                  | Some _ => m
                  | None => <[i := freshSlot i]> m
                  end)
          (foldl (λ m i, delete i m) (stations r) (seqZ (count + 1) (200 - count)))
          (seqZ 1 count) !! i
    = if bool_decide (1 ≤ i ≤ count) then Some (default (freshSlot i) (stations r !! i))
      else None).
  { intros i. rewrite lookup_foldl_fill, lookup_foldl_delete.
    destruct (decide (1 ≤ i ≤ count)) as [Hi|Hi].
    - rewrite (bool_decide_eq_false_2 (i ∈ seqZ (count + 1) (200 - count)))
        by (rewrite elem_of_seqZ; lia).
      rewrite !bool_decide_eq_true_2; [|done | apply elem_of_seqZ; lia].
      by destruct (stations r !! i).
    - rewrite (bool_decide_eq_false_2 (1 ≤ i ≤ count)) by done.
      rewrite (bool_decide_eq_false_2 (i ∈ seqZ 1 count)) by (rewrite elem_of_seqZ; lia).
      case_bool_decide as Hd; [done |].
      destruct (stations r !! i) as [s|] eqn:Hsi; [|done]. exfalso.
      apply mk_is_Some, (keysContiguous_range r i Hk) in Hsi.
      apply Hd, elem_of_seqZ. lia. }
  do 5 (split; [done |]). split; [exact Hlk |].
  apply keysContiguous_lookup. intros i.
  cbn [stations stationsCount set_roundDurationSec set_stations set_stationsCount].
  rewrite Hlk. case_bool_decide; split; intros H'; try done.
Qed.

Lemma updateConfig_effect_witness :
  let r' := (updateConfig 4 30 room2a).1 in
  stationsCount r' = 4 ∧ stations r' !! 4 = Some (freshSlot 4)
  ∧ stations r' !! 1 = stations room2a !! 1.
Proof.
  pose proof (updateConfig_effect 4 30 room2a eq_refl (proj1 room2a_inv)
                ltac:(vm_compute; discriminate)) as H.
  cbv zeta in H. destruct H as (_ & H1 & _ & _ & _ & H2 & _).
  - intros i Hi. change (stationsCount room2a) with 2 in Hi. lia.
  - split; [exact H1 |]. split; rewrite H2; reflexivity.
Defined.

Lemma renumber_fold_out (k : Z) (st : gmap Z StationSlot) (bd : gmap string Z) (n : nat) :
  (foldl renumberStep (st, bd, []) (seqZ k (Z.of_nat n))).2
  = omap (remapAt st) (seqZ k (Z.of_nat n)).
Proof.
  induction n as [|n IH]; [done |].
  rewrite seqZ_S, foldl_snoc, omap_app.
  pose proof (renumber_fold_stations k st bd n (k + Z.of_nat n + 1)) as Hsrc.
  rewrite bool_decide_eq_false_2 in Hsrc by lia.
  destruct (foldl renumberStep (st, bd, []) (seqZ k (Z.of_nat n))) as [[st' bd'] out'].
  cbn [fst snd] in *.
  destruct (renumberStep_out st' bd' out' (k + Z.of_nat n)) as (_ & -> & _).
  rewrite IH. f_equal. unfold remapAt. rewrite Hsrc. cbn [omap list_omap].
  by destruct (st !! (k + Z.of_nat n + 1)) as [s|]; [destruct (ownerClientId s) as [c|];
    [destruct (truthy_str (Some c))|]|].
Qed.

(** X23. Renumber compaction of any station.  In a WAITING room,
    [renumberCompactIfWaiting k] for any [k] in [1..stationsCount] (the top
    slot included, then nothing shifts) decrements the count by 1, puts at
    every position [k ≤ j < stationsCount] the owner, ready and connected
    state of slot [j + 1] under the id [j], deletes the top slot, leaves the
    slots below [k] alone, keeps the keys contiguous, leaves the round fields
    alone, and returns the remaps of the non-empty owners of the slots
    [k+1..stationsCount] in increasing order. *)
Theorem renumberCompact_any (k : Z) (r : Room) :
  state r = WAITING → 1 ≤ k ≤ stationsCount r → keysContiguous r →
  let r' := (renumberCompactIfWaiting k r).1 in
  stationsCount r' = stationsCount r - 1
  ∧ (∀ j, stations r' !! j
          = if bool_decide (k ≤ j < stationsCount r)
            then Some (shifted (stations r) j)
            else if bool_decide (j = stationsCount r) then None else stations r !! j)
  ∧ keysContiguous r'
  ∧ (renumberCompactIfWaiting k r).2
    = omap (remapAt (stations r)) (seqZ k (stationsCount r - k))
  ∧ state r' = WAITING ∧ roundDurationSec r' = roundDurationSec r
  ∧ pendingCompaction r' = pendingCompaction r.
Proof.
  intros Hs Hk Hkeys r'. subst r'.
  assert (Hlk : ∀ j, stations (renumberCompactIfWaiting k r).1 !! j
            = if bool_decide (k ≤ j < stationsCount r)
              then Some (shifted (stations r) j)
              else if bool_decide (j = stationsCount r) then None else stations r !! j).
  { intros j. rewrite (renumberCompact_run k r Hs Hk).
    cbn [fst stations set_stationsCount set_bindings set_stations].
    pose proof (renumber_fold_stations k (alter clearSlot k (stations r)) (bindings r)
                  (Z.to_nat (stationsCount r - k)) j) as HF.
    rewrite Z2Nat.id in HF by lia.
    destruct (decide (j = stationsCount r)) as [->|Hne].
    { rewrite lookup_delete_eq. rewrite bool_decide_eq_false_2 by lia.
      by rewrite bool_decide_eq_true_2. }
    rewrite lookup_delete_ne by done. rewrite HF.
    rewrite (bool_decide_eq_false_2 (j = stationsCount r)) by done.
    destruct (decide (k ≤ j < stationsCount r)) as [Hj|Hj].
    - rewrite !bool_decide_eq_true_2 by lia. unfold shifted.
      rewrite lookup_alter_ne by lia. done.
    - rewrite !bool_decide_eq_false_2 by lia.
      destruct (decide (j = k)) as [->|Hjk]; [lia |]. by rewrite lookup_alter_ne. }
  assert (Hc : stationsCount (renumberCompactIfWaiting k r).1 = stationsCount r - 1).
  { rewrite (renumberCompact_run k r Hs Hk). cbn [fst stationsCount set_stationsCount].
    lia. }
  destruct (renumberCompact_round k r) as (E1 & E2 & _ & _ & _ & _ & _ & E3).
  split; [exact Hc |]. split; [exact Hlk |]. split; [|split; [|by rewrite E1, E2, E3]].
  - apply keysContiguous_lookup. intros j. rewrite Hlk, Hc.
    case_bool_decide as H1; [split; [lia | eauto] |].
    case_bool_decide as H2; [split; [by intros [? ?] | lia] |].
    rewrite (keysContiguous_range r j Hkeys). lia.
  - rewrite (renumberCompact_run k r Hs Hk). cbn [snd].
    pose proof (renumber_fold_out k (alter clearSlot k (stations r)) (bindings r)
                  (Z.to_nat (stationsCount r - k))) as HF.
    rewrite Z2Nat.id in HF by lia. rewrite HF.
    apply list_omap_ext, Forall2_same_length_lookup. split; [done |].
    intros i x y Hx Hy. rewrite Hx in Hy. injection Hy as <-.
    apply lookup_seqZ in Hx as [-> _]. unfold remapAt.
    by rewrite lookup_alter_ne by lia.
Qed.

Lemma renumberCompact_any_witness :
  stationsCount (renumberCompactIfWaiting 3 room3).1 = 2
  ∧ (renumberCompactIfWaiting 3 room3).2 = [].
Proof.
  pose proof (renumberCompact_any 3 room3 eq_refl
                ltac:(vm_compute; split; discriminate) (proj1 room3_inv)) as H.
  cbv zeta in H. destruct H as (H1 & _ & _ & H2 & _).
  split; [exact H1 | rewrite H2; reflexivity].
Defined.

(** * Reconnecting *)

(** X24. A refresh keeps the seat.  If a client that owns a connected slot
    disconnects and then joins again without naming a station, the handler
    re-claims the bound slot and the room is exactly as before the
    disconnect (unless that room was a WAITING room with every slot claimed
    and ready, which the join would start). *)
Theorem rejoin_restores (c : string) (s : Z) (slot : StationSlot)
    (now : Z) (h : Timeout) (r : Room) :
  bindings r !! c = Some s → s ≠ 0 →
  stations r !! s = Some slot → ownerClientId slot = Some c → connected slot = true →
  allClaimedAndReady r && bool_decide (state r = WAITING) = false →
  station_join c None now h (onClientDisconnect c r) = (r, inr tt).
Proof.
  intros Hb Hs Hslot Hown Hconn Hno.
  assert (Hd : onClientDisconnect c r
               = set_stations (alter (set_connected false) s (stations r)) r).
  { unfold onClientDisconnect. rewrite Hb. cbn [truthy_num].
    by destruct (Z.eqb_spec s 0). }
  rewrite Hd. unfold station_join. run. rewrite Hb. cbn [truthy_num].
  destruct (Z.eqb_spec s 0); [done |]. cbn [negb].
  rewrite lookup_alter_eq, Hslot. cbn [fmap option_fmap option_map ownerClientId
                                      set_connected].
  rewrite Hown. unfold str_neq. rewrite bool_decide_eq_true_2 by done.
  rewrite andb_false_r.
  assert (Hr : set_bindings (<[c := s]> (bindings r))
                 (set_stations
                    (alter (claimSlot c) s (alter (set_connected false) s (stations r)))
                    (set_stations (alter (set_connected false) s (stations r)) r)) = r).
  { assert (alter (claimSlot c) s (alter (set_connected false) s (stations r))
            = stations r) as ->.
    { apply map_eq. intros i. destruct (decide (i = s)) as [->|Hne].
      - rewrite !lookup_alter_eq, Hslot. cbn. destruct slot. cbn in *. by subst.
      - by rewrite !lookup_alter_ne. }
    rewrite (insert_id (bindings r) c s Hb). by destruct r. }
  cbn [bindings stations set_stations].
  rewrite Hr, autoStart_eq, Hno. done.
Qed.

Lemma rejoin_restores_witness :
  station_join "a" None 7 3%nat (onClientDisconnect "a" room2a) = (room2a, inr tt).
Proof.
  apply (rejoin_restores "a" 1 (mkSlot 1 (Some "a") false true) 7 3%nat room2a);
    (reflexivity || lia).
Defined.

(** * The snapshot store *)

Lemma mapOfEntries_lookup {V : Type} `{Countable K} (l : list (K * V)) (m0 : gmap K V)
    (k : K) :
  NoDup l.*1 →
  foldl (λ m kv, <[kv.1 := kv.2]> m) m0 l !! k
  = match (list_to_map l : gmap K V) !! k with
    | Some v => Some v
    | None => m0 !! k
    end.
Proof.
  revert m0. induction l as [|[k' v'] l IH]; intros m0 Hnd; [done |].
  cbn [fmap list_fmap fst] in Hnd. inversion Hnd as [|? ? Hnin Hnd']; subst.
  cbn [foldl fst snd list_to_map foldr].
  rewrite (IH _ Hnd'). destruct (decide (k = k')) as [->|Hne].
  - rewrite !lookup_insert_eq.
    by rewrite (not_elem_of_list_to_map_1 l k' Hnin).
  - rewrite !lookup_insert_ne by done. done.
Qed.

Lemma mapOfEntries_to_list {V : Type} `{Countable K} (m : gmap K V) :
  mapOfEntries (map_to_list m) = m.
Proof.
  apply map_eq. intros k. unfold mapOfEntries.
  rewrite mapOfEntries_lookup by apply NoDup_fst_map_to_list.
  rewrite list_to_map_to_list, lookup_empty. by destruct (m !! k).
Qed.

(** X25. The snapshot round trip.  Loading the snapshot of a room whose
    slots carry their keys as ids gives back its code, state, count,
    duration, stations and bindings, and nothing else: the controller is the
    empty id, and the clock, [timeLeft], the timer, the warning latches and
    the pending compaction are gone.  A room saved while RUNNING therefore
    comes back RUNNING with no clock: [tick] never changes it, and no
    connected client is its controller.  Loading an unknown code gives
    nothing. *)
Theorem snapshot_roundtrip (r : Room) (db : gmap string Persisted) :
  (idsMatchKeys r → loadRoom (code r) (saveRoom r db) = Some (restored r))
  ∧ (∀ now, tick now (restored r) = (restored r, inr []))
  ∧ (∀ c, c ≠ "" → requireCentral c (restored r) = (restored r, inl E_NOT_CENTRAL))
  ∧ (∀ c, db !! roomKey c = None → loadRoom c db = None).
Proof.
  split; [|split; [|split]].
  - intros Hids. unfold loadRoom, saveRoom. rewrite lookup_insert_eq.
    cbn [p_code p_state p_stationsCount p_roundDurationSec p_stations p_bindings].
    rewrite mapOfEntries_to_list.
    assert ((λ s, (id s, s)) <$> (map_to_list (stations r)).*2 = map_to_list (stations r))
      as ->; [|by rewrite mapOfEntries_to_list].
    rewrite <- list_fmap_compose.
    rewrite <- (list_fmap_id (map_to_list (stations r))) at 2.
    apply list_fmap_ext. intros i [k s] Hin. cbn.
    apply list_elem_of_lookup_2, elem_of_map_to_list in Hin. by rewrite (Hids k s Hin).
  - intros now. apply tick_idle. by right.
  - intros c Hc. rewrite requireCentral_eq. cbn [centralClientId restored].
    destruct (String.eqb_spec "" c); [congruence | done].
  - intros c Hn. unfold loadRoom. by rewrite Hn.
Qed.

Lemma snapshot_roundtrip_witness :
  loadRoom "R" (saveRoom served ∅) = Some (restored served).
Proof.
  apply (snapshot_roundtrip served ∅).
  by destruct (reachable_server_inv served served_reachable) as ((_ & ? & _) & _).
Defined.

(** * The clock, the seats *)

Lemma runTicks_startedAt (nows : list Z) (r : Room) :
  startedAt (runTicks nows r).1 = startedAt r.
Proof.
  revert r. induction nows as [|now rest IH]; intros r; [done |].
  cbn [runTicks fst]. rewrite IH. by destruct (tick_frame now r) as (_ & _ & _ & _ & -> & _).
Qed.

(** X26. [timeLeft] follows the clock, not the ticks.  Whatever ticks came
    before (late, missing or many), a tick at time [now] on a round that is
    still RUNNING sets [timeLeft = max (0, roundDurationSec - elapsed)] with
    [elapsed] the whole seconds since [startedAt]; this value is never
    negative, never above the duration once the clock has passed
    [startedAt], and never goes up as [now] grows. *)
Theorem tick_wall_clock (nows : list Z) (now sa : Z) (r : Room) :
  startedAt r = Some sa → state (runTicks nows r).1 = RUNNING →
  timeLeft (tick now (runTicks nows r).1).1
  = Some (Z.max 0 (roundDurationSec r - (now - sa) `div` 1000))
  ∧ 0 ≤ remaining (roundDurationSec r) now sa
  ∧ (sa ≤ now → 0 ≤ roundDurationSec r →
     remaining (roundDurationSec r) now sa ≤ roundDurationSec r)
  ∧ (∀ now', now ≤ now' →
       remaining (roundDurationSec r) now' sa ≤ remaining (roundDurationSec r) now sa).
Proof.
  intros Hsa Hs. split; [|split; [|split]].
  - rewrite (tick_running now sa _ Hs) by (by rewrite runTicks_startedAt).
    unfold ticked. cbn [fst timeLeft]. by rewrite runTicks_duration.
  - unfold remaining. lia.
  - intros Hle Hd. unfold remaining.
    assert (0 ≤ (now - sa) `div` 1000) by (apply Z.div_pos; lia). lia.
  - intros now' Hle. unfold remaining.
    assert ((now - sa) `div` 1000 ≤ (now' - sa) `div` 1000)
      by (apply Z.div_le_mono; lia).
    lia.
Qed.

Lemma tick_wall_clock_witness :
  timeLeft (tick 30500 (runTicks [900; 7000; 7001] round65).1).1 = Some 35.
Proof.
  apply (tick_wall_clock [900; 7000; 7001] 30500 0 round65); reflexivity.
Defined.

(** X27. A join never takes a seat.  Whatever the [station:join] handler is
    asked, a slot owned by another client keeps its owner, its ready and
    connected flags, and that client keeps its binding. *)
Theorem join_never_steals (c : string) (sid : option Z) (now : Z) (h : Timeout)
    (r : Room) (i : Z) (slot : StationSlot) (c' : string) :
  stations r !! i = Some slot → ownerClientId slot = Some c' → c' ≠ "" → c' ≠ c →
  let r' := (station_join c sid now h r).1 in
  stations r' !! i = Some slot ∧ bindings r' !! c' = bindings r !! c'.
Proof.
  intros Hslot Hown Hne Hcc r'. subst r'. unfold station_join. run.
  destruct (negb (truthy_num _)); [done |].
  destruct (match sid with Some s => Some s | None => bindings r !! c end) as [t|];
    [|done].
  destruct (stations r !! t) as [st|] eqn:Ht; [|done].
  destruct (truthy_str (ownerClientId st) && str_neq (ownerClientId st) (Some c)) eqn:Hg;
    [done |].
  rewrite autoStart_eq. cbn [fst].
  assert (i ≠ t) as Hit.
  { intros ->. rewrite Hslot in Ht. injection Ht as <-. rewrite Hown in Hg.
    rewrite (truthy_str_Some c' Hne) in Hg. unfold str_neq in Hg.
    rewrite bool_decide_eq_false_2 in Hg by congruence. done. }
  destruct (allClaimedAndReady _ && bool_decide _);
    cbn [stations bindings set_interval started set_bindings set_stations];
    by rewrite lookup_alter_ne, lookup_insert_ne.
Qed.

Lemma join_never_steals_witness :
  stations (station_join "b" (Some 1) 0 0%nat room2a).1 !! 1
  = Some (mkSlot 1 (Some "a") false true).
Proof.
  apply (join_never_steals "b" (Some 1) 0 0%nat room2a 1
           (mkSlot 1 (Some "a") false true) "a"); (reflexivity || discriminate).
Defined.

(** X28. Leaving frees the seat.  In a room that satisfies the room
    invariants, after [station:leave] the client has no binding and owns no
    slot, and the invariants still hold; while the round is RUNNING the count
    is left alone and the compaction is marked pending; a client without a
    binding changes nothing. *)
Theorem leave_frees_seat (c : string) (r : Room) :
  room_inv r →
  let r' := (station_leave c r).1 in
  bindings r' !! c = None
  ∧ (∀ i s, stations r' !! i = Some s → ownerClientId s ≠ Some c)
  ∧ room_inv r'
  ∧ (bindings r !! c = None → r' = r)
  ∧ (state r = RUNNING → is_Some (bindings r !! c) →
     pendingCompaction r' = true ∧ stationsCount r' = stationsCount r
     ∧ state r' = RUNNING).
Proof.
  intros Hinv r'. pose proof (station_leave_inv c r Hinv) as Hinv'.
  unfold exec in Hinv'. fold r' in Hinv'.
  assert (Hb : bindings r' !! c = None).
  { subst r'. unfold station_leave. run.
    destruct (bindings r !! c) as [s|] eqn:Hc; cbn [truthy_num]; [|simpl; exact Hc].
    destruct (Z.eqb_spec s 0) as [->|Hs]; cbn [negb fst].
    - exfalso. destruct Hinv as (Hk & Hbm & _).
      apply Hbm in Hc as (slot & Hslot & _).
      apply mk_is_Some, (keysContiguous_range r 0 Hk) in Hslot. lia.
    - destruct (bool_decide _); cbn [fst bindings set_pendingCompaction set_bindings].
      + apply lookup_delete_eq.
      + destruct (tailCompact_fields
                    (set_bindings (delete c (bindings r))
                       (set_stations (alter clearSlot s (stations r)) r)))
          as (_ & -> & _).
        apply lookup_delete_eq. }
  split; [exact Hb |]. split; [|split; [exact Hinv' | split]].
  - intros i s Hs Hown. destruct Hinv' as (_ & Hbm & _).
    assert (bindings r' !! c = Some i) as Hbi by (apply Hbm; eauto). congruence.
  - intros Hn. subst r'. unfold station_leave. run. by rewrite Hn.
  - intros Hs [s Hc]. subst r'. unfold station_leave. run. rewrite Hc. cbn [truthy_num].
    destruct (Z.eqb_spec s 0) as [->|Hs0]; cbn [negb fst].
    + exfalso. destruct Hinv as (Hk & Hbm & _).
      apply Hbm in Hc as (slot & Hslot & _).
      apply mk_is_Some, (keysContiguous_range r 0 Hk) in Hslot. lia.
    + rewrite bool_decide_eq_true_2 by done. done.
Qed.

Lemma leave_frees_seat_witness :
  bindings (station_leave "a" room2a).1 !! "a" = None
  ∧ room_inv (station_leave "a" room2a).1.
Proof.
  pose proof (leave_frees_seat "a" room2a room2a_inv) as (H1 & _ & H2 & _).
  split; [exact H1 | exact H2].
Defined.


